(** * velox/velox.c: the focus and arrangement controller

    A shallow embedding of the commands of [velox/velox.c] that act on the
    workspace registry: [update_focus], [set_workspace],
    [move_focus_to_workspace], [set_focus_type], [next_workspace],
    [previous_workspace], [toggle_focus_type], [set_layout], [next_layout],
    [previous_layout], [focus_next], [focus_previous], [move_next],
    [move_previous], [toggle_floating] and [arrange].

    The C code works on intrusive doubly linked lists whose nodes live inside
    the window records.  A list is represented by the sequence of the windows
    linked into it, a node by the window that contains it, and the position
    of a node is a property of the whole registry: unlinking or swapping a
    node acts on whichever list holds it. *)

From Stdlib Require Import Strings.Byte.
From stdpp Require Import base decidable option numbers list sets.

(** ** list.h *)

(** A [struct velox_link *]: either the sentinel [head] of a list or the node
    embedded in an entry.  [link_entry] is pointer arithmetic, so an entry
    pointer is represented by the link it was computed from. *)
Inductive velox_link (A : Type) : Type :=
  | head
  | node (a : A).
Arguments head {A}.
Arguments node {A} a.

Global Instance velox_link_eq_dec {A} `{EqDecision A} : EqDecision (velox_link A).
Proof. solve_decision. Defined.

Section list_h.
Context {A : Type} `{EqDecision A}.

(** Modelled from the spec: list.h is not part of the sources; [isEmpty] of
    section 4.1. *)
Definition list_is_empty (l : list A) : bool :=
  match l with [] => true | _ => false end.

(** Modelled from the spec: list.h; [isSingular], "exactly one element". *)
Definition list_is_singular (l : list A) : bool :=
  match l with [_] => true | _ => false end.

(** Modelled from the spec: list.h; [isTrivial], "fewer than two elements". *)
Definition list_is_trivial (l : list A) : bool :=
  match l with [] | [_] => true | _ => false end.

(** Modelled from the spec: list.h; [first] of section 4.1, that is
    [list->head.next]: the sentinel itself when the list is empty. *)
Definition list_first_link (l : list A) : velox_link A :=
  match l with [] => head | a :: _ => node a end.

(** Modelled from the spec: list.h; [last] of section 4.1, that is
    [list->head.prev]. *)
Definition list_last_link (l : list A) : velox_link A :=
  match last l with None => head | Some a => node a end.

(** [link->next] for the node of [a]; [None] when [a] is not linked into
    [l], where the C code would follow the pointers of another list. *)
Fixpoint link_next (a : A) (l : list A) : option (velox_link A) :=
  match l with
  | [] => None
  | x :: t => if decide (x = a) then Some (list_first_link t) else link_next a t
  end.

(** [link->prev] for the node of [a]; [p] is the link before [l]. *)
Fixpoint link_prev (a : A) (p : velox_link A) (l : list A) : option (velox_link A) :=
  match l with
  | [] => None
  | x :: t => if decide (x = a) then Some p else link_prev a (node x) t
  end.

(** Modelled from the spec: list.h; section 4.1 describes [next] "with
    wraparound relative to the list's sentinel": the successor of a link,
    stepping over the sentinel. *)
Definition list_next_link (l : list A) (k : velox_link A) : option (velox_link A) :=
  match k with
  | head => Some (list_first_link l)
  | node a =>
      match link_next a l with
      | Some head => Some (list_first_link l)
      | r => r
      end
  end.

(** Modelled from the spec: list.h; [prev] of section 4.1, the predecessor
    of a link, stepping over the sentinel. *)
Definition list_prev_link (l : list A) (k : velox_link A) : option (velox_link A) :=
  match k with
  | head => Some (list_last_link l)
  | node a =>
      match link_prev a head l with
      | Some head => Some (list_last_link l)
      | r => r
      end
  end.

(** The effect of [link_swap (a, b)] on the name found at one position. *)
Definition swapped (a b x : A) : A :=
  if decide (x = a) then b else if decide (x = b) then a else x.
End list_h.

Global Arguments list_next_link : simpl never.
Global Arguments list_prev_link : simpl never.

(** ** window.h, layout.h, workspace.h *)

(** A window is identified by the address of its record. *)
Definition window := nat.

(** A [struct velox_window *]: [None] is [NULL]. *)
Definition window_ptr := option (velox_link window).
Definition NULL : window_ptr := None.
Definition link_entry (k : velox_link window) : window_ptr := Some k.
Definition list_first (l : list window) : window_ptr := link_entry (list_first_link l).
Definition list_last (l : list window) : window_ptr := link_entry (list_last_link l).

Inductive velox_workspace_focus_type := TILE | FLOAT.

Global Instance velox_workspace_focus_type_eq_dec : EqDecision velox_workspace_focus_type.
Proof. solve_decision. Defined.

(** Modelled from the spec: layout.h is not part of the sources.  A layout
    has a default state of [default_state_size] bytes (section 3); its
    arrangement function is an external collaborator and shows up in the
    trace only. *)
Record velox_layout := {
  identifier : nat;
  default_state : list byte;
  default_state_size : nat
}.

Record velox_layout_entry := { entry_layout : velox_layout }.

Global Instance byte_eq_dec : EqDecision byte := Byte.byte_eq_dec.

Global Instance velox_layout_eq_dec : EqDecision velox_layout.
Proof. solve_decision. Defined.

(** A node of a list of layouts is identified by the entry it lies in: a
    layout is registered once in a list. *)
Global Instance velox_layout_entry_eq_dec : EqDecision velox_layout_entry.
Proof. solve_decision. Defined.

(** Modelled from the spec: workspace.h is not part of the sources.  The
    fields are those velox.c reads and writes, with the types of section 3;
    [state] is the buffer [memcpy] writes the default state of a layout
    into. *)
Record velox_workspace := {
  focus_type : velox_workspace_focus_type;
  tiled_windows : list window;
  tiled_focus : velox_link window;
  floated_windows : list window;
  layouts : list velox_layout_entry;
  layout : velox_link velox_layout_entry;
  state : list byte
}.

Definition with_focus_type (t : velox_workspace_focus_type) (ws : velox_workspace) :=
  {| focus_type := t; tiled_windows := tiled_windows ws;
     tiled_focus := tiled_focus ws; floated_windows := floated_windows ws;
     layouts := layouts ws; layout := layout ws; state := state ws |}.

Definition with_tiled_windows (l : list window) (ws : velox_workspace) :=
  {| focus_type := focus_type ws; tiled_windows := l;
     tiled_focus := tiled_focus ws; floated_windows := floated_windows ws;
     layouts := layouts ws; layout := layout ws; state := state ws |}.

Definition with_tiled_focus (k : velox_link window) (ws : velox_workspace) :=
  {| focus_type := focus_type ws; tiled_windows := tiled_windows ws;
     tiled_focus := k; floated_windows := floated_windows ws;
     layouts := layouts ws; layout := layout ws; state := state ws |}.

Definition with_floated_windows (l : list window) (ws : velox_workspace) :=
  {| focus_type := focus_type ws; tiled_windows := tiled_windows ws;
     tiled_focus := tiled_focus ws; floated_windows := l;
     layouts := layouts ws; layout := layout ws; state := state ws |}.

Definition with_layout (k : velox_link velox_layout_entry) (ws : velox_workspace) :=
  {| focus_type := focus_type ws; tiled_windows := tiled_windows ws;
     tiled_focus := tiled_focus ws; floated_windows := floated_windows ws;
     layouts := layouts ws; layout := k; state := state ws |}.

Definition with_state (st : list byte) (ws : velox_workspace) :=
  {| focus_type := focus_type ws; tiled_windows := tiled_windows ws;
     tiled_focus := tiled_focus ws; floated_windows := floated_windows ws;
     layouts := layouts ws; layout := layout ws; state := st |}.

(** ** The collaborators, as a trace of calls *)

Inductive velox_hook := VELOX_HOOK_STARTUP | VELOX_HOOK_WORKSPACE_CHANGED | VELOX_HOOK_CLOCK_TICK.

Inductive call :=
  | ShowWindow (w : window)
  | HideWindow (w : window)
  | Focus (p : window_ptr)
  | LayoutArrange (l : velox_link velox_layout_entry) (tiled : list window) (st : list byte)
  | RunHooks (index : nat) (hook : velox_hook).

(** ** The globals of velox.c *)

(** [workspaces] is the registry vector; a pointer into it is an index.
    [workspace] is the variable every command reads and [set_workspace]
    assigns; [active_workspace] is the variable defined at line 56, assigned
    by [setup] and read by [next_workspace].  [floating] gathers the
    [floating] flag of every window record. *)
Record velox := {
  workspaces : list velox_workspace;
  workspace : nat;
  active_workspace : nat;
  floating : window → bool;
  trace : list call
}.

Definition with_workspaces (l : list velox_workspace) (s : velox) :=
  {| workspaces := l; workspace := workspace s;
     active_workspace := active_workspace s; floating := floating s;
     trace := trace s |}.

Definition with_workspace (index : nat) (s : velox) :=
  {| workspaces := workspaces s; workspace := index;
     active_workspace := active_workspace s; floating := floating s;
     trace := trace s |}.

Definition with_floating (w : window) (b : bool) (s : velox) :=
  {| workspaces := workspaces s; workspace := workspace s;
     active_workspace := active_workspace s;
     floating := λ x, if decide (x = w) then b else floating s x;
     trace := trace s |}.

Definition emit (c : call) (s : velox) :=
  {| workspaces := workspaces s; workspace := workspace s;
     active_workspace := active_workspace s; floating := floating s;
     trace := trace s ++ [c] |}.

(** The calls [cs], made in this order. *)
Definition emit_all (cs : list call) (s : velox) : velox :=
  {| workspaces := workspaces s; workspace := workspace s;
     active_workspace := active_workspace s; floating := floating s;
     trace := trace s ++ cs |}.

(** ** Results *)

(** What stops a command: a failed [assert], an index outside the registry,
    or a link used where the list contract asks for a node of the list. *)
Inductive fault := assertion_failed | out_of_bounds | bad_link.

Inductive outcome (A : Type) : Type :=
  | Done (a : A)
  | Stuck (f : fault).
Arguments Done {A} a.
Arguments Stuck {A} f.

Global Instance outcome_ret : MRet outcome := λ A a, Done a.
Global Instance outcome_bind : MBind outcome := λ A B k m,
  match m with Done a => k a | Stuck f => Stuck f end.

Definition linked {A} (o : option A) : outcome A :=
  match o with Some a => Done a | None => Stuck bad_link end.

Definition node_of {A} (k : velox_link A) : outcome A :=
  match k with node a => Done a | head => Stuck bad_link end.

(** Modelled from the spec: workspace.h; [workspace_at (index)] is the entry
    of the registry at [index] (section 3), and there is none to read
    outside the registry. *)
Definition workspace_at (index : nat) (s : velox) : outcome velox_workspace :=
  match workspaces s !! index with
  | Some ws => Done ws
  | None => Stuck out_of_bounds
  end.

(** Assignment through [workspace_at(index)->...]. *)
Definition modify (index : nat) (f : velox_workspace → velox_workspace) (s : velox) : velox :=
  with_workspaces (alter f index (workspaces s)) s.

(** ** Link operations on the registry *)

Inductive list_ref :=
  | tiled_list (index : nat)
  | floated_list (index : nat).

Definition unlink (w : window) (ws : velox_workspace) : velox_workspace :=
  with_floated_windows (filter (λ x, x ≠ w) (floated_windows ws))
    (with_tiled_windows (filter (λ x, x ≠ w) (tiled_windows ws)) ws).

Definition link_remove (w : window) (s : velox) : velox :=
  with_workspaces (unlink w <$> workspaces s) s.

Definition add_first (w : window) (r : list_ref) (s : velox) : velox :=
  match r with
  | tiled_list i => modify i (λ ws, with_tiled_windows (w :: tiled_windows ws) ws) s
  | floated_list i => modify i (λ ws, with_floated_windows (w :: floated_windows ws) ws) s
  end.

Definition add_last (w : window) (r : list_ref) (s : velox) : velox :=
  match r with
  | tiled_list i => modify i (λ ws, with_tiled_windows (tiled_windows ws ++ [w]) ws) s
  | floated_list i => modify i (λ ws, with_floated_windows (floated_windows ws ++ [w]) ws) s
  end.

(** Modelled from the spec: list.h; [remove] and [insertAfter] of section
    4.1.  [link_move_after (&w->link, &r.head)] unlinks the node, then links
    it in as the first node of [r]; every call in velox.c passes a list head
    as position. *)
Definition link_move_after (w : window) (r : list_ref) (s : velox) : velox :=
  add_first w r (link_remove w s).

(** Modelled from the spec: list.h; [remove] and [insertBefore] of section
    4.1.  [link_move_before (&w->link, &r.head)], and [list_del] followed by
    [list_append], unlink the node, then link it in as the last node of
    [r]. *)
Definition link_move_before (w : window) (r : list_ref) (s : velox) : velox :=
  add_last w r (link_remove w s).

Definition swap_links (a b : window) (ws : velox_workspace) : velox_workspace :=
  with_floated_windows (swapped a b <$> floated_windows ws)
    (with_tiled_windows (swapped a b <$> tiled_windows ws) ws).

(** Modelled from the spec: list.h; [link_swap] "exchanges two nodes'
    positions without reallocation" (section 4.1). *)
Definition link_swap (a b : window) (s : velox) : velox :=
  with_workspaces (swap_links a b <$> workspaces s) s.

(** ** Collaborator calls *)

Definition show_window (w : window) (s : velox) : velox := emit (ShowWindow w) s.
Definition hide_window (w : window) (s : velox) : velox := emit (HideWindow w) s.
Definition focus (p : window_ptr) (s : velox) : velox := emit (Focus p) s.
Definition run_hooks (index : nat) (h : velox_hook) (s : velox) : velox :=
  emit (RunHooks index h) s.

Definition list_for_each_entry (l : list window) (body : window → velox → velox)
    (s : velox) : velox :=
  foldl (λ s w, body w s) s l.

(** [restack] has an empty body (velox.c:482). *)
Definition restack (s : velox) : velox := s.

Global Arguments modify : simpl never.
Global Arguments link_move_after : simpl never.
Global Arguments link_move_before : simpl never.
Global Arguments link_swap : simpl never.
Global Arguments emit : simpl never.
Global Arguments focus : simpl never.
Global Arguments show_window : simpl never.
Global Arguments hide_window : simpl never.
Global Arguments run_hooks : simpl never.
Global Arguments with_floating : simpl never.
Global Arguments with_workspace : simpl never.

(** ** The commands *)

(** velox.c:469.  [calculate_work_area] only computes the area handed to the
    layout; the call of the layout's arrangement function is recorded with
    the list and the state it receives. *)
Definition arrange (s : velox) : outcome velox :=
  ws ← workspace_at (workspace s) s;
  if list_is_empty (tiled_windows ws) then Done s
  else if list_is_empty (layouts ws) then Stuck assertion_failed
  else Done (emit (LayoutArrange (layout ws) (tiled_windows ws) (state ws)) s).

(** velox.c:80 *)
Definition update_focus (index : nat) (s : velox) : outcome velox :=
  ws ← workspace_at index s;
  match focus_type ws with
  | TILE =>
      if list_is_empty (tiled_windows ws) then Done (focus NULL s)
      else Done (focus (link_entry (tiled_focus ws)) s)
  | FLOAT =>
      if list_is_empty (floated_windows ws) then Done (focus NULL s)
      else Done (focus (list_first (floated_windows ws)) s)
  end.

(** velox.c:100; [index] is the [uint8_t] of the argument. *)
Definition set_workspace (index : nat) (s : velox) : outcome velox :=
  if decide (index < length (workspaces s)) then
    if decide (workspace s = index) then Done s
    else
      target ← workspace_at index s;
      let s := list_for_each_entry (tiled_windows target) show_window s in
      let s := list_for_each_entry (floated_windows target) show_window s in
      s ← update_focus index s;
      current ← workspace_at (workspace s) s;
      let s := list_for_each_entry (tiled_windows current) hide_window s in
      let s := list_for_each_entry (floated_windows current) hide_window s in
      let s := with_workspace index s in
      current ← workspace_at (workspace s) s;
      s ← (match focus_type current with TILE => arrange s | FLOAT => Done s end);
      Done (run_hooks (workspace s) VELOX_HOOK_WORKSPACE_CHANGED s)
  else Stuck assertion_failed.

(** velox.c:140; [index] is the [uint8_t] of the argument, and nothing checks
    it against the size of the registry. *)
Definition move_focus_to_workspace (index : nat) (s : velox) : outcome velox :=
  source ← workspace_at (workspace s) s;
  match focus_type source with
  | TILE =>
      if list_is_empty (tiled_windows source) then Done s
      else
        window ← node_of (tiled_focus source);
        next_focus ← linked (list_next_link (tiled_windows source) (tiled_focus source));
        _ ← workspace_at index s;
        let s := link_move_after window (tiled_list index) s in
        target ← workspace_at index s;
        let s :=
          if list_is_singular (tiled_windows target)
          then modify index (with_tiled_focus (list_first_link (tiled_windows target))) s
          else s in
        source ← workspace_at (workspace s) s;
        let next_focus := if list_is_empty (tiled_windows source) then head else next_focus in
        let s :=
          if list_is_empty (tiled_windows source) && negb (list_is_empty (floated_windows source))
          then modify (workspace s) (with_focus_type FLOAT) s
          else s in
        let s := modify (workspace s) (with_tiled_focus next_focus) s in
        s ← update_focus (workspace s) s;
        let s := hide_window window s in
        s ← arrange s;
        target ← workspace_at index s;
        if list_is_empty (floated_windows target)
        then Done (modify index (with_focus_type TILE) s)
        else Done s
  | FLOAT =>
      if list_is_empty (floated_windows source) then Done s
      else
        window ← node_of (list_first_link (floated_windows source));
        _ ← workspace_at index s;
        let s := link_move_before window (floated_list index) s in
        source ← workspace_at (workspace s) s;
        let s :=
          if list_is_empty (floated_windows source)
          then modify (workspace s) (with_focus_type TILE) s
          else s in
        s ← update_focus (workspace s) s;
        let s := hide_window window s in
        s ← arrange s;
        target ← workspace_at index s;
        if list_is_empty (tiled_windows target)
        then Done (modify index (with_focus_type FLOAT) s)
        else Done s
  end.

(** velox.c:226 *)
Definition set_focus_type (t : velox_workspace_focus_type) (s : velox) : outcome velox :=
  ws ← workspace_at (workspace s) s;
  if decide (focus_type ws = t) then Done s
  else
    match t with
    | TILE =>
        if negb (list_is_empty (tiled_windows ws))
        then Done (focus (link_entry (tiled_focus ws))
                     (modify (workspace s) (with_focus_type t) s))
        else Done s
    | FLOAT =>
        if negb (list_is_empty (floated_windows ws))
        then Done (focus (list_first (floated_windows ws))
                     (modify (workspace s) (with_focus_type t) s))
        else Done s
    end.

(** Modelled from the spec: vector.h is not part of the sources.
    [vector_for_each_with_index] with a [break] on the entry sought is the
    "linear scan" of section 4.3: it leaves [index] at the position of the
    entry, or at the size of the vector when no entry matches.  [index] is a
    [uint8_t], so the registry is taken to hold at most 255 workspaces. *)
Fixpoint vector_scan (sought index remaining : nat) : nat :=
  match remaining with
  | 0 => index
  | S remaining => if decide (index = sought) then index else vector_scan sought (S index) remaining
  end.

(** velox.c:244; [++index] is taken modulo 256. *)
Definition next_workspace (s : velox) : outcome velox :=
  let index := vector_scan (active_workspace s) 0 (length (workspaces s)) in
  let index := (index + 1) mod 256 in
  let index := if decide (index = length (workspaces s)) then 0 else index in
  set_workspace index s.

(** [memcpy (dst, src, n)] on byte sequences; reading or writing past the end
    of a buffer is out of bounds. *)
Definition memcpy (dst src : list byte) (n : nat) : outcome (list byte) :=
  if decide (n ≤ length src ∧ n ≤ length dst) then Done (take n src ++ drop n dst)
  else Stuck out_of_bounds.

(** velox.c:290 *)
Definition set_layout (link : velox_link velox_layout_entry) (s : velox) : outcome velox :=
  _ ← workspace_at (workspace s) s;
  let s := modify (workspace s) (with_layout link) s in
  entry ← node_of link;
  let layout := entry_layout entry in
  ws ← workspace_at (workspace s) s;
  st ← memcpy (state ws) (default_state layout) (default_state_size layout);
  let s := modify (workspace s) (with_state st) s in
  arrange s.

(** velox.c:316 *)
Definition focus_next (s : velox) : outcome velox :=
  ws ← workspace_at (workspace s) s;
  match focus_type ws with
  | TILE =>
      if list_is_trivial (tiled_windows ws) then Done s
      else
        next ← linked (list_next_link (tiled_windows ws) (tiled_focus ws));
        let s := modify (workspace s) (with_tiled_focus next) s in
        Done (focus (link_entry next) s)
  | FLOAT =>
      if list_is_trivial (floated_windows ws) then Done s
      else
        window ← node_of (list_last_link (floated_windows ws));
        let s := link_move_after window (floated_list (workspace s)) s in
        let s := focus (link_entry (node window)) s in
        Done (restack s)
  end.

(** velox.c:350 *)
Definition focus_previous (s : velox) : outcome velox :=
  ws ← workspace_at (workspace s) s;
  match focus_type ws with
  | TILE =>
      if list_is_trivial (tiled_windows ws) then Done s
      else
        prev ← linked (list_prev_link (tiled_windows ws) (tiled_focus ws));
        let s := modify (workspace s) (with_tiled_focus prev) s in
        Done (focus (link_entry prev) s)
  | FLOAT =>
      if list_is_trivial (floated_windows ws) then Done s
      else
        window ← node_of (list_first_link (floated_windows ws));
        let s := link_move_before window (floated_list (workspace s)) s in
        let s := focus (link_entry (node window)) s in
        Done (restack s)
  end.

(** velox.c:384 *)
Definition move_next (s : velox) : outcome velox :=
  ws ← workspace_at (workspace s) s;
  match focus_type ws with
  | TILE =>
      if list_is_trivial (tiled_windows ws) then Done s
      else
        first ← node_of (tiled_focus ws);
        next ← linked (list_next_link (tiled_windows ws) (tiled_focus ws));
        second ← node_of next;
        arrange (link_swap first second s)
  | FLOAT => Done s
  end.

(** velox.c:405 *)
Definition move_previous (s : velox) : outcome velox :=
  ws ← workspace_at (workspace s) s;
  match focus_type ws with
  | TILE =>
      if list_is_trivial (tiled_windows ws) then Done s
      else
        first ← node_of (tiled_focus ws);
        prev ← linked (list_prev_link (tiled_windows ws) (tiled_focus ws));
        second ← node_of prev;
        arrange (link_swap first second s)
  | FLOAT => Done s
  end.

(** velox.c:426 *)
Definition toggle_floating (s : velox) : outcome velox :=
  ws ← workspace_at (workspace s) s;
  match focus_type ws with
  | TILE =>
      if negb (list_is_empty (tiled_windows ws)) then
        window ← node_of (tiled_focus ws);
        next ← linked (list_next_link (tiled_windows ws) (tiled_focus ws));
        let s := modify (workspace s) (with_tiled_focus next) s in
        let s := link_move_after window (floated_list (workspace s)) s in
        let s := with_floating window true s in
        let s := modify (workspace s) (with_focus_type FLOAT) s in
        s ← update_focus (workspace s) s;
        arrange (restack s)
      else Done s
  | FLOAT =>
      if negb (list_is_empty (floated_windows ws)) then
        window ← node_of (list_first_link (floated_windows ws));
        let s := link_move_after window (tiled_list (workspace s)) s in
        let s := modify (workspace s) (with_tiled_focus (node window)) s in
        let s := with_floating window false s in
        let s := modify (workspace s) (with_focus_type TILE) s in
        s ← update_focus (workspace s) s;
        arrange (restack s)
      else Done s
  end.

(** velox.c:264; [index--] is taken modulo 256, and so is the
    [workspaces.size - 1] assigned to the [uint8_t]. *)
Definition previous_workspace (s : velox) : outcome velox :=
  let index := vector_scan (active_workspace s) 0 (length (workspaces s)) in
  let found_first := bool_decide (index = 0) in
  let index := (index + 255) mod 256 in
  let index := if found_first then (length (workspaces s) + 255) mod 256 else index in
  set_workspace index s.

(** velox.c:284 *)
Definition toggle_focus_type (s : velox) : outcome velox :=
  ws ← workspace_at (workspace s) s;
  match focus_type ws with
  | TILE => set_focus_type FLOAT s
  | FLOAT => set_focus_type TILE s
  end.

(** velox.c:302 *)
Definition next_layout (s : velox) : outcome velox :=
  ws ← workspace_at (workspace s) s;
  link ← linked (list_next_link (layouts ws) (layout ws));
  set_layout link s.

(** velox.c:309 *)
Definition previous_layout (s : velox) : outcome velox :=
  ws ← workspace_at (workspace s) s;
  link ← linked (list_prev_link (layouts ws) (layout ws));
  set_layout link s.

(** ** What the commands hand to the collaborators *)

(** The argument of the [focus] call of [update_focus] (velox.c:82-97). *)
Definition focused (ws : velox_workspace) : window_ptr :=
  match focus_type ws with
  | TILE => if list_is_empty (tiled_windows ws) then NULL else link_entry (tiled_focus ws)
  | FLOAT => if list_is_empty (floated_windows ws) then NULL else list_first (floated_windows ws)
  end.

(** The call of the layout that [arrange] makes (velox.c:473-479): none for
    an empty tiled list. *)
Definition arranged (ws : velox_workspace) : list call :=
  if list_is_empty (tiled_windows ws) then []
  else [LayoutArrange (layout ws) (tiled_windows ws) (state ws)].

(** The state [memcpy] leaves in the buffer [st] when [set_layout] copies the
    default state of an entry into it (velox.c:296). *)
Definition reset_state (entry : velox_layout_entry) (st : list byte) : list byte :=
  take (default_state_size (entry_layout entry)) (default_state (entry_layout entry)) ++
  drop (default_state_size (entry_layout entry)) st.

(** ** Command sequences *)

(** The commands of the focus and arrangement controller that the bindings
    can issue on the registry. *)
Inductive command :=
  | SetWorkspace (index : nat)
  | MoveFocusToWorkspace (index : nat)
  | SetFocusType (t : velox_workspace_focus_type)
  | FocusNext
  | FocusPrevious
  | MoveNext
  | MovePrevious
  | ToggleFloating.

Definition execute (c : command) : velox → outcome velox :=
  match c with
  | SetWorkspace index => set_workspace index
  | MoveFocusToWorkspace index => move_focus_to_workspace index
  | SetFocusType t => set_focus_type t
  | FocusNext => focus_next
  | FocusPrevious => focus_previous
  | MoveNext => move_next
  | MovePrevious => move_previous
  | ToggleFloating => toggle_floating
  end.

Fixpoint run (cs : list command) (s : velox) : outcome velox :=
  match cs with
  | [] => Done s
  | c :: cs => s ← execute c s; run cs s
  end.

(** The index argument of a command addresses a workspace of the registry. *)
Definition in_range (size : nat) (c : command) : Prop :=
  match c with
  | SetWorkspace index | MoveFocusToWorkspace index => index < size
  | _ => True
  end.

Fixpoint repeat_command (n : nat) (c : velox → outcome velox) (s : velox) : outcome velox :=
  match n with
  | 0 => Done s
  | S n => s ← c s; repeat_command n c s
  end.

(** The commands that work on the workspace in use: all but
    [set_workspace] and [move_focus_to_workspace]. *)
Definition in_place (c : command) : Prop :=
  match c with
  | SetWorkspace _ | MoveFocusToWorkspace _ => False
  | _ => True
  end.

(** ** Invariants of the registry *)

Definition windows_of (ws : velox_workspace) : list window :=
  tiled_windows ws ++ floated_windows ws.

(** Section 3: "a window is a member of at most one list in at most one
    workspace"; with intrusive links this holds by construction. *)
Definition links_distinct (s : velox) : Prop :=
  (∀ i ws, workspaces s !! i = Some ws → NoDup (windows_of ws)) ∧
  (∀ i j wi wj w, workspaces s !! i = Some wi → workspaces s !! j = Some wj →
     w ∈ windows_of wi → w ∈ windows_of wj → i = j).

(** The tiled focus cursor denotes a member of the tiled list. *)
Definition cursor_in_list (ws : velox_workspace) : Prop :=
  ∃ w, tiled_focus ws = node w ∧ w ∈ tiled_windows ws.

(** [workspace] points into the registry, links are distinct, and every
    workspace has a layout (section 3: "[layouts] is never empty once setup
    completes"). *)
Definition well_linked (s : velox) : Prop :=
  workspace s < length (workspaces s) ∧
  links_distinct s ∧
  ∀ i ws, workspaces s !! i = Some ws → layouts ws ≠ [].

(** The state of the registry between two commands: it is well linked, and
    the cursor of a non-empty tiled list lies in it, whatever the focus
    type. *)
Record registry_ok (s : velox) : Prop := {
  ok_linked : well_linked s;
  ok_cursor : ∀ i ws,
    workspaces s !! i = Some ws → tiled_windows ws ≠ [] → cursor_in_list ws
}.

(** The invariant of section 8, first item. *)
Definition focus_cursor_valid (s : velox) : Prop :=
  ∀ i ws, workspaces s !! i = Some ws →
    focus_type ws = TILE → tiled_windows ws ≠ [] → cursor_in_list ws.

(** [b] is the element right after [a] in [l]. *)
Fixpoint follows (a b : window) (l : list window) : bool :=
  match l with
  | x :: (y :: _) as t => (bool_decide (x = a) && bool_decide (y = b)) || follows a b t
  | _ => false
  end.

(** The list a focus type stands for. *)
Definition windows_in (t : velox_workspace_focus_type) (ws : velox_workspace) : list window :=
  match t with TILE => tiled_windows ws | FLOAT => floated_windows ws end.

Definition other_type (t : velox_workspace_focus_type) : velox_workspace_focus_type :=
  match t with TILE => FLOAT | FLOAT => TILE end.

(** The list of the focus type is empty only in a workspace without
    windows. *)
Definition mode_ok (ws : velox_workspace) : Prop :=
  windows_in (focus_type ws) ws = [] → windows_of ws = [].

Definition modes_ok (s : velox) : Prop :=
  ∀ i ws, workspaces s !! i = Some ws → mode_ok ws.

(** The windows linked into the lists of the registry. *)
Definition all_windows (s : velox) : list window := workspaces s ≫= windows_of.

(** The default state of an entry can be copied into the state buffer of the
    workspace: [memcpy] stays inside both. *)
Definition fits (ws : velox_workspace) (entry : velox_layout_entry) : Prop :=
  default_state_size (entry_layout entry) ≤ length (default_state (entry_layout entry)) ∧
  default_state_size (entry_layout entry) ≤ length (state ws).

(** ** Concrete registries *)

Definition tile_layout : velox_layout :=
  {| identifier := 0; default_state := [Byte.x01; Byte.x02]; default_state_size := 2 |}.

Definition grid_layout : velox_layout :=
  {| identifier := 1; default_state := [Byte.x07; Byte.x07; Byte.x07; Byte.x07];
     default_state_size := 4 |}.

Definition tile_entry : velox_layout_entry := {| entry_layout := tile_layout |}.
Definition grid_entry : velox_layout_entry := {| entry_layout := grid_layout |}.

Definition make_workspace (t : velox_workspace_focus_type) (tiled : list window)
    (cursor : velox_link window) (floated : list window) : velox_workspace :=
  {| focus_type := t; tiled_windows := tiled; tiled_focus := cursor;
     floated_windows := floated; layouts := [tile_entry; grid_entry];
     layout := node grid_entry; state := [Byte.x09; Byte.x09; Byte.x09; Byte.x09] |}.

Definition make_velox (wss : list velox_workspace) : velox :=
  {| workspaces := wss; workspace := 0; active_workspace := 0;
     floating := λ _, false; trace := [] |}.

(** Section 8: tiled windows [W1, W2, W3] with the focus on [W2]; a second,
    empty workspace. *)
Definition three_tiled : velox :=
  make_velox [make_workspace TILE [1; 2; 3] (node 2) []; make_workspace TILE [] head []].

(** A sole tiled window and no floated one, with an empty second workspace. *)
Definition sole_tiled : velox :=
  make_velox [make_workspace TILE [1] (node 1) []; make_workspace TILE [] head []].

(** Two floated windows, no tiled one. *)
Definition two_floated : velox :=
  make_velox [make_workspace FLOAT [] head [1; 2]].

(** A workspace left in [FLOAT] mode with nothing floated. *)
Definition float_nothing : velox :=
  make_velox [make_workspace FLOAT [4] (node 4) []].

(** Tiled windows [1; 2] and floated windows [3; 4] in [FLOAT] mode, and a
    second workspace with one tiled window. *)
Definition mixed : velox :=
  make_velox [make_workspace FLOAT [1; 2] (node 1) [3; 4];
              make_workspace TILE [5] (node 5) []].


(** ** Helpers of the proofs *)

(** What a move of [w] to a list of workspace [t] does to the windows a
    workspace holds. *)
Definition moved (w : window) (t : nat) (s s' : velox) : Prop :=
  ∀ k ws', workspaces s' !! k = Some ws' →
    ∃ ws, workspaces s !! k = Some ws ∧ layouts ws' = layouts ws ∧
      (windows_of ws' = filter (λ x, x ≠ w) (windows_of ws) ∨
       (k = t ∧ windows_of ws' ≡ₚ w :: filter (λ x, x ≠ w) (windows_of ws))).

(** A check of [registry_ok] that computes. *)
Definition cursor_in_listb (ws : velox_workspace) : bool :=
  match tiled_windows ws with
  | [] => true
  | _ :: _ =>
      match tiled_focus ws with
      | node w => bool_decide (w ∈ tiled_windows ws)
      | head => false
      end
  end.

Definition registry_okb (s : velox) : bool :=
  bool_decide (workspace s < length (workspaces s)) &&
  bool_decide (NoDup (workspaces s ≫= windows_of)) &&
  forallb (λ ws, negb (list_is_empty (layouts ws)) && cursor_in_listb ws) (workspaces s).

(** What a command that works in place does: [workspace] stays, and the
    registry is left as it is or the workspace in use is updated, keeping its
    windows. *)
Definition updates (s s' : velox) : Prop :=
  workspace s' = workspace s ∧
  (workspaces s' = workspaces s ∨
   ∃ ws ws',
     workspaces s !! workspace s = Some ws ∧
     workspaces s' = <[workspace s := ws']> (workspaces s) ∧
     (∀ x, x ∈ windows_of ws' ↔ x ∈ windows_of ws) ∧
     (mode_ok ws → mode_ok ws')).

(** What a command does to the registry: nothing, an update in place, or a
    transfer from the workspace in use to another one that keeps the windows
    of the two. *)
Definition changes (s s' : velox) : Prop :=
  workspaces s' = workspaces s ∨
  updates s s' ∨
  (∃ t ws wt ws' wt',
     workspace s ≠ t ∧
     workspaces s !! workspace s = Some ws ∧ workspaces s !! t = Some wt ∧
     workspaces s' = <[t := wt']> (<[workspace s := ws']> (workspaces s)) ∧
     (∀ x, x ∈ windows_of ws' ∨ x ∈ windows_of wt' ↔ x ∈ windows_of ws ∨ x ∈ windows_of wt) ∧
     mode_ok ws' ∧ mode_ok wt').

(** ** Three sentences of the specification, as they are worded *)

(** Section 4.4, tiled mode: the window goes to the front of the target list;
    a target that was empty gets it as cursor; "if the source tiled list
    becomes empty as a result and its floated list is non-empty, flip the
    source's mode to FLOAT; otherwise set the source's tiled focus cursor to
    the previously computed successor"; a target without floated windows is
    forced to [TILE]. *)
Definition moves_as_worded (s : velox) (t : nat) : Prop :=
  ∀ ws wt w next_focus,
    workspaces s !! workspace s = Some ws → workspaces s !! t = Some wt →
    focus_type ws = TILE → tiled_focus ws = node w →
    list_next_link (tiled_windows ws) (node w) = Some next_focus →
    ∃ s' ws' wt',
      move_focus_to_workspace t s = Done s' ∧
      workspaces s' !! workspace s = Some ws' ∧ workspaces s' !! t = Some wt' ∧
      list_first_link (tiled_windows wt') = node w ∧
      (tiled_windows wt = [] → tiled_focus wt' = node w) ∧
      (if list_is_empty (tiled_windows ws') && negb (list_is_empty (floated_windows ws'))
       then focus_type ws' = FLOAT
       else tiled_focus ws' = next_focus) ∧
      (floated_windows wt' = [] → focus_type wt' = TILE).

(** Section 8: toggling to floating and back "restores floating == false and
    reinserts it into the tiled list", at the position "after the current
    focus": right after the window [c] the cursor denotes when the window
    comes back. *)
Definition retiles_as_worded (s : velox) : Prop :=
  ∀ ws w,
    workspaces s !! workspace s = Some ws →
    focus_type ws = TILE → tiled_focus ws = node w → w ∈ tiled_windows ws →
    ∃ s1 s2 ws1 ws2 c,
      toggle_floating s = Done s1 ∧ toggle_floating s1 = Done s2 ∧
      workspaces s1 !! workspace s = Some ws1 ∧
      workspaces s2 !! workspace s = Some ws2 ∧
      tiled_focus ws1 = node c ∧
      floating s2 w = false ∧ w ∈ tiled_windows ws2 ∧
      follows c w (tiled_windows ws2) = true.


(** * Proofs *)

(** ** Facts about list.h *)

Section list_h_facts.
Context {A : Type} `{EqDecision A}.
Implicit Types (a b x : A) (l : list A) (k p : velox_link A).

Lemma list_is_empty_true l : list_is_empty l = true ↔ l = [].
Proof. by destruct l. Qed.

Lemma list_is_empty_false l : list_is_empty l = false ↔ l ≠ [].
Proof. by destruct l. Qed.

Lemma list_first_link_node l : l ≠ [] → ∃ a, list_first_link l = node a ∧ a ∈ l.
Proof. destruct l as [|a l]; [done|]. exists a. split; [done|]. by left. Qed.

Lemma list_last_link_node l : l ≠ [] → ∃ a, list_last_link l = node a ∧ a ∈ l.
Proof.
  intros Hl. unfold list_last_link.
  destruct (last l) as [a|] eqn:Hlast.
  - exists a. split; [done|]. apply last_Some in Hlast as [l' ->].
    apply elem_of_app. right. by left.
  - by apply last_None in Hlast.
Qed.

Lemma list_last_link_snoc l a : list_last_link (l ++ [a]) = node a.
Proof. unfold list_last_link. by rewrite last_snoc. Qed.

Lemma link_next_split l1 l2 a :
  a ∉ l1 → link_next a (l1 ++ a :: l2) = Some (list_first_link l2).
Proof.
  induction l1 as [|x l1 IH]; simpl; intros Hin.
  - by rewrite decide_True.
  - apply not_elem_of_cons in Hin as [? ?]. rewrite decide_False by done. auto.
Qed.

Lemma link_prev_split l1 l2 a p :
  a ∉ l1 →
  link_prev a p (l1 ++ a :: l2) =
    Some (match last l1 with Some x => node x | None => p end).
Proof.
  revert p. induction l1 as [|x l1 IH]; simpl; intros p Hin.
  - by rewrite decide_True.
  - apply not_elem_of_cons in Hin as [? ?]. rewrite decide_False by done.
    rewrite IH by done. rewrite last_cons. by destruct (last l1).
Qed.

Lemma list_next_link_split l1 l2 a :
  a ∉ l1 →
  list_next_link (l1 ++ a :: l2) (node a) =
    Some (match l2 with b :: _ => node b | [] => list_first_link (l1 ++ [a]) end).
Proof.
  intros Hin. unfold list_next_link. rewrite link_next_split by done.
  destruct l2 as [|b l2]; simpl; [|done]. by destruct l1.
Qed.

Lemma list_prev_link_split l1 l2 a :
  a ∉ l1 →
  list_prev_link (l1 ++ a :: l2) (node a) =
    Some (match last l1 with Some b => node b | None => list_last_link (a :: l2) end).
Proof.
  intros Hin. unfold list_prev_link. rewrite link_prev_split by done.
  destruct (last l1) as [b|] eqn:Hlast; [done|].
  apply last_None in Hlast as ->. done.
Qed.

(** The neighbours of a node of the list are nodes of the list. *)
Lemma list_next_link_elem l a :
  a ∈ l → ∃ b, list_next_link l (node a) = Some (node b) ∧ b ∈ l.
Proof.
  intros (l1 & l2 & -> & Hin)%list_elem_of_split_l.
  rewrite list_next_link_split by done. destruct l2 as [|b l2].
  - destruct l1 as [|c l1]; simpl; eexists; (split; [done|]); set_solver.
  - exists b. split; [done|]. set_solver.
Qed.

Lemma list_prev_link_elem l a :
  a ∈ l → ∃ b, list_prev_link l (node a) = Some (node b) ∧ b ∈ l.
Proof.
  intros (l1 & l2 & -> & Hin)%list_elem_of_split_l.
  rewrite list_prev_link_split by done.
  destruct (last l1) as [b|] eqn:Hlast.
  - exists b. split; [done|]. apply last_Some in Hlast as [l' ->]. set_solver.
  - destruct (list_last_link_node (a :: l2)) as (b & Hb1 & Hb2); [done|].
    exists b. split; [by rewrite Hb1|]. apply elem_of_app. by right.
Qed.

(** A link outside the list has no neighbour in it. *)
Lemma list_next_link_Some_elem l a k :
  list_next_link l (node a) = Some k → a ∈ l.
Proof.
  unfold list_next_link. intros Hk.
  assert (is_Some (link_next a l)) as [r Hr] by (destruct (link_next a l); eauto; done).
  clear Hk. induction l as [|x l IH]; simpl in *; [done|].
  destruct (decide (x = a)) as [->|]; [by left|]. right. auto.
Qed.

Lemma filter_ne_id l a : a ∉ l → filter (λ x, x ≠ a) l = l.
Proof.
  induction l as [|x l IH]; [done|]. intros [? ?]%not_elem_of_cons.
  rewrite filter_cons_True by done. by rewrite IH.
Qed.

Lemma filter_ne_split l1 l2 a :
  a ∉ l1 → a ∉ l2 → filter (λ x, x ≠ a) (l1 ++ a :: l2) = l1 ++ l2.
Proof.
  intros. rewrite filter_app, filter_cons_False by naive_solver.
  by rewrite !filter_ne_id.
Qed.

(** In a list without repetition that holds more than [a], the successor of
    [a] is another node. *)
Lemma list_next_link_other l a b :
  NoDup l → list_next_link l (node a) = Some (node b) →
  filter (λ x, x ≠ a) l ≠ [] → b ≠ a ∧ b ∈ filter (λ x, x ≠ a) l.
Proof.
  intros Hnd Hnext Hrest.
  pose proof (list_next_link_Some_elem _ _ _ Hnext) as Ha.
  apply list_elem_of_split_l in Ha as (l1 & l2 & -> & Hin1).
  apply NoDup_app in Hnd as (_ & Hd & [Hin2 _]%NoDup_cons).
  rewrite list_next_link_split in Hnext by done.
  rewrite filter_ne_split in * by done.
  destruct l2 as [|c l2].
  - destruct l1 as [|c l1]; [done|]. simpl in Hnext. simplify_eq.
    split; [|by left]. intros ->. apply Hin1. by left.
  - simplify_eq. split; [|set_solver]. intros ->. apply Hin2. by left.
Qed.

Lemma swapped_involutive a b x : swapped a b (swapped a b x) = x.
Proof. unfold swapped. repeat case_decide; congruence. Qed.

Lemma swapped_inj a b : Inj (=) (=) (swapped a b).
Proof.
  intros x y Heq. rewrite <-(swapped_involutive a b x), Heq.
  apply swapped_involutive.
Qed.

Lemma swapped_other a b x : x ≠ a → x ≠ b → swapped a b x = x.
Proof. intros. unfold swapped. by rewrite !decide_False. Qed.

Lemma swapped_l a b : swapped a b a = b.
Proof. unfold swapped. by rewrite decide_True. Qed.

Lemma swapped_r a b : swapped a b b = a.
Proof. unfold swapped. case_decide; [done|]. by rewrite decide_True. Qed.

Lemma fmap_swapped_involutive a b l : swapped a b <$> (swapped a b <$> l) = l.
Proof.
  induction l as [|x l IH]; csimpl; [done|].
  by rewrite swapped_involutive, IH.
Qed.

Lemma fmap_swapped_id a b l : a ∉ l → b ∉ l → swapped a b <$> l = l.
Proof.
  induction l as [|x l IH]; csimpl; [done|].
  intros [? ?]%not_elem_of_cons [? ?]%not_elem_of_cons.
  by rewrite swapped_other, IH.
Qed.

Lemma elem_of_fmap_swapped a b l x : x ∈ swapped a b <$> l ↔ swapped a b x ∈ l.
Proof.
  rewrite <-(swapped_involutive a b x) at 1.
  apply (list_elem_of_fmap_inj (swapped a b) (Inj0 := swapped_inj a b)).
Qed.

(** After [link_swap] of a node with its successor, the predecessor of the
    node is its former successor. *)
Lemma list_prev_link_swapped l a b :
  NoDup l → list_next_link l (node a) = Some (node b) →
  list_prev_link (swapped a b <$> l) (node a) = Some (node b).
Proof.
  intros Hnd Hnext.
  pose proof (list_next_link_Some_elem _ _ _ Hnext) as Ha.
  apply list_elem_of_split_l in Ha as (l1 & l2 & -> & Hin1).
  apply NoDup_app in Hnd as (Hnd1 & Hd & [Hin2 Hnd2]%NoDup_cons).
  rewrite list_next_link_split in Hnext by done.
  destruct l2 as [|c l2].
  - destruct l1 as [|c l1]; simpl in Hnext; simplify_eq.
    + cbn. rewrite swapped_l. unfold list_prev_link. simpl. by rewrite decide_True.
    + apply NoDup_cons in Hnd1 as [Hb1 _].
      apply not_elem_of_cons in Hin1 as [Hne Hin1].
      rewrite fmap_app. simpl. rewrite swapped_r, swapped_l.
      rewrite fmap_swapped_id by done.
      unfold list_prev_link. simpl. rewrite decide_True by done.
      apply f_equal. rewrite app_comm_cons. apply list_last_link_snoc.
  - simplify_eq. apply NoDup_cons in Hnd2 as [Hb2 _].
    apply not_elem_of_cons in Hin2 as [Hne Hin2].
    assert (b ∉ l1) by (intros ?; eapply Hd; [done|]; set_solver).
    rewrite fmap_app, !fmap_cons, swapped_r, swapped_l.
    rewrite !fmap_swapped_id by done.
    replace (l1 ++ b :: a :: l2) with ((l1 ++ [b]) ++ a :: l2)
      by (by rewrite <-app_assoc).
    rewrite list_prev_link_split by set_solver. by rewrite last_snoc.
Qed.
End list_h_facts.

(** ** Reading and writing the registry *)

Lemma workspace_at_Done s index ws :
  workspaces s !! index = Some ws → workspace_at index s = Done ws.
Proof. unfold workspace_at. by intros ->. Qed.

Lemma workspace_at_lt s index :
  index < length (workspaces s) →
  ∃ ws, workspaces s !! index = Some ws ∧ workspace_at index s = Done ws.
Proof.
  intros [ws Hws]%lookup_lt_is_Some. exists ws. split; [done|].
  by apply workspace_at_Done.
Qed.

Lemma windows_of_unlink w ws :
  windows_of (unlink w ws) = filter (λ x, x ≠ w) (windows_of ws).
Proof. unfold windows_of. simpl. by rewrite filter_app. Qed.

Lemma windows_of_swap_links a b ws :
  windows_of (swap_links a b ws) = swapped a b <$> windows_of ws.
Proof. unfold windows_of. simpl. by rewrite fmap_app. Qed.

Lemma moved_link_move_after w r s :
  moved w (match r with tiled_list t | floated_list t => t end) s (link_move_after w r s).
Proof.
  intros k ws'. unfold link_move_after, link_move_before, modify.
  destruct r as [t|t]; simpl;
    rewrite list_lookup_alter, !list_lookup_fmap;
    destruct (workspaces s !! k) as [ws|] eqn:Hws;
    (case_decide as Hk; [subst k; rewrite Hws|]); simpl; intros ?; simplify_eq;
    exists ws; (split; [done|]); (split; [done|]);
    rewrite <-windows_of_unlink; auto; right; (split; [done|]);
    unfold windows_of; simpl; try done.
  by rewrite Permutation_middle.
Qed.

Lemma moved_link_move_before w r s :
  moved w (match r with tiled_list t | floated_list t => t end) s (link_move_before w r s).
Proof.
  intros k ws'. unfold link_move_after, link_move_before, modify.
  destruct r as [t|t]; simpl;
    rewrite list_lookup_alter, !list_lookup_fmap;
    destruct (workspaces s !! k) as [ws|] eqn:Hws;
    (case_decide as Hk; [subst k; rewrite Hws|]); simpl; intros ?; simplify_eq;
    exists ws; (split; [done|]); (split; [done|]);
    rewrite <-windows_of_unlink; auto; right; (split; [done|]);
    unfold windows_of; simpl.
  - rewrite <-app_assoc. simpl. by rewrite <-Permutation_middle.
  - by rewrite app_assoc, <-Permutation_cons_append.
Qed.

Lemma links_distinct_moved w t s s' :
  moved w t s s' → links_distinct s → links_distinct s'.
Proof.
  intros Hmoved [Hnd Hone].
  assert (Hin : ∀ k ws' x, workspaces s' !! k = Some ws' → x ∈ windows_of ws' →
    (x = w ∧ k = t) ∨
    (x ≠ w ∧ ∃ ws, workspaces s !! k = Some ws ∧ x ∈ windows_of ws)).
  { intros k ws' x (ws & Hws & _ & [Heq|[-> Heq]])%Hmoved; rewrite Heq.
    - rewrite list_elem_of_filter. naive_solver.
    - rewrite elem_of_cons, list_elem_of_filter. naive_solver. }
  split.
  - intros k ws' (ws & Hws & _ & [Heq|[-> Heq]])%Hmoved; rewrite Heq.
    + by eapply NoDup_filter, Hnd.
    + apply NoDup_cons. split; [|by eapply NoDup_filter, Hnd].
      rewrite list_elem_of_filter. naive_solver.
  - intros i j wi wj x Hi Hj Hxi Hxj.
    destruct (Hin _ _ _ Hi Hxi) as [[-> ->]|[? (ws1 & ? & ?)]],
      (Hin _ _ _ Hj Hxj) as [[? ?]|[? (ws2 & ? & ?)]]; try done.
    by eapply Hone.
Qed.

Lemma links_distinct_link_swap a b s :
  links_distinct s → links_distinct (link_swap a b s).
Proof.
  intros [Hnd Hone]. split.
  - intros k ws'. unfold link_swap. simpl. rewrite list_lookup_fmap.
    destruct (workspaces s !! k) as [ws|] eqn:Hws; simpl; intros [= <-].
    rewrite windows_of_swap_links.
    apply (NoDup_fmap_2 (swapped a b) (Inj0 := swapped_inj a b)). by eapply Hnd.
  - intros i j wi' wj' x. unfold link_swap. simpl. rewrite !list_lookup_fmap.
    destruct (workspaces s !! i) as [wi|] eqn:Hi; simpl; intros [= <-].
    destruct (workspaces s !! j) as [wj|] eqn:Hj; simpl; intros [= <-].
    rewrite !windows_of_swap_links, !elem_of_fmap_swapped. by eapply Hone.
Qed.

Lemma links_distinct_modify i f s :
  (∀ ws, windows_of (f ws) = windows_of ws) →
  links_distinct s → links_distinct (modify i f s).
Proof.
  intros Hf [Hnd Hone].
  assert (Hlook : ∀ k ws', workspaces (modify i f s) !! k = Some ws' →
    ∃ ws, workspaces s !! k = Some ws ∧ windows_of ws' = windows_of ws).
  { intros k ws'. unfold modify. simpl. rewrite list_lookup_alter.
    case_decide; [subst k|]; eauto.
    destruct (workspaces s !! i) as [ws|]; simpl; intros [= <-]. eauto. }
  split.
  - intros k ws' (ws & Hws & ->)%Hlook. by eapply Hnd.
  - intros k j wi wj x (ws1 & Hws1 & ->)%Hlook (ws2 & Hws2 & ->)%Hlook.
    by eapply Hone.
Qed.

Lemma well_linked_same s s' :
  workspaces s' = workspaces s → workspace s' = workspace s →
  well_linked s → well_linked s'.
Proof. unfold well_linked, links_distinct. intros -> ->. done. Qed.

Lemma well_linked_moved w t s s' :
  moved w t s s' → length (workspaces s') = length (workspaces s) →
  workspace s' = workspace s → well_linked s → well_linked s'.
Proof.
  intros Hmoved Hlen Hcur (Hlt & Hd & Hlay). split_and!.
  - by rewrite Hlen, Hcur.
  - by eapply links_distinct_moved.
  - intros k ws' (ws & Hws & -> & _)%Hmoved. by eapply Hlay.
Qed.

Lemma length_link_move_after w r s :
  length (workspaces (link_move_after w r s)) = length (workspaces s).
Proof.
  unfold link_move_after, link_move_before, modify.
  destruct r; simpl; by rewrite length_alter, length_fmap.
Qed.

Lemma length_link_move_before w r s :
  length (workspaces (link_move_before w r s)) = length (workspaces s).
Proof.
  unfold link_move_after, link_move_before, modify.
  destruct r; simpl; by rewrite length_alter, length_fmap.
Qed.

Lemma well_linked_link_move_after w r s :
  well_linked s → well_linked (link_move_after w r s).
Proof.
  eapply well_linked_moved;
    [apply moved_link_move_after|apply length_link_move_after|by destruct r].
Qed.

Lemma well_linked_link_move_before w r s :
  well_linked s → well_linked (link_move_before w r s).
Proof.
  eapply well_linked_moved;
    [apply moved_link_move_before|apply length_link_move_before|by destruct r].
Qed.

Lemma well_linked_link_swap a b s : well_linked s → well_linked (link_swap a b s).
Proof.
  intros (Hlt & Hd & Hlay). split_and!.
  - unfold link_swap. simpl. by rewrite length_fmap.
  - by apply links_distinct_link_swap.
  - intros k ws'. unfold link_swap. simpl. rewrite list_lookup_fmap.
    destruct (workspaces s !! k) as [ws|] eqn:Hws; simpl; intros [= <-].
    simpl. by eapply Hlay.
Qed.

Lemma well_linked_modify i f s :
  (∀ ws, windows_of (f ws) = windows_of ws) → (∀ ws, layouts (f ws) = layouts ws) →
  well_linked s → well_linked (modify i f s).
Proof.
  intros Hf Hg (Hlt & Hd & Hlay). split_and!.
  - unfold modify. simpl. by rewrite length_alter.
  - by apply links_distinct_modify.
  - intros k ws'. unfold modify. simpl. rewrite list_lookup_alter.
    case_decide; [subst k|]; eauto.
    destruct (workspaces s !! i) as [ws|] eqn:Hws; simpl; intros [= <-].
    rewrite Hg. by eapply Hlay.
Qed.

Lemma well_linked_with_workspace index s :
  index < length (workspaces s) → well_linked s → well_linked (with_workspace index s).
Proof. intros ? (? & ? & ?). by split_and!. Qed.

(** ** What distinct links say about one window *)

Lemma tiled_NoDup s i ws :
  links_distinct s → workspaces s !! i = Some ws → NoDup (tiled_windows ws).
Proof. intros [Hnd _] Hws%Hnd. by apply NoDup_app in Hws as (? & _ & _). Qed.

Lemma floated_not_tiled s i j wi wj w :
  links_distinct s → workspaces s !! i = Some wi → workspaces s !! j = Some wj →
  w ∈ floated_windows wi → w ∉ tiled_windows wj.
Proof.
  intros [Hnd Hone] Hi Hj Hw Hw'.
  assert (i = j) as <-.
  { eapply Hone; [done..| |]; apply elem_of_app; eauto. }
  simplify_eq. apply Hnd in Hi. apply NoDup_app in Hi as (_ & Hd & _).
  by eapply Hd.
Qed.

Lemma tiled_not_elsewhere s i j wi wj w :
  links_distinct s → workspaces s !! i = Some wi → workspaces s !! j = Some wj →
  w ∈ tiled_windows wi → i ≠ j → w ∉ windows_of wj.
Proof.
  intros [_ Hone] Hi Hj Hw Hne Hw'. apply Hne.
  eapply Hone; [done..| |done]. apply elem_of_app; eauto.
Qed.

Lemma tiled_not_floated s i ws w :
  links_distinct s → workspaces s !! i = Some ws →
  w ∈ tiled_windows ws → w ∉ floated_windows ws.
Proof.
  intros [Hnd _] Hws%Hnd Hw. apply NoDup_app in Hws as (_ & Hd & _). by apply Hd.
Qed.

Lemma unlink_id w ws : w ∉ windows_of ws → unlink w ws = ws.
Proof.
  intros [Ht Hf]%not_elem_of_app. unfold unlink.
  rewrite !filter_ne_id by done. by destruct ws.
Qed.

Lemma swap_links_id a b ws : a ∉ windows_of ws → b ∉ windows_of ws → swap_links a b ws = ws.
Proof.
  intros [? ?]%not_elem_of_app [? ?]%not_elem_of_app. unfold swap_links.
  rewrite !fmap_swapped_id by done. by destruct ws.
Qed.

Lemma cursor_in_list_eq ws ws' :
  tiled_windows ws' = tiled_windows ws → tiled_focus ws' = tiled_focus ws →
  cursor_in_list ws → cursor_in_list ws'.
Proof. unfold cursor_in_list. by intros -> ->. Qed.

(** ** Steps that keep the registry in order *)

Lemma registry_ok_same s s' :
  workspaces s' = workspaces s → workspace s' = workspace s →
  registry_ok s → registry_ok s'.
Proof.
  intros Hw Hc [Hl Hcur]. split; [by eapply well_linked_same|]. by rewrite Hw.
Qed.

Lemma registry_ok_with_workspace index s :
  index < length (workspaces s) → registry_ok s → registry_ok (with_workspace index s).
Proof. intros ? [Hl Hcur]. split; [by apply well_linked_with_workspace|done]. Qed.

Lemma registry_ok_focus_type i t s :
  registry_ok s → registry_ok (modify i (with_focus_type t) s).
Proof.
  intros [Hl Hcur]. split; [by apply well_linked_modify|].
  intros k ws'. unfold modify. simpl. rewrite list_lookup_alter.
  case_decide; [subst k|]; eauto.
  destruct (workspaces s !! i) as [ws|] eqn:Hws; simpl; intros [= <-]. simpl.
  by eapply Hcur.
Qed.

Lemma registry_ok_tiled_focus i ws k s :
  workspaces s !! i = Some ws →
  (tiled_windows ws ≠ [] → ∃ w, k = node w ∧ w ∈ tiled_windows ws) →
  registry_ok s → registry_ok (modify i (with_tiled_focus k) s).
Proof.
  intros Hws Hk [Hl Hcur]. split; [by apply well_linked_modify|].
  intros j ws'. unfold modify. simpl. rewrite list_lookup_alter.
  case_decide; [subst j|]; eauto.
  rewrite Hws. simpl. intros [= <-]. done.
Qed.

(** Moving a floated window to a floated list leaves every tiled list and
    every cursor alone. *)
Lemma registry_ok_move_floated i ws w s s' t :
  workspaces s !! i = Some ws → w ∈ floated_windows ws →
  s' = link_move_after w (floated_list t) s ∨ s' = link_move_before w (floated_list t) s →
  registry_ok s → registry_ok s'.
Proof.
  intros Hws Hw Hs' [Hl Hcur]. split.
  { destruct Hs' as [-> | ->];
      [by apply well_linked_link_move_after|by apply well_linked_link_move_before]. }
  intros k ws'.
  assert (∀ j wj, workspaces s !! j = Some wj → w ∉ tiled_windows wj) as Hout.
  { intros j wj Hwj. eapply (floated_not_tiled s i j ws wj w); [apply Hl|done..]. }
  assert (workspaces s' !! k = Some ws' →
    ∃ wk, workspaces s !! k = Some wk ∧ tiled_windows ws' = tiled_windows wk ∧
      tiled_focus ws' = tiled_focus wk) as Hk.
  { unfold link_move_after, link_move_before, modify in Hs'.
    destruct Hs' as [-> | ->]; simpl; rewrite list_lookup_alter, !list_lookup_fmap;
      destruct (workspaces s !! k) as [wk|] eqn:Hwk;
      (case_decide as Hk; [subst k; rewrite Hwk|]); simpl; intros ?; simplify_eq;
      exists wk; (split; [done|]); simpl; (split; [|done]);
      apply filter_ne_id; by eapply Hout. }
  intros (wk & Hwk & Ht & Hf)%Hk Hne. eapply cursor_in_list_eq; [done..|].
  eapply Hcur; [done|]. by rewrite <-Ht.
Qed.

Lemma registry_ok_link_swap i ws a b s :
  workspaces s !! i = Some ws → tiled_focus ws = node a →
  a ∈ tiled_windows ws → b ∈ tiled_windows ws →
  registry_ok s → registry_ok (link_swap a b s).
Proof.
  intros Hws Hfocus Ha Hb [Hl Hcur]. split; [by apply well_linked_link_swap|].
  intros k ws'. unfold link_swap. simpl. rewrite list_lookup_fmap.
  destruct (workspaces s !! k) as [wk|] eqn:Hwk; simpl; intros [= <-].
  destruct (decide (i = k)) as [<-|Hne].
  - simplify_eq. intros _. exists a. split; [done|]. simpl.
    apply elem_of_fmap_swapped. by rewrite swapped_l.
  - rewrite swap_links_id
      by (eapply (tiled_not_elsewhere s i k ws wk); [apply Hl|done..]).
    by eapply Hcur.
Qed.

Lemma not_elsewhere s i j wi wj w :
  links_distinct s → workspaces s !! i = Some wi → workspaces s !! j = Some wj →
  w ∈ windows_of wi → i ≠ j → w ∉ windows_of wj.
Proof. intros [_ Hone] Hi Hj Hw Hne Hw'. apply Hne. by eapply Hone. Qed.

(** ** Projections of the registry after a step *)

Lemma lookup_modify s i f k :
  workspaces (modify i f s) !! k =
    if decide (i = k) then f <$> workspaces s !! k else workspaces s !! k.
Proof. unfold modify. simpl. rewrite list_lookup_alter. by case_decide; subst. Qed.

Lemma lookup_link_move_after s w r k :
  workspaces (link_move_after w r s) !! k =
    (λ ws, match r with
           | tiled_list t =>
               if decide (t = k)
               then with_tiled_windows (w :: tiled_windows (unlink w ws)) (unlink w ws)
               else unlink w ws
           | floated_list t =>
               if decide (t = k)
               then with_floated_windows (w :: floated_windows (unlink w ws)) (unlink w ws)
               else unlink w ws
           end) <$> workspaces s !! k.
Proof.
  unfold link_move_after, modify. destruct r as [t|t]; simpl;
    rewrite list_lookup_alter, !list_lookup_fmap;
    case_decide; subst; by destruct (workspaces s !! k).
Qed.

Lemma lookup_link_move_before s w r k :
  workspaces (link_move_before w r s) !! k =
    (λ ws, match r with
           | tiled_list t =>
               if decide (t = k)
               then with_tiled_windows (tiled_windows (unlink w ws) ++ [w]) (unlink w ws)
               else unlink w ws
           | floated_list t =>
               if decide (t = k)
               then with_floated_windows (floated_windows (unlink w ws) ++ [w]) (unlink w ws)
               else unlink w ws
           end) <$> workspaces s !! k.
Proof.
  unfold link_move_before, modify. destruct r as [t|t]; simpl;
    rewrite list_lookup_alter, !list_lookup_fmap;
    case_decide; subst; by destruct (workspaces s !! k).
Qed.

Lemma lookup_link_swap s a b k :
  workspaces (link_swap a b s) !! k = swap_links a b <$> workspaces s !! k.
Proof. apply list_lookup_fmap. Qed.

Lemma workspaces_emit c s : workspaces (emit c s) = workspaces s.
Proof. done. Qed.
Lemma workspaces_with_floating w b s : workspaces (with_floating w b s) = workspaces s.
Proof. done. Qed.
Lemma workspaces_with_workspace i s : workspaces (with_workspace i s) = workspaces s.
Proof. done. Qed.
Lemma workspace_emit c s : workspace (emit c s) = workspace s.
Proof. done. Qed.
Lemma workspace_with_floating w b s : workspace (with_floating w b s) = workspace s.
Proof. done. Qed.
Lemma workspace_with_workspace i s : workspace (with_workspace i s) = i.
Proof. done. Qed.
Lemma workspace_modify i f s : workspace (modify i f s) = workspace s.
Proof. done. Qed.
Lemma workspace_link_move_after w r s : workspace (link_move_after w r s) = workspace s.
Proof. by destruct r. Qed.
Lemma workspace_link_move_before w r s : workspace (link_move_before w r s) = workspace s.
Proof. by destruct r. Qed.
Lemma workspace_link_swap a b s : workspace (link_swap a b s) = workspace s.
Proof. done. Qed.
Lemma length_modify i f s : length (workspaces (modify i f s)) = length (workspaces s).
Proof. apply length_alter. Qed.
Lemma length_link_swap a b s : length (workspaces (link_swap a b s)) = length (workspaces s).
Proof. apply length_fmap. Qed.

Lemma trace_emit c s : trace (emit c s) = trace s ++ [c].
Proof. done. Qed.
Lemma trace_modify i f s : trace (modify i f s) = trace s.
Proof. done. Qed.
Lemma trace_with_floating w b s : trace (with_floating w b s) = trace s.
Proof. done. Qed.
Lemma trace_link_move_after w r s : trace (link_move_after w r s) = trace s.
Proof. by destruct r. Qed.
Lemma trace_link_move_before w r s : trace (link_move_before w r s) = trace s.
Proof. by destruct r. Qed.
Lemma trace_link_swap a b s : trace (link_swap a b s) = trace s.
Proof. done. Qed.

Lemma floating_emit c s : floating (emit c s) = floating s.
Proof. done. Qed.
Lemma floating_modify i f s : floating (modify i f s) = floating s.
Proof. done. Qed.
Lemma floating_link_move_after w r s : floating (link_move_after w r s) = floating s.
Proof. by destruct r. Qed.

Create Rewrite HintDb registry.
Hint Rewrite workspaces_emit workspaces_with_floating workspaces_with_workspace
  workspace_emit workspace_with_floating workspace_with_workspace workspace_modify
  workspace_link_move_after workspace_link_move_before workspace_link_swap
  length_modify length_link_swap length_link_move_after length_link_move_before
  lookup_modify lookup_link_move_after lookup_link_move_before lookup_link_swap
  trace_emit trace_modify trace_with_floating trace_link_move_after
  trace_link_move_before trace_link_swap
  floating_emit floating_modify floating_link_move_after : registry.

(** Rewrites the lookups of the registry the context knows. *)
Ltac known_lookups :=
  repeat match goal with
    | H : workspaces ?s !! ?i = Some _ |- context [workspaces ?s !! ?i] => rewrite H
    end.

Ltac registry_simpl :=
  repeat (progress (unfold focus, hide_window, show_window, run_hooks, restack;
                    autorewrite with registry; known_lookups; simpl)).

(** ** [update_focus] and [arrange] *)

Lemma update_focus_Done s i ws :
  workspaces s !! i = Some ws →
  update_focus i s =
    Done (focus (match focus_type ws with
                 | TILE => if list_is_empty (tiled_windows ws) then NULL
                           else link_entry (tiled_focus ws)
                 | FLOAT => if list_is_empty (floated_windows ws) then NULL
                            else list_first (floated_windows ws)
                 end) s).
Proof.
  intros Hws. unfold update_focus. rewrite (workspace_at_Done _ _ _ Hws). simpl.
  destruct (focus_type ws); by destruct (list_is_empty _).
Qed.

Lemma arrange_Done s ws :
  workspaces s !! workspace s = Some ws → layouts ws ≠ [] →
  arrange s =
    Done (if list_is_empty (tiled_windows ws) then s
          else emit (LayoutArrange (layout ws) (tiled_windows ws) (state ws)) s).
Proof.
  intros Hws Hlay. unfold arrange. rewrite (workspace_at_Done _ _ _ Hws). simpl.
  destruct (list_is_empty (tiled_windows ws)); [done|].
  by apply list_is_empty_false in Hlay as ->.
Qed.

Lemma update_focus_ok s i :
  i < length (workspaces s) → registry_ok s →
  ∃ s', update_focus i s = Done s' ∧ registry_ok s' ∧
    workspaces s' = workspaces s ∧ workspace s' = workspace s ∧
    floating s' = floating s.
Proof.
  intros [ws Hws]%lookup_lt_is_Some Hok. rewrite (update_focus_Done _ _ _ Hws).
  eexists. split; [done|]. split; [|done]. by apply (registry_ok_same s).
Qed.

Lemma arrange_ok s :
  registry_ok s →
  ∃ s', arrange s = Done s' ∧ registry_ok s' ∧
    workspaces s' = workspaces s ∧ workspace s' = workspace s ∧
    floating s' = floating s.
Proof.
  intros Hok. destruct (ok_linked _ Hok) as (Hlt & _ & Hlay).
  apply lookup_lt_is_Some in Hlt as [ws Hws].
  rewrite (arrange_Done _ _ Hws) by eauto.
  eexists. split; [done|]. destruct (list_is_empty _); [done|].
  split; [|done]. by apply (registry_ok_same s).
Qed.

(** The tail of most commands: derive the input focus, then arrange. *)
Lemma focus_and_arrange_ok s (between : velox → velox) :
  (∀ s, workspaces (between s) = workspaces s ∧ workspace (between s) = workspace s ∧
        floating (between s) = floating s) →
  registry_ok s →
  ∃ s', (s ← update_focus (workspace s) s; arrange (between s)) = Done s' ∧
    registry_ok s' ∧ workspaces s' = workspaces s ∧ workspace s' = workspace s ∧
    floating s' = floating s.
Proof.
  intros Hbetween Hok.
  destruct (update_focus_ok s (workspace s)) as (s1 & -> & Hok1 & Hw1 & Hc1 & Hf1);
    [apply Hok|done|]. simpl.
  destruct (Hbetween s1) as (Hw2 & Hc2 & Hf2).
  destruct (arrange_ok (between s1)) as (s2 & -> & Hok2 & Hw3 & Hc3 & Hf3);
    [by apply (registry_ok_same s1)|].
  exists s2. split; [done|]. split; [done|]. split_and!; congruence.
Qed.

(** ** The commands keep the registry in order *)

Lemma list_is_trivial_false {A} (l : list A) : list_is_trivial l = false → l ≠ [].
Proof. by destruct l. Qed.

Lemma list_for_each_entry_calls l (body : window → velox → velox) s :
  (∀ w s, workspaces (body w s) = workspaces s ∧ workspace (body w s) = workspace s) →
  workspaces (list_for_each_entry l body s) = workspaces s ∧
  workspace (list_for_each_entry l body s) = workspace s.
Proof.
  intros Hbody. unfold list_for_each_entry. revert s.
  induction l as [|w l IH]; intros s; [done|].
  simpl. destruct (IH (body w s)) as [-> ->]. apply Hbody.
Qed.

(** Floating the window under the cursor, once the cursor has moved on to
    its successor. *)
Lemma registry_ok_float_focused i ws w x s :
  workspaces s !! i = Some ws → tiled_focus ws = node w →
  list_next_link (tiled_windows ws) (node w) = Some (node x) →
  registry_ok s →
  registry_ok (link_move_after w (floated_list i) (modify i (with_tiled_focus (node x)) s)).
Proof.
  intros Hws Hfocus Hnext [Hl Hcur].
  pose proof (list_next_link_Some_elem _ _ _ Hnext) as Hw.
  split; [by apply well_linked_link_move_after, well_linked_modify|].
  intros k ws'. rewrite lookup_link_move_after, lookup_modify.
  destruct (decide (i = k)) as [<-|Hne].
  - rewrite Hws. simpl. intros [= <-]. simpl. intros Hrest.
    destruct (list_next_link_other _ _ _ (tiled_NoDup _ _ _ (proj1 (proj2 Hl)) Hws) Hnext Hrest)
      as [? ?].
    by exists x.
  - destruct (workspaces s !! k) as [wk|] eqn:Hwk; simpl; intros [= <-].
    rewrite unlink_id
      by (eapply (tiled_not_elsewhere s i k ws wk); [apply Hl|done..]).
    by eapply Hcur.
Qed.

(** Tiling the first floated window and pointing the cursor at it. *)
Lemma registry_ok_tile_floated i ws w s :
  workspaces s !! i = Some ws → w ∈ floated_windows ws →
  registry_ok s →
  registry_ok (modify i (with_tiled_focus (node w)) (link_move_after w (tiled_list i) s)).
Proof.
  intros Hws Hw [Hl Hcur].
  split; [by apply well_linked_modify, well_linked_link_move_after|].
  intros k ws'. rewrite lookup_modify, lookup_link_move_after.
  destruct (decide (i = k)) as [<-|Hne].
  - rewrite Hws. simpl. intros [= <-]. simpl. intros _. exists w. simpl.
    split; [done|]. by left.
  - destruct (workspaces s !! k) as [wk|] eqn:Hwk; simpl; intros [= <-].
    rewrite unlink_id.
    + by eapply Hcur.
    + eapply (not_elsewhere s i k ws wk); [apply Hl|done|done| |done].
      apply elem_of_app. by right.
Qed.

Lemma registry_ok_emit c s : registry_ok s → registry_ok (emit c s).
Proof. by apply registry_ok_same. Qed.

Lemma registry_ok_with_floating w b s : registry_ok s → registry_ok (with_floating w b s).
Proof. by apply registry_ok_same. Qed.

Lemma set_workspace_ok index s :
  index < length (workspaces s) → registry_ok s →
  ∃ s', set_workspace index s = Done s' ∧ registry_ok s' ∧
    length (workspaces s') = length (workspaces s).
Proof.
  intros Hlt Hok. unfold set_workspace. rewrite decide_True by done.
  case_decide; [by eauto|].
  destruct (workspace_at_lt s index Hlt) as (target & Htarget & ->). simpl.
  set (s1 := list_for_each_entry _ _ (list_for_each_entry _ _ s)).
  assert (workspaces s1 = workspaces s ∧ workspace s1 = workspace s) as [Hw1 Hc1].
  { unfold s1.
    destruct (list_for_each_entry_calls (floated_windows target) show_window
      (list_for_each_entry (tiled_windows target) show_window s)) as [-> ->]; [done|].
    by apply list_for_each_entry_calls. }
  destruct (update_focus_ok s1 index) as (s2 & -> & Hok2 & Hw2 & Hc2 & _);
    [by rewrite Hw1|by apply (registry_ok_same s)|]. simpl.
  destruct (workspace_at_lt s2 (workspace s2)) as (current & Hcurrent & ->);
    [apply Hok2|]. simpl.
  set (s3 := list_for_each_entry _ _ (list_for_each_entry _ _ s2)).
  assert (workspaces s3 = workspaces s2 ∧ workspace s3 = workspace s2) as [Hw3 Hc3].
  { unfold s3.
    destruct (list_for_each_entry_calls (floated_windows current) hide_window
      (list_for_each_entry (tiled_windows current) hide_window s2)) as [-> ->]; [done|].
    by apply list_for_each_entry_calls. }
  assert (registry_ok (with_workspace index s3)) as Hok3.
  { apply registry_ok_with_workspace; [congruence|]. by apply (registry_ok_same s2). }
  destruct (workspace_at_lt (with_workspace index s3) index) as (ws & Hws & Hat).
  { rewrite workspaces_with_workspace. congruence. }
  rewrite Hat. simpl.
  destruct (focus_type ws).
  - destruct (arrange_ok _ Hok3) as (s4 & -> & Hok4 & Hw4 & Hc4 & _). simpl.
    eexists. split; [done|]. split; [by apply (registry_ok_same s4)|].
    unfold run_hooks. rewrite workspaces_emit, Hw4, workspaces_with_workspace. congruence.
  - simpl. eexists. split; [done|].
    split; [by apply (registry_ok_same (with_workspace index s3))|].
    unfold run_hooks. rewrite workspaces_emit, workspaces_with_workspace. congruence.
Qed.

Lemma set_focus_type_ok t s :
  registry_ok s →
  ∃ s', set_focus_type t s = Done s' ∧ registry_ok s' ∧
    length (workspaces s') = length (workspaces s).
Proof.
  intros Hok. unfold set_focus_type.
  destruct (workspace_at_lt s (workspace s)) as (ws & Hws & ->); [apply Hok|]. simpl.
  case_decide; [by eauto|].
  destruct t; destruct (negb _); eauto;
    (eexists; split; [done|]; split;
      [by apply registry_ok_emit, registry_ok_focus_type
      |unfold focus; by autorewrite with registry]).
Qed.

Lemma focus_next_ok s :
  registry_ok s →
  ∃ s', focus_next s = Done s' ∧ registry_ok s' ∧
    length (workspaces s') = length (workspaces s).
Proof.
  intros Hok. unfold focus_next.
  destruct (workspace_at_lt s (workspace s)) as (ws & Hws & ->); [apply Hok|]. simpl.
  destruct (focus_type ws).
  - destruct (list_is_trivial (tiled_windows ws)) eqn:Htriv; [by eauto|].
    apply list_is_trivial_false in Htriv.
    destruct (ok_cursor _ Hok _ _ Hws Htriv) as (w & Hfocus & Hw).
    destruct (list_next_link_elem _ _ Hw) as (x & Hnext & Hx).
    rewrite Hfocus, Hnext. simpl. eexists. split; [done|]. split.
    + apply registry_ok_emit, (registry_ok_tiled_focus _ ws); eauto.
    + unfold focus. by autorewrite with registry.
  - destruct (list_is_trivial (floated_windows ws)) eqn:Htriv; [by eauto|].
    apply list_is_trivial_false in Htriv.
    destruct (list_last_link_node _ Htriv) as (w & -> & Hw). simpl.
    eexists. split; [done|]. split.
    + apply registry_ok_emit. eapply (registry_ok_move_floated _ ws w s); eauto.
    + unfold focus, restack. by autorewrite with registry.
Qed.

Lemma focus_previous_ok s :
  registry_ok s →
  ∃ s', focus_previous s = Done s' ∧ registry_ok s' ∧
    length (workspaces s') = length (workspaces s).
Proof.
  intros Hok. unfold focus_previous.
  destruct (workspace_at_lt s (workspace s)) as (ws & Hws & ->); [apply Hok|]. simpl.
  destruct (focus_type ws).
  - destruct (list_is_trivial (tiled_windows ws)) eqn:Htriv; [by eauto|].
    apply list_is_trivial_false in Htriv.
    destruct (ok_cursor _ Hok _ _ Hws Htriv) as (w & Hfocus & Hw).
    destruct (list_prev_link_elem _ _ Hw) as (x & Hprev & Hx).
    rewrite Hfocus, Hprev. simpl. eexists. split; [done|]. split.
    + apply registry_ok_emit, (registry_ok_tiled_focus _ ws); eauto.
    + unfold focus. by autorewrite with registry.
  - destruct (list_is_trivial (floated_windows ws)) eqn:Htriv; [by eauto|].
    apply list_is_trivial_false in Htriv.
    destruct (list_first_link_node _ Htriv) as (w & -> & Hw). simpl.
    eexists. split; [done|]. split.
    + apply registry_ok_emit. eapply (registry_ok_move_floated _ ws w s); eauto.
    + unfold focus, restack. by autorewrite with registry.
Qed.

Lemma move_next_ok s :
  registry_ok s →
  ∃ s', move_next s = Done s' ∧ registry_ok s' ∧
    length (workspaces s') = length (workspaces s).
Proof.
  intros Hok. unfold move_next.
  destruct (workspace_at_lt s (workspace s)) as (ws & Hws & ->); [apply Hok|]. simpl.
  destruct (focus_type ws); [|by eauto].
  destruct (list_is_trivial (tiled_windows ws)) eqn:Htriv; [by eauto|].
  apply list_is_trivial_false in Htriv.
  destruct (ok_cursor _ Hok _ _ Hws Htriv) as (w & Hfocus & Hw).
  destruct (list_next_link_elem _ _ Hw) as (x & Hnext & Hx).
  rewrite Hfocus, Hnext. simpl.
  destruct (arrange_ok (link_swap w x s)) as (s' & -> & Hok' & Hw' & _);
    [by eapply registry_ok_link_swap|].
  exists s'. split; [done|]. split; [done|]. rewrite Hw'. apply length_link_swap.
Qed.

Lemma move_previous_ok s :
  registry_ok s →
  ∃ s', move_previous s = Done s' ∧ registry_ok s' ∧
    length (workspaces s') = length (workspaces s).
Proof.
  intros Hok. unfold move_previous.
  destruct (workspace_at_lt s (workspace s)) as (ws & Hws & ->); [apply Hok|]. simpl.
  destruct (focus_type ws); [|by eauto].
  destruct (list_is_trivial (tiled_windows ws)) eqn:Htriv; [by eauto|].
  apply list_is_trivial_false in Htriv.
  destruct (ok_cursor _ Hok _ _ Hws Htriv) as (w & Hfocus & Hw).
  destruct (list_prev_link_elem _ _ Hw) as (x & Hprev & Hx).
  rewrite Hfocus, Hprev. simpl.
  destruct (arrange_ok (link_swap w x s)) as (s' & -> & Hok' & Hw' & _);
    [by eapply registry_ok_link_swap|].
  exists s'. split; [done|]. split; [done|]. rewrite Hw'. apply length_link_swap.
Qed.

(** [toggle_floating] in tiled mode: the focused window leaves the tiled list
    for the front of the floated list, and the cursor moves on to its
    successor. *)
Lemma toggle_floating_tiled s ws w x :
  registry_ok s → workspaces s !! workspace s = Some ws →
  focus_type ws = TILE → tiled_focus ws = node w →
  list_next_link (tiled_windows ws) (node w) = Some (node x) →
  ∃ s' ws',
    toggle_floating s = Done s' ∧ registry_ok s' ∧
    length (workspaces s') = length (workspaces s) ∧ workspace s' = workspace s ∧
    workspaces s' !! workspace s = Some ws' ∧
    focus_type ws' = FLOAT ∧
    tiled_windows ws' = filter (λ y, y ≠ w) (tiled_windows ws) ∧
    tiled_focus ws' = node x ∧
    floated_windows ws' = w :: floated_windows ws ∧
    floating s' w = true.
Proof.
  intros Hok Hws Hft Hfocus Hnext.
  pose proof (list_next_link_Some_elem _ _ _ Hnext) as Hw.
  pose proof (ok_linked _ Hok) as (_ & Hd & _).
  unfold toggle_floating. rewrite (workspace_at_Done _ _ _ Hws). simpl. rewrite Hft.
  assert (list_is_empty (tiled_windows ws) = false) as ->
    by (by apply list_is_empty_false, elem_of_not_nil with w).
  simpl. rewrite Hfocus, Hnext. simpl.
  set (s1 := modify _ (with_focus_type FLOAT) _).
  assert (registry_ok s1) as Hok1.
  { by apply registry_ok_focus_type, registry_ok_with_floating,
      (registry_ok_float_focused _ ws). }
  destruct (focus_and_arrange_ok s1 restack) as (s' & Hrun & Hok' & Hw' & Hc' & Hf');
    [done|done|].
  change (workspace s) with (workspace s1). rewrite Hrun.
  exists s'. eexists. split; [done|]. split; [done|]. rewrite Hw', Hc', Hf'.
  split; [unfold s1; by autorewrite with registry|]. split; [done|].
  split.
  { unfold s1. registry_simpl. rewrite !decide_True by done. reflexivity. }
  simpl. rewrite (filter_ne_id (floated_windows ws)) by by eapply tiled_not_floated.
  split_and!; try done.
  all: unfold s1, with_floating; simpl; by rewrite decide_True.
Qed.

(** [toggle_floating] in floating mode: the first floated window is linked in
    at the front of the tiled list and becomes the cursor. *)
Lemma toggle_floating_floated s ws w l :
  registry_ok s → workspaces s !! workspace s = Some ws →
  focus_type ws = FLOAT → floated_windows ws = w :: l →
  ∃ s' ws',
    toggle_floating s = Done s' ∧ registry_ok s' ∧
    length (workspaces s') = length (workspaces s) ∧ workspace s' = workspace s ∧
    workspaces s' !! workspace s = Some ws' ∧
    focus_type ws' = TILE ∧
    tiled_windows ws' = w :: tiled_windows ws ∧
    tiled_focus ws' = node w ∧
    floated_windows ws' = l ∧
    floating s' w = false.
Proof.
  intros Hok Hws Hft Hfloated.
  pose proof (ok_linked _ Hok) as (_ & Hd & _).
  assert (w ∈ floated_windows ws) as Hw by (rewrite Hfloated; by left).
  unfold toggle_floating. rewrite (workspace_at_Done _ _ _ Hws). simpl.
  rewrite Hft, Hfloated. simpl.
  set (s1 := modify _ (with_focus_type TILE) _).
  assert (registry_ok s1) as Hok1.
  { by apply registry_ok_focus_type, registry_ok_with_floating,
      (registry_ok_tile_floated _ ws). }
  destruct (focus_and_arrange_ok s1 restack) as (s' & Hrun & Hok' & Hw' & Hc' & Hf');
    [done|done|].
  change (workspace s) with (workspace s1). rewrite Hrun.
  exists s'. eexists. split; [done|]. split; [done|]. rewrite Hw', Hc', Hf'.
  split; [unfold s1; by autorewrite with registry|]. split; [done|].
  split.
  { unfold s1. registry_simpl. rewrite !decide_True by done. reflexivity. }
  simpl.
  rewrite (filter_ne_id (tiled_windows ws))
    by by eapply (floated_not_tiled s (workspace s) (workspace s) ws ws).
  pose proof (proj1 Hd _ _ Hws) as Hnd. apply NoDup_app in Hnd as (_ & _ & Hnd).
  rewrite Hfloated in *. apply NoDup_cons in Hnd as [Hnotin _].
  rewrite filter_cons_False, filter_ne_id by naive_solver.
  split_and!; try done.
  all: unfold s1, with_floating; simpl; by rewrite decide_True.
Qed.

Lemma toggle_floating_ok s :
  registry_ok s →
  ∃ s', toggle_floating s = Done s' ∧ registry_ok s' ∧
    length (workspaces s') = length (workspaces s).
Proof.
  intros Hok.
  destruct (workspace_at_lt s (workspace s)) as (ws & Hws & Hat); [apply Hok|].
  destruct (focus_type ws) eqn:Hft.
  - destruct (tiled_windows ws) as [|y l] eqn:Htiled.
    { unfold toggle_floating. rewrite Hat. simpl. rewrite Hft, Htiled. by eauto. }
    destruct (ok_cursor _ Hok _ _ Hws) as (w & Hfocus & Hw); [by rewrite Htiled|].
    destruct (list_next_link_elem _ _ Hw) as (x & Hnext & _).
    destruct (toggle_floating_tiled s ws w x) as (s' & _ & ? & ? & ? & _); eauto.
  - destruct (floated_windows ws) as [|w l] eqn:Hfloated.
    { unfold toggle_floating. rewrite Hat. simpl. rewrite Hft, Hfloated. by eauto. }
    destruct (toggle_floating_floated s ws w l) as (s' & _ & ? & ? & ? & _); eauto.
Qed.

(** ** [move_focus_to_workspace] keeps the registry in order *)

Lemma registry_ok_source_focus i ws k s :
  well_linked s →
  (∀ j wj, j ≠ i → workspaces s !! j = Some wj →
     tiled_windows wj ≠ [] → cursor_in_list wj) →
  workspaces s !! i = Some ws →
  (tiled_windows ws ≠ [] → ∃ w, k = node w ∧ w ∈ tiled_windows ws) →
  registry_ok (modify i (with_tiled_focus k) s).
Proof.
  intros Hl Hcur Hws Hk. split; [by apply well_linked_modify|].
  intros j ws'. rewrite lookup_modify. case_decide as Hj; [subst j|by eauto].
  rewrite Hws. simpl. intros [= <-]. done.
Qed.

(** The first half of [move_focus_to_workspace] in tiled mode: the focused
    window is linked in at the front of the target list, and the cursor of a
    target that was empty is set to it.  The cursor of the source is still to
    be assigned. *)
Lemma relocate_focused s t ws wt w :
  registry_ok s →
  workspaces s !! workspace s = Some ws → workspaces s !! t = Some wt →
  tiled_focus ws = node w → w ∈ tiled_windows ws →
  ∃ s1 src tgt,
    (if match filter (λ y, y ≠ w) (tiled_windows wt) with [] => true | _ :: _ => false end
     then modify t (with_tiled_focus (node w)) (link_move_after w (tiled_list t) s)
     else link_move_after w (tiled_list t) s) = s1 ∧
    well_linked s1 ∧ workspace s1 = workspace s ∧
    length (workspaces s1) = length (workspaces s) ∧ trace s1 = trace s ∧
    workspaces s1 !! workspace s = Some src ∧ workspaces s1 !! t = Some tgt ∧
    (∀ k wk, k ≠ workspace s → workspaces s1 !! k = Some wk →
       tiled_windows wk ≠ [] → cursor_in_list wk) ∧
    tiled_windows tgt = w :: filter (λ y, y ≠ w) (tiled_windows wt) ∧
    (tiled_windows wt = [] → tiled_focus tgt = node w) ∧
    floated_windows tgt = floated_windows wt ∧ focus_type tgt = focus_type wt ∧
    (workspace s ≠ t → tiled_windows src = filter (λ y, y ≠ w) (tiled_windows ws)) ∧
    floated_windows src = floated_windows ws ∧ focus_type src = focus_type ws.
Proof.
  intros [Hl Hcur] Hws Hwt Hfocus Hw.
  pose proof Hl as (Hlt & Hd & Hlay).
  pose proof (filter_ne_id _ _ (tiled_not_floated _ _ _ _ Hd Hws Hw)) as Hflo.
  assert (∀ k wk, k ≠ workspace s → workspaces s !! k = Some wk → unlink w wk = wk) as Hout.
  { intros k wk Hk Hwk. apply unlink_id.
    eapply (tiled_not_elsewhere s (workspace s) k ws wk); done. }
  set (s0 := link_move_after w (tiled_list t) s).
  assert (well_linked s0) as Hl0 by by apply well_linked_link_move_after.
  assert (∃ src tgt, workspaces s0 !! workspace s = Some src ∧ workspaces s0 !! t = Some tgt ∧
    tiled_windows tgt = w :: filter (λ y, y ≠ w) (tiled_windows wt) ∧
    floated_windows tgt = floated_windows wt ∧ focus_type tgt = focus_type wt ∧
    tiled_focus tgt = tiled_focus wt ∧
    (workspace s ≠ t → tiled_windows src = filter (λ y, y ≠ w) (tiled_windows ws)) ∧
    floated_windows src = floated_windows ws ∧ focus_type src = focus_type ws)
    as (src & tgt & Hsrc & Htgt & Ht1 & Ht2 & Ht3 & Ht4 & Hs1 & Hs2 & Hs3).
  { unfold s0. rewrite !lookup_link_move_after, Hws, Hwt. simpl.
    destruct (decide (workspace s = t)) as [<-|Hne].
    - simplify_eq. rewrite decide_True by done. eexists _, _.
      split; [reflexivity|]. split; [reflexivity|]. simpl. by rewrite Hflo.
    - rewrite (decide_True (P:=t = t)), (decide_False (P:=t = workspace s)) by done.
      eexists _, _.
      split; [reflexivity|]. split; [reflexivity|]. simpl. rewrite Hflo.
      pose proof (f_equal floated_windows (Hout t wt ltac:(done) Hwt)) as Hf.
      simpl in Hf. by rewrite Hf. }
  assert (∀ k wk, k ≠ workspace s → k ≠ t → workspaces s0 !! k = Some wk →
    tiled_windows wk ≠ [] → cursor_in_list wk) as Hothers.
  { intros k wk Hk Hkt. unfold s0. rewrite lookup_link_move_after.
    destruct (workspaces s !! k) as [wk0|] eqn:Hwk0; simpl; [|done].
    rewrite decide_False by done. intros [= <-].
    rewrite (Hout k wk0) by done. by eapply Hcur. }
  destruct (filter (λ y, y ≠ w) (tiled_windows wt)) as [|y rest] eqn:Hrest.
  - assert (∃ src', workspaces (modify t (with_tiled_focus (node w)) s0) !! workspace s
        = Some src' ∧ tiled_windows src' = tiled_windows src ∧
        floated_windows src' = floated_windows src ∧ focus_type src' = focus_type src)
      as (src' & Hsrc' & Hs1' & Hs2' & Hs3').
    { rewrite lookup_modify, Hsrc. case_decide; eexists; (split; [reflexivity|done]). }
    exists (modify t (with_tiled_focus (node w)) s0), src', (with_tiled_focus (node w) tgt).
    split; [done|]. split; [by apply well_linked_modify|].
    split; [done|].
    split; [rewrite length_modify; apply length_link_move_after|].
    split; [done|]. split; [done|].
    split; [by rewrite lookup_modify, Htgt, decide_True by done|].
    split.
    { intros k wk Hk. rewrite lookup_modify. case_decide as Hkt.
      - subst k. rewrite Htgt. simpl. intros [= <-] _. exists w. simpl.
        split; [done|]. rewrite Ht1. by left.
      - by apply Hothers. }
    simpl. split_and!; try done; try congruence.
    intros Hne. rewrite Hs1'. by apply Hs1.
  - eexists _, _, _. split; [done|]. split; [done|].
    split; [done|]. split; [apply length_link_move_after|].
    split; [done|]. fold s0. split; [done|]. split; [done|].
    split.
    { intros k wk Hk Hwk. destruct (decide (k = t)) as [->|Hkt]; [|by eapply Hothers].
      simplify_eq. intros _.
      assert (tiled_windows wt ≠ []) as Hne.
      { intros Hnil. by rewrite Hnil in Hrest. }
      destruct (Hcur _ _ Hwt Hne) as (c & Hc & Hcin).
      exists c. split; [congruence|]. rewrite Ht1. right. rewrite <-Hrest.
      apply list_elem_of_filter. split; [|done]. intros ->.
      eapply (tiled_not_elsewhere s (workspace s) t ws wt); [done..|].
      apply elem_of_app. by left. }
    split_and!; try done. intros Hnil. by rewrite Hnil in Hrest.
Qed.

(** The second half of [move_focus_to_workspace], shared by both modes: the
    input focus is derived from the source, the moved window is hidden, the
    source is arranged, and the focus type of the target is forced when the
    list [other] of the other kind is empty there. *)
Lemma move_focus_finish s i t w src tgt
    (other : velox_workspace → list window) (forced : velox_workspace_focus_type) :
  registry_ok s → workspace s = i →
  workspaces s !! i = Some src → workspaces s !! t = Some tgt →
  ∃ s' ws' wt' cs,
    (s ← update_focus i s;
     s ← arrange (hide_window w s);
     target ← workspace_at t s;
     if list_is_empty (other target)
     then Done (modify t (with_focus_type forced) s)
     else Done s) = Done s' ∧
    registry_ok s' ∧ length (workspaces s') = length (workspaces s) ∧
    workspace s' = i ∧
    trace s' =
      trace s ++
        Focus (match focus_type src with
               | TILE => if list_is_empty (tiled_windows src) then NULL
                         else link_entry (tiled_focus src)
               | FLOAT => if list_is_empty (floated_windows src) then NULL
                          else list_first (floated_windows src)
               end) :: HideWindow w :: cs ∧
    workspaces s' !! i = Some ws' ∧ workspaces s' !! t = Some wt' ∧
    tiled_windows ws' = tiled_windows src ∧ tiled_focus ws' = tiled_focus src ∧
    floated_windows ws' = floated_windows src ∧
    tiled_windows wt' = tiled_windows tgt ∧ tiled_focus wt' = tiled_focus tgt ∧
    floated_windows wt' = floated_windows tgt ∧
    (other tgt = [] → focus_type wt' = forced) ∧
    (i ≠ t → focus_type ws' = focus_type src).
Proof.
  intros Hok <- Hsrc Htgt.
  rewrite (update_focus_Done _ _ _ Hsrc). simpl.
  erewrite arrange_Done; [|exact Hsrc|by eapply Hok]. simpl.
  set (p := match focus_type src with TILE => _ | FLOAT => _ end).
  set (s2 := if list_is_empty (tiled_windows src) then _ else _).
  assert (workspaces s2 = workspaces s ∧ workspace s2 = workspace s ∧
    ∃ cs, trace s2 = trace s ++ Focus p :: HideWindow w :: cs) as (Hw2 & Hc2 & cs & Htr2).
  { unfold s2. destruct (list_is_empty (tiled_windows src)).
    - split; [done|]. split; [done|]. exists []. unfold hide_window, focus.
      autorewrite with registry. by rewrite <-app_assoc.
    - split; [done|]. split; [done|]. eexists [_]. unfold hide_window, focus.
      autorewrite with registry. by rewrite <-!app_assoc. }
  assert (registry_ok s2) as Hok2 by by apply (registry_ok_same s).
  clearbody s2.
  rewrite (workspace_at_Done s2 t tgt) by by rewrite Hw2. simpl.
  destruct (list_is_empty (other tgt)) eqn:Hother.
  - assert (∃ ws', workspaces (modify t (with_focus_type forced) s2) !! workspace s
        = Some ws' ∧ tiled_windows ws' = tiled_windows src ∧
        tiled_focus ws' = tiled_focus src ∧ floated_windows ws' = floated_windows src ∧
        (workspace s ≠ t → focus_type ws' = focus_type src))
      as (ws' & Hws' & ? & ? & ? & ?).
    { rewrite lookup_modify, Hw2, Hsrc.
      case_decide; eexists; (split; [reflexivity|done]). }
    exists (modify t (with_focus_type forced) s2), ws', (with_focus_type forced tgt), cs.
    split; [done|]. split; [by apply registry_ok_focus_type|].
    split; [by rewrite length_modify, Hw2|]. split; [done|]. split; [done|].
    split; [done|]. split; [by rewrite lookup_modify, decide_True, Hw2, Htgt by done|].
    by split_and!.
  - exists s2, src, tgt, cs. rewrite Hw2. split_and!; try done.
    intros Hnil. by rewrite Hnil in Hother.
Qed.

Lemma move_focus_to_workspace_tiled s t ws wt w x :
  registry_ok s →
  workspaces s !! workspace s = Some ws → workspaces s !! t = Some wt →
  focus_type ws = TILE → tiled_focus ws = node w →
  list_next_link (tiled_windows ws) (node w) = Some (node x) →
  ∃ s' ws' wt' p cs,
    move_focus_to_workspace t s = Done s' ∧ registry_ok s' ∧
    length (workspaces s') = length (workspaces s) ∧ workspace s' = workspace s ∧
    workspaces s' !! workspace s = Some ws' ∧ workspaces s' !! t = Some wt' ∧
    tiled_windows wt' = w :: filter (λ y, y ≠ w) (tiled_windows wt) ∧
    (tiled_windows wt = [] → tiled_focus wt' = node w) ∧
    (floated_windows wt = [] → focus_type wt' = TILE) ∧
    (workspace s ≠ t → tiled_windows ws' = filter (λ y, y ≠ w) (tiled_windows ws)) ∧
    tiled_focus ws' = (if list_is_empty (tiled_windows ws') then head else node x) ∧
    (tiled_windows ws' = [] → floated_windows ws ≠ [] → focus_type ws' = FLOAT) ∧
    trace s' = trace s ++ Focus p :: HideWindow w :: cs ∧
    (tiled_windows ws' ≠ [] → p = link_entry (node x)).
Proof.
  intros Hok Hws Hwt Hft Hfocus Hnext.
  pose proof (list_next_link_Some_elem _ _ _ Hnext) as Hw.
  pose proof (ok_linked _ Hok) as (Hlt & Hd & Hlay).
  pose proof (tiled_NoDup _ _ _ Hd Hws) as Hnd.
  unfold move_focus_to_workspace. rewrite (workspace_at_Done _ _ _ Hws). simpl.
  rewrite Hft.
  assert (list_is_empty (tiled_windows ws) = false) as ->
    by (by apply list_is_empty_false, elem_of_not_nil with w).
  rewrite Hfocus. simpl. rewrite Hnext. simpl.
  rewrite (workspace_at_Done _ _ _ Hwt). simpl.
  rewrite (workspace_at_Done (link_move_after w (tiled_list t) s) t
    (with_tiled_windows (w :: tiled_windows (unlink w wt)) (unlink w wt)))
    by (rewrite lookup_link_move_after, Hwt; simpl; by rewrite decide_True).
  simpl.
  destruct (relocate_focused s t ws wt w Hok Hws Hwt Hfocus Hw)
    as (s1 & src & tgt & -> & Hl1 & Hc1 & Hlen1 & Htr1 & Hsrc & Htgt & Hcur1 &
        Ht1 & Ht2 & Ht3 & Ht4 & Hs1 & Hs2 & Hs3).
  rewrite Hc1, (workspace_at_Done _ _ _ Hsrc). simpl.
  assert (workspace s = t → src = tgt) as Hsame by (intros <-; congruence).
  assert (tiled_windows src ≠ [] → x ∈ tiled_windows src) as Hx.
  { destruct (decide (workspace s = t)) as [Heq|Hne].
    - intros _. rewrite (Hsame Heq), Ht1. subst t. simplify_eq.
      destruct (decide (x = w)) as [->|?]; [by left|right].
      apply list_elem_of_filter. split; [done|].
      by destruct (list_next_link_elem _ _ Hw) as (? & ? & ?); simplify_eq.
    - rewrite (Hs1 Hne). intros Hrest.
      by destruct (list_next_link_other _ _ _ Hnd Hnext Hrest). }
  set (flip := list_is_empty (tiled_windows src) && negb (list_is_empty (floated_windows src))).
  set (s3 := if flip then _ else s1).
  assert (∃ src3, well_linked s3 ∧ workspace s3 = workspace s ∧
    length (workspaces s3) = length (workspaces s) ∧ trace s3 = trace s ∧
    (∀ k, k ≠ workspace s → workspaces s3 !! k = workspaces s1 !! k) ∧
    workspaces s3 !! workspace s = Some src3 ∧
    tiled_windows src3 = tiled_windows src ∧ floated_windows src3 = floated_windows src ∧
    focus_type src3 = (if flip then FLOAT else TILE))
    as (src3 & Hl3 & Hc3 & Hlen3 & Htr3 & Hk3 & Hsrc3 & Hs31 & Hs32 & Hs33).
  { unfold s3. destruct flip.
    - exists (with_focus_type FLOAT src). split; [by apply well_linked_modify|].
      split; [done|]. split; [by rewrite length_modify|]. split; [done|].
      split; [intros k Hk; by rewrite lookup_modify, decide_False|].
      split; [by rewrite lookup_modify, decide_True, Hsrc|done].
    - exists src. split_and!; try done. congruence. }
  clearbody s3. simpl.
  set (next_focus := if list_is_empty (tiled_windows src) then head else node x).
  rewrite Hc3.
  set (s4 := modify (workspace s) (with_tiled_focus next_focus) s3).
  assert (registry_ok s4) as Hok4.
  { apply (registry_ok_source_focus _ src3); [done| |done|].
    - intros k wk Hk. rewrite (Hk3 k Hk). by apply Hcur1.
    - rewrite Hs31. intros Hne. exists x. split; [|by apply Hx].
      unfold next_focus. by apply list_is_empty_false in Hne as ->. }
  assert (workspaces s4 !! workspace s = Some (with_tiled_focus next_focus src3)) as Hsrc4.
  { unfold s4. by rewrite lookup_modify, decide_True, Hsrc3. }
  assert (∃ tgt4, workspaces s4 !! t = Some tgt4 ∧
    tiled_windows tgt4 = tiled_windows tgt ∧ floated_windows tgt4 = floated_windows tgt ∧
    (workspace s ≠ t → tiled_focus tgt4 = tiled_focus tgt))
    as (tgt4 & Htgt4 & Ht41 & Ht42 & Ht43).
  { unfold s4. rewrite lookup_modify. case_decide as Heq.
    - subst t. rewrite Hsrc3. eexists. split; [done|]. simpl.
      rewrite <-(Hsame eq_refl). by split_and!.
    - rewrite (Hk3 t) by done. by exists tgt. }
  destruct (move_focus_finish s4 (workspace s) t w _ _ floated_windows TILE
    Hok4 Hc3 Hsrc4 Htgt4)
    as (s' & ws' & wt' & cs & -> & Hok' & Hlen' & Hc' & Htr' & Hws' & Hwt' &
        Hw1 & Hw2 & Hw3 & Hw4 & Hw5 & Hw6 & Hw7 & Hw8).
  simpl in Hw1, Hw2, Hw3, Hw8, Htr'.
  eexists s', ws', wt', _, cs. split; [done|]. split; [done|].
  split; [rewrite Hlen', <-Hlen3; apply length_modify|]. split; [done|].
  split; [done|]. split; [done|].
  split; [congruence|].
  split.
  { intros Hnil. destruct (decide (workspace s = t)) as [<-|Hne].
    - assert (ws = wt) as -> by congruence. rewrite Hnil in Hw.
      by apply elem_of_nil in Hw.
    - rewrite Hw5, Ht43 by done. by apply Ht2. }
  split; [intros Hnil; apply Hw7; congruence|].
  split; [intros Hne; rewrite Hw1, Hs31; by apply Hs1|].
  split; [by rewrite Hw2, Hw1, Hs31|].
  split.
  { rewrite Hw1, Hs31. intros Hnil Hflo.
    assert (workspace s ≠ t) as Hne.
    { intros Heq. rewrite (Hsame Heq), Ht1 in Hnil. done. }
    rewrite (Hw8 Hne), Hs33. unfold flip. rewrite Hnil, Hs2. simpl.
    by apply list_is_empty_false in Hflo as ->. }
  split; [by rewrite Htr', Htr3|].
  rewrite Hw1, Hs31. intros Hne. rewrite Hs33. unfold flip, next_focus.
  by apply list_is_empty_false in Hne as ->.
Qed.

Lemma move_focus_to_workspace_ok t s :
  t < length (workspaces s) → registry_ok s →
  ∃ s', move_focus_to_workspace t s = Done s' ∧ registry_ok s' ∧
    length (workspaces s') = length (workspaces s).
Proof.
  intros [wt Hwt]%lookup_lt_is_Some Hok.
  destruct (workspace_at_lt s (workspace s)) as (ws & Hws & Hat); [apply Hok|].
  destruct (focus_type ws) eqn:Hft.
  - destruct (tiled_windows ws) as [|y l] eqn:Htiled.
    { unfold move_focus_to_workspace. rewrite Hat. simpl. rewrite Hft, Htiled. by eauto. }
    destruct (ok_cursor _ Hok _ _ Hws) as (w & Hfocus & Hw); [by rewrite Htiled|].
    destruct (list_next_link_elem _ _ Hw) as (x & Hnext & _).
    destruct (move_focus_to_workspace_tiled s t ws wt w x)
      as (s' & _ & _ & _ & _ & Hrun & Hok' & Hlen' & _); eauto.
  - unfold move_focus_to_workspace. rewrite Hat. simpl. rewrite Hft.
    destruct (list_is_empty (floated_windows ws)) eqn:Hempty; [by eauto|].
    apply list_is_empty_false in Hempty.
    destruct (list_first_link_node _ Hempty) as (w & -> & Hw). simpl.
    rewrite (workspace_at_Done _ _ _ Hwt). simpl.
    set (s1 := link_move_before w (floated_list t) s).
    assert (registry_ok s1) as Hok1
      by (eapply (registry_ok_move_floated _ ws w s); eauto).
    assert (length (workspaces s1) = length (workspaces s)) as Hlen1
      by apply length_link_move_before.
    destruct (workspace_at_lt s1 (workspace s)) as (src & Hsrc & ->).
    { rewrite Hlen1. apply Hok. }
    simpl.
    set (s2 := if list_is_empty (floated_windows src) then _ else s1).
    assert (registry_ok s2 ∧ workspace s2 = workspace s ∧
      length (workspaces s2) = length (workspaces s)) as (Hok2 & Hc2 & Hlen2).
    { unfold s2. destruct (list_is_empty _); [|done].
      split; [by apply registry_ok_focus_type|]. split; [done|].
      by rewrite length_modify. }
    clearbody s2. rewrite Hc2.
    destruct (workspace_at_lt s2 (workspace s)) as (src2 & Hsrc2 & _).
    { rewrite Hlen2. apply Hok. }
    destruct (workspace_at_lt s2 t) as (tgt2 & Htgt2 & _).
    { rewrite Hlen2. by apply lookup_lt_is_Some. }
    destruct (move_focus_finish s2 (workspace s) t w _ _ tiled_windows FLOAT
      Hok2 Hc2 Hsrc2 Htgt2) as (s' & _ & _ & _ & -> & Hok' & Hlen' & _).
    exists s'. split; [done|]. split; [done|]. congruence.
Qed.

Lemma execute_ok c s :
  in_range (length (workspaces s)) c → registry_ok s →
  ∃ s', execute c s = Done s' ∧ registry_ok s' ∧
    length (workspaces s') = length (workspaces s).
Proof.
  destruct c; simpl; intros Hrange Hok;
    auto using set_workspace_ok, move_focus_to_workspace_ok, set_focus_type_ok,
      focus_next_ok, focus_previous_ok, move_next_ok, move_previous_ok,
      toggle_floating_ok.
Qed.

Lemma run_ok cs s :
  Forall (in_range (length (workspaces s))) cs → registry_ok s →
  ∃ s', run cs s = Done s' ∧ registry_ok s'.
Proof.
  revert s. induction cs as [|c cs IH]; intros s Hrange Hok; [by eauto|].
  apply Forall_cons in Hrange as [Hc Hcs]. simpl.
  destruct (execute_ok c s Hc Hok) as (s1 & -> & Hok1 & Hlen1). simpl.
  apply IH; [by rewrite Hlen1|done].
Qed.

(** C1: from a registry in order, every sequence of commands of the
    controller ([set_workspace], [move_focus_to_workspace], [set_focus_type],
    [focus_next], [focus_previous], [move_next], [move_previous],
    [toggle_floating]) whose indices address workspaces runs to the end, and
    afterwards every workspace whose focus type is [TILE] and whose tiled
    list is non-empty has its tiled focus cursor on a member of that list. *)
Theorem focus_cursor_invariant (cs : list command) (s : velox) :
  registry_ok s → Forall (in_range (length (workspaces s))) cs →
  ∃ s', run cs s = Done s' ∧ focus_cursor_valid s'.
Proof.
  intros Hok Hrange. destruct (run_ok cs s Hrange Hok) as (s' & Hrun & Hok').
  exists s'. split; [done|]. intros i ws Hws _ Hne. by eapply ok_cursor.
Qed.

(** ** The check of [registry_ok] is sound *)

Lemma NoDup_bind_lookup {A B} (f : A → list B) (l : list A) :
  NoDup (l ≫= f) →
  (∀ i x, l !! i = Some x → NoDup (f x)) ∧
  (∀ i j x y b, l !! i = Some x → l !! j = Some y → b ∈ f x → b ∈ f y → i = j).
Proof.
  induction l as [|a l IH]; [done|]. rewrite bind_cons.
  intros (Ha & Hd & Hl)%NoDup_app. destruct (IH Hl) as [IH1 IH2]. split.
  - intros [|i] x; simpl; [by intros [= <-]|by eauto].
  - intros [|i] [|j] x y b; simpl; intros Hx Hy Hbx Hby; simplify_eq; [done| | |].
    + exfalso. eapply Hd; [done|]. apply list_elem_of_bind. exists y.
      split; [done|]. by eapply list_elem_of_lookup_2.
    + exfalso. eapply Hd; [done|]. apply list_elem_of_bind. exists x.
      split; [done|]. by eapply list_elem_of_lookup_2.
    + f_equal. by eapply IH2.
Qed.

Lemma cursor_in_listb_sound ws :
  cursor_in_listb ws = true → tiled_windows ws ≠ [] → cursor_in_list ws.
Proof.
  unfold cursor_in_listb, cursor_in_list.
  destruct (tiled_windows ws) as [|y l]; [done|].
  destruct (tiled_focus ws) as [|w]; [done|].
  intros Hw%bool_decide_eq_true _. by exists w.
Qed.

Lemma registry_okb_sound s : registry_okb s = true → registry_ok s.
Proof.
  unfold registry_okb.
  intros [[Hlt%bool_decide_eq_true Hnd%bool_decide_eq_true]%andb_true_iff
    Hall]%andb_true_iff.
  apply NoDup_bind_lookup in Hnd.
  assert (∀ i ws, workspaces s !! i = Some ws →
    negb (list_is_empty (layouts ws)) && cursor_in_listb ws = true) as Hws.
  { intros i ws Hi%list_elem_of_lookup_2%list_elem_of_In.
    by eapply forallb_forall in Hall. }
  split; [split_and!; [done|done|]|].
  - intros i ws [Hlay _]%Hws%andb_true_iff. by destruct (layouts ws).
  - intros i ws [_ Hcur]%Hws%andb_true_iff. by apply cursor_in_listb_sound.
Qed.

(** C1 at the registry of section 8, for a sequence that uses every
    command. *)
Lemma focus_cursor_invariant_three_tiled :
  registry_ok three_tiled ∧
  ∃ s', run [ToggleFloating; MoveFocusToWorkspace 1; FocusNext; SetWorkspace 1;
             SetFocusType FLOAT; ToggleFloating; MoveNext; FocusPrevious;
             MoveFocusToWorkspace 0; SetWorkspace 0; MovePrevious] three_tiled = Done s' ∧
        focus_cursor_valid s'.
Proof.
  assert (registry_ok three_tiled) as Hok by (apply registry_okb_sound; vm_compute; reflexivity).
  split; [exact Hok|].
  apply (focus_cursor_invariant _ three_tiled Hok).
  repeat constructor; simpl; lia.
Defined.

(** ** [move_next] and [move_previous] *)

Lemma swap_links_involutive a b ws : swap_links a b (swap_links a b ws) = ws.
Proof.
  unfold swap_links. simpl. rewrite !fmap_swapped_involutive. by destruct ws.
Qed.

Lemma move_next_swaps s ws w x :
  registry_ok s → workspaces s !! workspace s = Some ws →
  focus_type ws = TILE → list_is_trivial (tiled_windows ws) = false →
  tiled_focus ws = node w →
  list_next_link (tiled_windows ws) (node w) = Some (node x) →
  ∃ s', move_next s = Done s' ∧ registry_ok s' ∧
    workspaces s' = workspaces (link_swap w x s) ∧ workspace s' = workspace s ∧
    floating s' = floating s.
Proof.
  intros Hok Hws Hft Htriv Hfocus Hnext.
  pose proof (list_next_link_Some_elem _ _ _ Hnext) as Hw.
  assert (x ∈ tiled_windows ws) as Hx.
  { destruct (list_next_link_elem _ _ Hw) as (x' & Hnext' & Hx). by simplify_eq. }
  unfold move_next. rewrite (workspace_at_Done _ _ _ Hws). simpl.
  rewrite Hft, Htriv, Hfocus, Hnext. simpl.
  destruct (arrange_ok (link_swap w x s)) as (s' & -> & ? & ? & ? & ?);
    [by eapply registry_ok_link_swap|]. by exists s'.
Qed.

Lemma move_previous_swaps s ws w x :
  registry_ok s → workspaces s !! workspace s = Some ws →
  focus_type ws = TILE → list_is_trivial (tiled_windows ws) = false →
  tiled_focus ws = node w →
  list_prev_link (tiled_windows ws) (node w) = Some (node x) →
  w ∈ tiled_windows ws →
  ∃ s', move_previous s = Done s' ∧ registry_ok s' ∧
    workspaces s' = workspaces (link_swap w x s) ∧ workspace s' = workspace s ∧
    floating s' = floating s.
Proof.
  intros Hok Hws Hft Htriv Hfocus Hprev Hw.
  assert (x ∈ tiled_windows ws) as Hx.
  { destruct (list_prev_link_elem _ _ Hw) as (x' & Hprev' & Hx). by simplify_eq. }
  unfold move_previous. rewrite (workspace_at_Done _ _ _ Hws). simpl.
  rewrite Hft, Htriv, Hfocus, Hprev. simpl.
  destruct (arrange_ok (link_swap w x s)) as (s' & -> & ? & ? & ? & ?);
    [by eapply registry_ok_link_swap|]. by exists s'.
Qed.

Lemma list_is_trivial_length {A} (l : list A) :
  list_is_trivial l = false ↔ 2 ≤ length l.
Proof. destruct l as [|? [|? ?]]; simpl; split; (done || lia). Qed.

(** C7: in tiled mode with at least two tiled windows, [move_next] exchanges
    the focused window with its cyclic successor and leaves the cursor on the
    same window; [move_previous] after it restores every list of the
    registry, so the tiled order and the focused window are the original
    ones. *)
Theorem move_next_then_move_previous (s : velox) (ws : velox_workspace) :
  registry_ok s → workspaces s !! workspace s = Some ws →
  focus_type ws = TILE → 2 ≤ length (tiled_windows ws) →
  ∃ w x s1 ws1 s2,
    tiled_focus ws = node w ∧
    list_next_link (tiled_windows ws) (node w) = Some (node x) ∧
    move_next s = Done s1 ∧
    workspaces s1 !! workspace s = Some ws1 ∧
    tiled_windows ws1 = swapped w x <$> tiled_windows ws ∧
    tiled_focus ws1 = node w ∧
    move_previous s1 = Done s2 ∧
    workspaces s2 = workspaces s ∧ workspace s2 = workspace s.
Proof.
  intros Hok Hws Hft Hlen.
  pose proof (ok_linked _ Hok) as (_ & Hd & _).
  pose proof (tiled_NoDup _ _ _ Hd Hws) as Hnd.
  apply list_is_trivial_length in Hlen as Htriv.
  destruct (ok_cursor _ Hok _ _ Hws) as (w & Hfocus & Hw);
    [by apply list_is_trivial_false|].
  destruct (list_next_link_elem _ _ Hw) as (x & Hnext & Hx).
  destruct (move_next_swaps s ws w x) as (s1 & Hrun1 & Hok1 & Hw1 & Hc1 & _); [done..|].
  assert (workspaces s1 !! workspace s1 = Some (swap_links w x ws)) as Hws1.
  { by rewrite Hw1, Hc1, lookup_link_swap, Hws. }
  destruct (move_previous_swaps s1 (swap_links w x ws) w x)
    as (s2 & Hrun2 & _ & Hw2 & Hc2 & _); try done.
  { simpl. apply list_is_trivial_length. by rewrite length_fmap. }
  { simpl. by apply list_prev_link_swapped. }
  { simpl. apply elem_of_fmap_swapped. by rewrite swapped_l. }
  exists w, x, s1, (swap_links w x ws), s2. split_and!; try done; try congruence.
  rewrite Hw2. unfold link_swap. simpl. rewrite Hw1. unfold link_swap. simpl.
  rewrite <-list_fmap_compose. rewrite <-(list_fmap_id (workspaces s)) at 2.
  apply list_fmap_ext. intros _ ws0 _. apply swap_links_involutive.
Qed.

(** C7 at the scenario of section 8: from [W1, W2, W3] with the focus on
    [W2], [move_next] yields [W1, W3, W2] with the cursor still on [W2], and
    [move_previous] restores the registry. *)
Lemma move_next_then_move_previous_three_tiled :
  registry_ok three_tiled ∧
  ∃ s1 ws1 s2,
    move_next three_tiled = Done s1 ∧
    workspaces s1 !! 0 = Some ws1 ∧
    tiled_windows ws1 = [1; 3; 2] ∧ tiled_focus ws1 = node 2 ∧
    move_previous s1 = Done s2 ∧
    workspaces s2 = workspaces three_tiled.
Proof.
  assert (registry_ok three_tiled) as Hok by (apply registry_okb_sound; vm_compute; reflexivity).
  split; [exact Hok|].
  destruct (move_next_then_move_previous three_tiled
    (make_workspace TILE [1; 2; 3] (node 2) []) Hok eq_refl eq_refl)
    as (w & x & s1 & ws1 & s2 & Hw & Hx & Hrun1 & Hws1 & Ht1 & Hf1 & Hrun2 & Hw2 & _).
  { simpl. lia. }
  injection Hw as <-. vm_compute in Hx. injection Hx as <-.
  exists s1, ws1, s2. split_and!; done.
Defined.

(** ** [move_focus_to_workspace] in tiled mode *)

(** C10: [move_focus_to_workspace] called in tiled mode with the index of
    the workspace in use, its tiled list non-empty, still relinks the focused
    window at the front of that same list, hides it although the workspace
    stays the one in use, and sets the cursor to the window's former
    successor, which receives the input focus. *)
Theorem move_focus_to_own_workspace (s : velox) (ws : velox_workspace) :
  registry_ok s → workspaces s !! workspace s = Some ws →
  focus_type ws = TILE → tiled_windows ws ≠ [] →
  ∃ w x s' ws' cs,
    tiled_focus ws = node w ∧
    list_next_link (tiled_windows ws) (node w) = Some (node x) ∧
    move_focus_to_workspace (workspace s) s = Done s' ∧
    workspace s' = workspace s ∧
    workspaces s' !! workspace s = Some ws' ∧
    tiled_windows ws' = w :: filter (λ y, y ≠ w) (tiled_windows ws) ∧
    tiled_focus ws' = node x ∧
    trace s' = trace s ++ Focus (link_entry (node x)) :: HideWindow w :: cs.
Proof.
  intros Hok Hws Hft Hne.
  destruct (ok_cursor _ Hok _ _ Hws Hne) as (w & Hfocus & Hw).
  destruct (list_next_link_elem _ _ Hw) as (x & Hnext & _).
  destruct (move_focus_to_workspace_tiled s (workspace s) ws ws w x
    Hok Hws Hws Hft Hfocus Hnext)
    as (s' & ws' & wt' & p & cs & Hrun & _ & _ & Hc & Hws' & Hwt' & Ht1 & _ & _ &
        _ & Hs2 & _ & Htr & Hp).
  assert (ws' = wt') as <- by congruence.
  assert (tiled_windows ws' ≠ []) as Hne' by by rewrite Ht1.
  exists w, x, s', ws', cs. split_and!; try done.
  - rewrite Hs2. by apply list_is_empty_false in Hne' as ->.
  - by rewrite Htr, (Hp Hne').
Qed.

(** C10 at the registry of section 8: [W2] goes to the front, is hidden, and
    the cursor moves to [W3]. *)
Lemma move_focus_to_own_workspace_three_tiled :
  registry_ok three_tiled ∧
  ∃ s' ws' cs,
    move_focus_to_workspace 0 three_tiled = Done s' ∧
    workspaces s' !! 0 = Some ws' ∧
    tiled_windows ws' = [2; 1; 3] ∧ tiled_focus ws' = node 3 ∧
    trace s' = Focus (link_entry (node 3)) :: HideWindow 2 :: cs.
Proof.
  assert (registry_ok three_tiled) as Hok by (apply registry_okb_sound; vm_compute; reflexivity).
  split; [exact Hok|].
  destruct (move_focus_to_own_workspace three_tiled
    (make_workspace TILE [1; 2; 3] (node 2) []) Hok eq_refl eq_refl)
    as (w & x & s' & ws' & cs & Hw & Hx & Hrun & _ & Hws' & Ht & Hf & Htr).
  { done. }
  injection Hw as <-. vm_compute in Hx. injection Hx as <-.
  exists s', ws', cs. split_and!; done.
Defined.

(** ** [toggle_floating] twice *)

(** C5, amended: in tiled mode with a non-empty tiled list, two calls of
    [toggle_floating] leave the focused window with its floating flag false
    and back in the tiled list, at the front of the list, with the cursor on
    it and the workspace in [TILE] mode. *)
Theorem toggle_floating_twice (s : velox) (ws : velox_workspace) :
  registry_ok s → workspaces s !! workspace s = Some ws →
  focus_type ws = TILE → tiled_windows ws ≠ [] →
  ∃ w s1 s2 ws2,
    tiled_focus ws = node w ∧
    toggle_floating s = Done s1 ∧ toggle_floating s1 = Done s2 ∧
    workspaces s2 !! workspace s = Some ws2 ∧
    floating s2 w = false ∧
    tiled_windows ws2 = w :: filter (λ y, y ≠ w) (tiled_windows ws) ∧
    tiled_focus ws2 = node w ∧
    focus_type ws2 = TILE ∧
    floated_windows ws2 = floated_windows ws.
Proof.
  intros Hok Hws Hft Hne.
  destruct (ok_cursor _ Hok _ _ Hws Hne) as (w & Hfocus & Hw).
  destruct (list_next_link_elem _ _ Hw) as (x & Hnext & _).
  destruct (toggle_floating_tiled s ws w x Hok Hws Hft Hfocus Hnext)
    as (s1 & ws1 & Hrun1 & Hok1 & _ & Hc1 & Hws1 & Hft1 & Ht1 & _ & Hfl1 & _).
  rewrite <-Hc1 in Hws1.
  destruct (toggle_floating_floated s1 ws1 w (floated_windows ws) Hok1 Hws1 Hft1 Hfl1)
    as (s2 & ws2 & Hrun2 & _ & _ & _ & Hws2 & Hft2 & Ht2 & Hf2 & Hfl2 & Hflag).
  exists w, s1, s2, ws2. rewrite <-Hc1. split_and!; try done. by rewrite Ht2, Ht1.
Qed.

(** C5, amended, at the registry of section 8: [W2] comes back first. *)
Lemma toggle_floating_twice_three_tiled :
  registry_ok three_tiled ∧
  ∃ s1 s2 ws2,
    toggle_floating three_tiled = Done s1 ∧ toggle_floating s1 = Done s2 ∧
    workspaces s2 !! 0 = Some ws2 ∧
    floating s2 2 = false ∧ tiled_windows ws2 = [2; 1; 3] ∧ tiled_focus ws2 = node 2.
Proof.
  assert (registry_ok three_tiled) as Hok by (apply registry_okb_sound; vm_compute; reflexivity).
  split; [exact Hok|].
  destruct (toggle_floating_twice three_tiled
    (make_workspace TILE [1; 2; 3] (node 2) []) Hok eq_refl eq_refl)
    as (w & s1 & s2 & ws2 & Hw & Hrun1 & Hrun2 & Hws2 & Hflag & Ht & Hf & _).
  { done. }
  injection Hw as <-.
  exists s1, s2, ws2. split_and!; done.
Defined.

(** C5 as worded fails: from [W1, W2, W3] with the focus on [W2] the cursor
    is on [W3] when [W2] comes back, and [W2] is linked in first, not right
    after [W3]. *)
Lemma toggle_floating_not_as_worded : ¬ retiles_as_worded three_tiled.
Proof.
  intros Hclaim.
  destruct (Hclaim (make_workspace TILE [1; 2; 3] (node 2) []) 2 eq_refl eq_refl eq_refl)
    as (s1 & s2 & ws1 & ws2 & c & Hrun1 & Hrun2 & Hws1 & Hws2 & Hc & _ & _ & Hfollows).
  { set_solver. }
  vm_compute in Hrun1. injection Hrun1 as <-.
  vm_compute in Hrun2. injection Hrun2 as <-.
  vm_compute in Hws1. injection Hws1 as <-.
  vm_compute in Hws2. injection Hws2 as <-.
  injection Hc as <-. vm_compute in Hfollows. discriminate Hfollows.
Qed.

(** ** [set_layout] *)




(** ** [active_workspace] *)

Lemma list_for_each_entry_active l (body : window → velox → velox) s :
  (∀ w s, active_workspace (body w s) = active_workspace s) →
  active_workspace (list_for_each_entry l body s) = active_workspace s.
Proof.
  intros Hbody. unfold list_for_each_entry. revert s.
  induction l as [|w l IH]; intros s; [done|]. simpl. by rewrite IH, Hbody.
Qed.

Lemma update_focus_active index s s' :
  update_focus index s = Done s' → active_workspace s' = active_workspace s.
Proof.
  unfold update_focus, workspace_at.
  destruct (workspaces s !! index) as [ws|]; simpl; [|done].
  destruct (focus_type ws), (list_is_empty _); by intros [= <-].
Qed.

Lemma arrange_active s s' :
  arrange s = Done s' → active_workspace s' = active_workspace s.
Proof.
  unfold arrange, workspace_at.
  destruct (workspaces s !! workspace s) as [ws|]; simpl; [|done].
  destruct (list_is_empty (tiled_windows ws)); [by intros [= <-]|].
  destruct (list_is_empty (layouts ws)); [done|]. by intros [= <-].
Qed.

(** [set_workspace] assigns [workspace] and leaves [active_workspace], the
    variable [next_workspace] scans for, as it is. *)
Lemma set_workspace_active index s s' :
  set_workspace index s = Done s' → active_workspace s' = active_workspace s.
Proof.
  unfold set_workspace.
  destruct (decide (index < length (workspaces s))); [|done].
  destruct (decide (workspace s = index)); [by intros [= <-]|].
  destruct (workspace_at index s) as [target|]; simpl; [|done].
  set (s1 := list_for_each_entry _ _ (list_for_each_entry _ _ s)).
  assert (active_workspace s1 = active_workspace s) as Hs1.
  { unfold s1. by rewrite !list_for_each_entry_active. }
  destruct (update_focus index s1) as [s2|] eqn:Hs2; simpl; [|done].
  apply update_focus_active in Hs2.
  destruct (workspace_at (workspace s2) s2) as [current|]; simpl; [|done].
  set (s3 := list_for_each_entry _ _ (list_for_each_entry _ _ s2)).
  assert (active_workspace s3 = active_workspace s2) as Hs3.
  { unfold s3. by rewrite !list_for_each_entry_active. }
  destruct (workspace_at index (with_workspace index s3)) as [ws|]; simpl; [|done].
  destruct (focus_type ws).
  - destruct (arrange (with_workspace index s3)) as [s4|] eqn:Hs4; simpl; [|done].
    apply arrange_active in Hs4. intros [= <-]. simpl in *. congruence.
  - simpl. intros [= <-]. simpl. congruence.
Qed.

Lemma next_workspace_active s s' :
  next_workspace s = Done s' → active_workspace s' = active_workspace s.
Proof. apply set_workspace_active. Qed.

(** ** Evaluations *)

(** C6 fails in [focus_previous]: on floated windows [1; 2] it moves 1
    behind 2 and gives the input focus to 1, now the last of the list, while
    the first floated window, the one [update_focus] would pick, is 2. *)
Lemma focus_previous_focuses_last :
  ∃ s' ws',
    focus_previous two_floated = Done s' ∧
    workspaces s' !! 0 = Some ws' ∧
    focus_type ws' = FLOAT ∧
    floated_windows ws' = [2; 1] ∧
    trace s' = [Focus (link_entry (node 1))] ∧
    list_first (floated_windows ws') = link_entry (node 2) ∧
    update_focus 0 s' = Done (focus (link_entry (node 2)) s').
Proof. eexists _, _. split_and!; reflexivity. Qed.

(** C8 fails: with two workspaces and the first one in use, the second call
    of [next_workspace] scans for [active_workspace] again, still the first
    workspace, and asks for the second workspace once more: [workspace] stays
    on the second workspace and the windows of the first stay hidden. *)
Lemma next_workspace_twice_stays :
  ∃ s',
    repeat_command 2 next_workspace three_tiled = Done s' ∧
    length (workspaces three_tiled) = 2 ∧
    workspace three_tiled = 0 ∧ workspace s' = 1 ∧ active_workspace s' = 0 ∧
    trace s' =
      [Focus NULL; HideWindow 1; HideWindow 2; HideWindow 3;
       RunHooks 1 VELOX_HOOK_WORKSPACE_CHANGED].
Proof. eexists. split_and!; reflexivity. Qed.


(** C3: [update_focus] makes exactly one [focus] call and changes nothing
    else: in [TILE] mode on the entry of the tiled focus cursor, or on [NULL]
    when the tiled list is empty; in [FLOAT] mode on the first floated
    window, or on [NULL] when the floated list is empty.  It never stops. *)
Theorem update_focus_sets_input_focus (s : velox) (index : nat) (ws : velox_workspace) :
  workspaces s !! index = Some ws →
  ∃ p, update_focus index s = Done (emit (Focus p) s) ∧
    (focus_type ws = TILE → tiled_windows ws ≠ [] → p = link_entry (tiled_focus ws)) ∧
    (focus_type ws = TILE → tiled_windows ws = [] → p = NULL) ∧
    (focus_type ws = FLOAT → ∀ w l, floated_windows ws = w :: l → p = link_entry (node w)) ∧
    (focus_type ws = FLOAT → floated_windows ws = [] → p = NULL).
Proof.
  intros Hws. unfold update_focus. rewrite (workspace_at_Done _ _ _ Hws). simpl.
  destruct (focus_type ws).
  - destruct (tiled_windows ws) as [|w l]; simpl; eexists; (split; [reflexivity|]);
      repeat split; intros; congruence.
  - destruct (floated_windows ws) as [|w l]; simpl; eexists; (split; [reflexivity|]);
      repeat split; intros; by simplify_eq.
Qed.

Lemma update_focus_float_nothing :
  workspaces float_nothing !! 0 = Some (make_workspace FLOAT [4] (node 4) []) ∧
  update_focus 0 float_nothing = Done (emit (Focus NULL) float_nothing).
Proof.
  split; [reflexivity|].
  destruct (update_focus_sets_input_focus float_nothing 0 _ eq_refl) as (p & Hrun & _ & _ & _ & Hp).
  rewrite Hrun, (Hp eq_refl eq_refl). reflexivity.
Defined.

(** C9: [set_workspace] with the index of the workspace in use returns the
    state as it is: no call is made, no hook runs, nothing changes. *)
Theorem set_workspace_active_is_noop (s : velox) :
  workspace s < length (workspaces s) → set_workspace (workspace s) s = Done s.
Proof.
  intros Hlt. unfold set_workspace.
  destruct (decide (workspace s < length (workspaces s))); [|done].
  by destruct (decide (workspace s = workspace s)).
Qed.

Lemma set_workspace_active_three_tiled :
  workspace three_tiled < length (workspaces three_tiled) ∧
  set_workspace 0 three_tiled = Done three_tiled.
Proof.
  assert (H : workspace three_tiled < length (workspaces three_tiled)) by (vm_compute; lia).
  split; [exact H|]. exact (set_workspace_active_is_noop three_tiled H).
Defined.

(** ** Runs of collaborator calls *)

Lemma emit_all_nil s : emit_all [] s = s.
Proof. unfold emit_all. rewrite app_nil_r. by destruct s. Qed.

Lemma emit_all_emit c cs s : emit_all cs (emit c s) = emit_all (c :: cs) s.
Proof. unfold emit_all, emit. simpl. by rewrite <-app_assoc. Qed.

Lemma emit_emit_all c cs s : emit c (emit_all cs s) = emit_all (cs ++ [c]) s.
Proof. unfold emit_all, emit. simpl. by rewrite <-app_assoc. Qed.

Lemma emit_all_emit_all cs1 cs2 s : emit_all cs2 (emit_all cs1 s) = emit_all (cs1 ++ cs2) s.
Proof. unfold emit_all. simpl. by rewrite <-app_assoc. Qed.

Lemma list_for_each_entry_emit l (c : window → call) s :
  list_for_each_entry l (λ w, emit (c w)) s = emit_all (c <$> l) s.
Proof.
  unfold list_for_each_entry. revert s. induction l as [|w l IH]; intros s; simpl.
  - by rewrite emit_all_nil.
  - by rewrite IH, emit_all_emit.
Qed.

Lemma update_focus_focused s i ws :
  workspaces s !! i = Some ws → update_focus i s = Done (emit_all [Focus (focused ws)] s).
Proof. intros Hws. by rewrite (update_focus_Done _ _ _ Hws). Qed.

Lemma arrange_arranged s ws :
  workspaces s !! workspace s = Some ws → (tiled_windows ws ≠ [] → layouts ws ≠ []) →
  arrange s = Done (emit_all (arranged ws) s).
Proof.
  intros Hws Hlay. unfold arrange, arranged. rewrite (workspace_at_Done _ _ _ Hws). simpl.
  destruct (tiled_windows ws) as [|y l]; simpl; [by rewrite emit_all_nil|].
  destruct (layouts ws); [by destruct Hlay|done].
Qed.

Lemma workspace_at_emit_all i cs s : workspace_at i (emit_all cs s) = workspace_at i s.
Proof. done. Qed.

Lemma with_workspace_emit_all i cs s :
  with_workspace i (emit_all cs s) = emit_all cs (with_workspace i s).
Proof. done. Qed.

Lemma hide_window_emit_all w cs s : hide_window w (emit_all cs s) = emit_all (cs ++ [HideWindow w]) s.
Proof. apply emit_emit_all. Qed.

Lemma registry_ok_emit_all cs s : registry_ok s → registry_ok (emit_all cs s).
Proof. by apply registry_ok_same. Qed.

(** ** Updates of the registry, as insertions *)

Lemma lookup_insert_decide {A} (l : list A) i k x y :
  l !! i = Some y →
  <[i := x]> l !! k = if decide (i = k) then Some x else l !! k.
Proof.
  intros Hy. rewrite list_lookup_insert. destruct (decide (i = k)) as [<-|Hne].
  - rewrite decide_True; [done|]. split; [done|]. apply lookup_lt_is_Some. eauto.
  - rewrite decide_False; [done|]. by intros [? _].
Qed.

Lemma lookup_insert_eq_Some {A} (l : list A) i x y : l !! i = Some y → <[i := x]> l !! i = Some x.
Proof. intros Hy. by rewrite (lookup_insert_decide _ _ _ _ _ Hy), decide_True. Qed.

Lemma alter_insert {A} (f : A → A) (l : list A) i x :
  l !! i = Some x → alter f i l = <[i := f x]> l.
Proof.
  intros Hx. apply list_eq. intros k.
  rewrite list_lookup_alter, (lookup_insert_decide _ _ _ _ _ Hx).
  case_decide; [subst k; by rewrite Hx|done].
Qed.

Lemma insert_insert_back {A} (l : list A) i x y :
  l !! i = Some x → <[i := x]> (<[i := y]> l) = l.
Proof. intros Hx. rewrite list_insert_insert_eq. by apply list_insert_id. Qed.

Lemma workspaces_modify s i ws f :
  workspaces s !! i = Some ws → workspaces (modify i f s) = <[i := f ws]> (workspaces s).
Proof.
  intros Hws. apply list_eq. intros k.
  rewrite lookup_modify, list_lookup_insert.
  destruct (decide (i = k)) as [<-|Hne].
  - rewrite Hws. simpl. rewrite decide_True; [done|].
    split; [done|]. apply lookup_lt_is_Some. eauto.
  - rewrite decide_False; [done|]. by intros [? _].
Qed.

Lemma modify_insert s i f x :
  workspaces s !! i = Some x →
  modify i f s = with_workspaces (<[i := f x]> (workspaces s)) s.
Proof. intros Hx. unfold modify. by rewrite (alter_insert _ _ _ _ Hx). Qed.

Lemma modify_as W s i f x :
  W !! i = Some x → modify i f (with_workspaces W s) = with_workspaces (<[i := f x]> W) s.
Proof. intros Hx. unfold modify, with_workspaces. simpl. by rewrite (alter_insert _ _ _ _ Hx). Qed.

Lemma modify_if (b : bool) W s i f x :
  W !! i = Some x →
  (if b then modify i f (with_workspaces W s) else with_workspaces W s) =
    with_workspaces (<[i := if b then f x else x]> W) s.
Proof.
  intros Hx. destruct b; [by apply modify_as|]. by rewrite list_insert_id.
Qed.

Lemma workspace_at_as W s i x cs :
  W !! i = Some x → workspace_at i (emit_all cs (with_workspaces W s)) = Done x.
Proof. intros Hx. by apply workspace_at_Done. Qed.

Lemma link_move_before_as w r s :
  link_move_before w r s = with_workspaces (workspaces (link_move_before w r s)) s.
Proof. by destruct r. Qed.

Lemma link_move_after_as w r s :
  link_move_after w r s = with_workspaces (workspaces (link_move_after w r s)) s.
Proof. by destruct r. Qed.

Lemma floating_link_move_before w r s : floating (link_move_before w r s) = floating s.
Proof. by destruct r. Qed.

Lemma with_focus_type_id t ws : focus_type ws = t → with_focus_type t ws = ws.
Proof. intros <-. by destruct ws. Qed.

Lemma with_tiled_focus_id k ws : tiled_focus ws = k → with_tiled_focus k ws = ws.
Proof. intros <-. by destruct ws. Qed.

Lemma with_tiled_focus_if (b : bool) k ws :
  (if b then with_tiled_focus k ws else ws) =
  with_tiled_focus (if b then k else tiled_focus ws) ws.
Proof. destruct b; [done|]. by destruct ws. Qed.

Lemma with_focus_type_if (b : bool) t ws :
  (if b then with_focus_type t ws else ws) =
  with_focus_type (if b then t else focus_type ws) ws.
Proof. destruct b; [done|]. by destruct ws. Qed.

Lemma unlink_floated ws w l1 l2 :
  NoDup (windows_of ws) → floated_windows ws = l1 ++ w :: l2 →
  unlink w ws = with_floated_windows (l1 ++ l2) ws.
Proof.
  intros Hnd Hfl. unfold windows_of in Hnd. rewrite Hfl in Hnd.
  apply NoDup_app in Hnd as (_ & Hd & Hnd).
  apply NoDup_app in Hnd as (_ & Hd1 & [Hd2 _]%NoDup_cons).
  unfold unlink. simpl. rewrite Hfl, filter_ne_split.
  - rewrite filter_ne_id; [by destruct ws|].
    intros Hin. eapply Hd; [done|]. apply elem_of_app. right. by left.
  - intros Hin. eapply Hd1; [done|]. by left.
  - done.
Qed.

Lemma unlink_tiled ws w :
  NoDup (windows_of ws) → w ∈ tiled_windows ws →
  unlink w ws = with_tiled_windows (filter (λ y, y ≠ w) (tiled_windows ws)) ws.
Proof.
  intros Hnd Hw. apply NoDup_app in Hnd as (_ & Hd & _).
  unfold unlink. simpl. rewrite (filter_ne_id (floated_windows ws)) by by apply Hd.
  by destruct ws.
Qed.

(** The other workspaces do not hold the window. *)
Lemma fmap_unlink_other s i ws w k :
  links_distinct s → workspaces s !! i = Some ws → w ∈ windows_of ws → i ≠ k →
  unlink w <$> workspaces s !! k = workspaces s !! k.
Proof.
  intros Hd Hws Hw Hne. destruct (workspaces s !! k) as [wk|] eqn:Hwk; [|done].
  simpl. f_equal. apply unlink_id. by eapply (not_elsewhere s i k ws wk).
Qed.

(** A window moved within one workspace. *)
Lemma workspaces_moved_within s s' i ws w (f : velox_workspace → velox_workspace) :
  links_distinct s → workspaces s !! i = Some ws → w ∈ windows_of ws →
  (∀ k, workspaces s' !! k =
     (λ wk, if decide (i = k) then f (unlink w wk) else unlink w wk) <$> workspaces s !! k) →
  workspaces s' = <[i := f (unlink w ws)]> (workspaces s).
Proof.
  intros Hd Hws Hw Hlook. apply list_eq. intros k.
  rewrite Hlook, (lookup_insert_decide _ _ _ _ _ Hws).
  destruct (decide (i = k)) as [<-|Hne].
  - by rewrite Hws.
  - pose proof (fmap_unlink_other s i ws w k Hd Hws Hw Hne) as Hu.
    by destruct (workspaces s !! k).
Qed.

(** A window moved from workspace [i] to workspace [t]. *)
Lemma workspaces_moved_across s s' i t ws wt w (f : velox_workspace → velox_workspace) :
  links_distinct s → workspaces s !! i = Some ws → workspaces s !! t = Some wt →
  w ∈ windows_of ws → i ≠ t →
  (∀ k, workspaces s' !! k =
     (λ wk, if decide (t = k) then f (unlink w wk) else unlink w wk) <$> workspaces s !! k) →
  workspaces s' = <[t := f wt]> (<[i := unlink w ws]> (workspaces s)).
Proof.
  intros Hd Hws Hwt Hw Hit Hlook. apply list_eq. intros k.
  assert (<[i:=unlink w ws]> (workspaces s) !! t = Some wt) as Hwt'
    by (by rewrite list_lookup_insert_ne).
  rewrite Hlook, (lookup_insert_decide _ _ _ _ _ Hwt'),
    (lookup_insert_decide _ _ _ _ _ Hws).
  destruct (decide (t = k)) as [<-|Hne].
  - rewrite Hwt. simpl.
    pose proof (fmap_unlink_other s i ws w t Hd Hws Hw Hit) as Hu.
    rewrite Hwt in Hu. simpl in Hu. injection Hu as Hu. by rewrite Hu.
  - destruct (decide (i = k)) as [<-|Hne'].
    + by rewrite Hws.
    + pose proof (fmap_unlink_other s i ws w k Hd Hws Hw Hne') as Hu.
      by destruct (workspaces s !! k).
Qed.

Lemma links_distinct_with_workspaces W s i x f :
  workspaces s !! i = Some x → (∀ ws, windows_of (f ws) = windows_of ws) →
  W = <[i := f x]> (workspaces s) →
  links_distinct s → links_distinct (with_workspaces W s).
Proof.
  intros Hx Hf -> Hd. rewrite <-(modify_insert s i f x Hx).
  by apply links_distinct_modify.
Qed.

Lemma workspaces_link_swap s i ws a b :
  links_distinct s → workspaces s !! i = Some ws →
  a ∈ windows_of ws → b ∈ windows_of ws →
  workspaces (link_swap a b s) = <[i := swap_links a b ws]> (workspaces s).
Proof.
  intros Hd Hws Ha Hb. apply list_eq. intros k.
  rewrite lookup_link_swap, (lookup_insert_decide _ _ _ _ _ Hws).
  case_decide as Hk; [subst k; by rewrite Hws|].
  destruct (workspaces s !! k) as [wk|] eqn:Hwk; [|done]. simpl. f_equal.
  apply swap_links_id; by eapply (not_elsewhere s i k ws wk).
Qed.

(** ** [set_workspace] *)

Lemma set_workspace_switches s index target current :
  workspaces s !! index = Some target →
  workspaces s !! workspace s = Some current →
  workspace s ≠ index →
  (focus_type target = TILE → tiled_windows target ≠ [] → layouts target ≠ []) →
  set_workspace index s =
    Done (emit_all
            ((ShowWindow <$> tiled_windows target) ++ (ShowWindow <$> floated_windows target) ++
             [Focus (focused target)] ++
             (HideWindow <$> tiled_windows current) ++ (HideWindow <$> floated_windows current) ++
             (match focus_type target with TILE => arranged target | FLOAT => [] end) ++
             [RunHooks index VELOX_HOOK_WORKSPACE_CHANGED])
            (with_workspace index s)).
Proof.
  intros Htarget Hcurrent Hne Hlay.
  assert (index < length (workspaces s)) as Hlt by (apply lookup_lt_is_Some; eauto).
  unfold set_workspace. rewrite decide_True, decide_False by done.
  rewrite (workspace_at_Done _ _ _ Htarget). simpl.
  unfold show_window, hide_window, run_hooks.
  rewrite !list_for_each_entry_emit, emit_all_emit_all.
  rewrite (update_focus_focused _ _ target) by done. simpl.
  rewrite emit_all_emit_all, workspace_at_emit_all.
  rewrite (workspace_at_Done _ _ _ Hcurrent). simpl.
  rewrite !list_for_each_entry_emit, !emit_all_emit_all, with_workspace_emit_all.
  rewrite (workspace_at_Done _ index target) by done. simpl.
  destruct (focus_type target) eqn:Hft.
  - rewrite (arrange_arranged _ target) by (try done; auto). simpl.
    rewrite emit_all_emit_all, emit_emit_all. by rewrite <-!app_assoc.
  - simpl. rewrite emit_emit_all. by rewrite <-!app_assoc.
Qed.

(** X1: [set_workspace] with the index of another workspace of the registry
    assigns [workspace] and nothing else of the state, and makes these calls
    in this order: it shows the tiled, then the floated windows of the
    target, derives the input focus from the target, hides the tiled, then
    the floated windows of the workspace it leaves, arranges the target if
    its focus type is [TILE], and runs the workspace-changed hook.  (The
    target has a layout if it is to be arranged.) *)
Theorem set_workspace_shows_then_hides (s : velox) (index : nat)
    (target current : velox_workspace) :
  workspaces s !! index = Some target →
  workspaces s !! workspace s = Some current →
  workspace s ≠ index →
  (focus_type target = TILE → tiled_windows target ≠ [] → layouts target ≠ []) →
  ∃ s',
    set_workspace index s = Done s' ∧
    workspace s' = index ∧ workspaces s' = workspaces s ∧
    floating s' = floating s ∧ active_workspace s' = active_workspace s ∧
    trace s' =
      trace s ++
        (ShowWindow <$> tiled_windows target) ++ (ShowWindow <$> floated_windows target) ++
        [Focus (focused target)] ++
        (HideWindow <$> tiled_windows current) ++ (HideWindow <$> floated_windows current) ++
        (match focus_type target with TILE => arranged target | FLOAT => [] end) ++
        [RunHooks index VELOX_HOOK_WORKSPACE_CHANGED].
Proof.
  intros Htarget Hcurrent Hne Hlay.
  rewrite (set_workspace_switches s index target current) by done.
  eexists. split; [reflexivity|]. by split_and!.
Qed.

(** X1 at the registry of section 8, for its second workspace, which is
    empty. *)
Lemma set_workspace_shows_then_hides_three_tiled :
  ∃ s',
    set_workspace 1 three_tiled = Done s' ∧
    workspace s' = 1 ∧ workspaces s' = workspaces three_tiled ∧
    trace s' =
      [Focus NULL; HideWindow 1; HideWindow 2; HideWindow 3;
       RunHooks 1 VELOX_HOOK_WORKSPACE_CHANGED].
Proof.
  destruct (set_workspace_shows_then_hides three_tiled 1
    (make_workspace TILE [] head []) (make_workspace TILE [1; 2; 3] (node 2) [])
    eq_refl eq_refl) as (s' & Hrun & Hc & Hw & _ & _ & Htr).
  { simpl. lia. }
  { done. }
  exists s'. split_and!; done.
Defined.

Lemma with_workspace_same s : with_workspace (workspace s) s = s.
Proof. by destruct s. Qed.

Lemma set_workspace_result index s :
  registry_ok s → index < length (workspaces s) →
  ∃ cs, set_workspace index s = Done (emit_all cs (with_workspace index s)).
Proof.
  intros Hok Hlt.
  destruct (decide (workspace s = index)) as [<-|Hne].
  - exists []. rewrite emit_all_nil, with_workspace_same.
    unfold set_workspace. by rewrite !decide_True.
  - apply lookup_lt_is_Some in Hlt as [target Htarget].
    destruct (workspace_at_lt s (workspace s)) as (current & Hcurrent & _); [apply Hok|].
    eexists. apply (set_workspace_switches s index target current); try done.
    intros _ _. by eapply Hok.
Qed.

(** ** [next_workspace] and [previous_workspace] *)

Lemma vector_scan_found sought index remaining :
  index ≤ sought → sought < index + remaining →
  vector_scan sought index remaining = sought.
Proof.
  revert index. induction remaining as [|r IH]; intros index Hle Hlt; simpl; [lia|].
  case_decide; [done|]. apply IH; lia.
Qed.


Lemma next_workspace_successor s :
  active_workspace s < length (workspaces s) → length (workspaces s) ≤ 255 →
  next_workspace s =
    set_workspace ((active_workspace s + 1) mod length (workspaces s)) s.
Proof.
  intros Hlt Hsize. unfold next_workspace.
  rewrite vector_scan_found by lia.
  rewrite (Nat.mod_small (_ + 1) 256) by lia.
  case_decide as Heq.
  - rewrite Heq, Nat.Div0.mod_same. done.
  - by rewrite Nat.mod_small by lia.
Qed.

Lemma previous_workspace_target s :
  active_workspace s < length (workspaces s) → length (workspaces s) ≤ 255 →
  previous_workspace s =
    set_workspace ((active_workspace s + (length (workspaces s) - 1))
                     mod length (workspaces s)) s.
Proof.
  intros Hlt Hsize. unfold previous_workspace.
  rewrite vector_scan_found by lia.
  f_equal. case_bool_decide as Heq.
  - rewrite Heq, Nat.add_0_l, (Nat.mod_small (_ - 1)) by lia.
    symmetry. apply (Nat.mod_unique _ _ 1); lia.
  - transitivity (active_workspace s - 1).
    + symmetry. apply (Nat.mod_unique _ _ 1); lia.
    + apply (Nat.mod_unique _ _ 1); lia.
Qed.

(** X2: from a registry in order of at most 255 workspaces with
    [active_workspace] one of them, any number of calls of [next_workspace],
    one or more, ends with [workspace] on the cyclic successor of
    [active_workspace], which no call assigns; the registry is unchanged. *)
Theorem next_workspace_follows_active_workspace (n : nat) (s : velox) :
  registry_ok s →
  active_workspace s < length (workspaces s) → length (workspaces s) ≤ 255 →
  ∃ s', repeat_command (S n) next_workspace s = Done s' ∧
    workspace s' = (active_workspace s + 1) mod length (workspaces s) ∧
    active_workspace s' = active_workspace s ∧
    workspaces s' = workspaces s.
Proof.
  intros Hok Hlt Hsize.
  assert ((active_workspace s + 1) mod length (workspaces s) < length (workspaces s))
    as Hin by (apply Nat.mod_upper_bound; lia).
  revert s Hok Hlt Hsize Hin. induction n as [|n IH]; intros s Hok Hlt Hsize Hin.
  - simpl. rewrite next_workspace_successor by done.
    destruct (set_workspace_result _ s Hok Hin) as (cs & ->). simpl.
    eexists. split; [done|]. done.
  - change (repeat_command (S (S n)) next_workspace s)
      with (s ← next_workspace s; repeat_command (S n) next_workspace s).
    rewrite next_workspace_successor by done.
    destruct (set_workspace_result _ s Hok Hin) as (cs & ->).
    set (s1 := emit_all cs _).
    destruct (IH s1) as (s' & Hrun & Hw & Ha & Hwss); try done.
    { by apply registry_ok_emit_all, registry_ok_with_workspace. }
    exists s'. split; [exact Hrun|]. done.
Qed.

(** X2 at the registry of section 8: three calls end on the second
    workspace. *)
Lemma next_workspace_follows_active_workspace_three_tiled :
  registry_ok three_tiled ∧
  ∃ s', repeat_command 3 next_workspace three_tiled = Done s' ∧
    workspace s' = 1 ∧ active_workspace s' = 0 ∧
    workspaces s' = workspaces three_tiled.
Proof.
  assert (registry_ok three_tiled) as Hok by (apply registry_okb_sound; vm_compute; reflexivity).
  split; [exact Hok|].
  apply (next_workspace_follows_active_workspace 2 three_tiled Hok); simpl; lia.
Defined.

(** X3: from a registry in order of at most 255 workspaces with
    [active_workspace] one of them, [previous_workspace] returns with
    [workspace] on the cyclic predecessor of [active_workspace], the last
    workspace when [active_workspace] is the first; [active_workspace] and
    the registry are unchanged. *)
Theorem previous_workspace_predecessor (s : velox) :
  registry_ok s →
  active_workspace s < length (workspaces s) → length (workspaces s) ≤ 255 →
  ∃ s', previous_workspace s = Done s' ∧
    workspace s' =
      (active_workspace s + (length (workspaces s) - 1)) mod length (workspaces s) ∧
    active_workspace s' = active_workspace s ∧
    workspaces s' = workspaces s.
Proof.
  intros Hok Hlt Hsize. rewrite previous_workspace_target by done.
  destruct (set_workspace_result
    ((active_workspace s + (length (workspaces s) - 1)) mod length (workspaces s)) s Hok)
    as (cs & ->); [apply Nat.mod_upper_bound; lia|].
  eexists. split; [reflexivity|]. done.
Qed.

(** X3 at the registry of section 8: from the first of two workspaces to the
    second. *)
Lemma previous_workspace_predecessor_three_tiled :
  registry_ok three_tiled ∧
  ∃ s', previous_workspace three_tiled = Done s' ∧
    workspace s' = 1 ∧ active_workspace s' = 0 ∧
    workspaces s' = workspaces three_tiled.
Proof.
  assert (registry_ok three_tiled) as Hok by (apply registry_okb_sound; vm_compute; reflexivity).
  split; [exact Hok|].
  apply (previous_workspace_predecessor three_tiled Hok); simpl; lia.
Defined.



(** ** [set_focus_type] and [toggle_focus_type] *)

Lemma set_focus_type_result (t : velox_workspace_focus_type) (s : velox) (ws : velox_workspace) :
  workspaces s !! workspace s = Some ws →
  set_focus_type t s =
    Done (if decide (focus_type ws ≠ t ∧ windows_in t ws ≠ [])
          then emit (Focus (focused (with_focus_type t ws)))
                 (modify (workspace s) (with_focus_type t) s)
          else s).
Proof.
  intros Hws. unfold set_focus_type. rewrite (workspace_at_Done _ _ _ Hws). simpl.
  destruct (decide (focus_type ws = t)) as [Heq|Hne].
  - rewrite decide_False; [done|]. by intros [? _].
  - destruct t; simpl.
    + destruct (tiled_windows ws) as [|y l] eqn:Hl; simpl.
      * rewrite decide_False; [done|]. by intros [_ ?].
      * rewrite decide_True by done. unfold focused. simpl. by rewrite Hl.
    + destruct (floated_windows ws) as [|y l] eqn:Hl; simpl.
      * rewrite decide_False; [done|]. by intros [_ ?].
      * rewrite decide_True by done. unfold focused. simpl. by rewrite Hl.
Qed.

(** X5: [set_focus_type] always returns.  When the workspace in use has
    another focus type and the list of the requested type holds a window, it
    assigns the focus type and nothing else of the registry, and makes one
    [focus] call, on the window [update_focus] would pick in the new mode;
    when the workspace already has the type, or the list of the type is
    empty, the state is returned as it is. *)
Theorem set_focus_type_switches (t : velox_workspace_focus_type) (s : velox)
    (ws : velox_workspace) :
  workspaces s !! workspace s = Some ws →
  ∃ s',
    set_focus_type t s = Done s' ∧
    (focus_type ws ≠ t → windows_in t ws ≠ [] →
       workspaces s' = <[workspace s := with_focus_type t ws]> (workspaces s) ∧
       trace s' = trace s ++ [Focus (focused (with_focus_type t ws))] ∧
       workspace s' = workspace s ∧ floating s' = floating s) ∧
    (focus_type ws = t ∨ windows_in t ws = [] → s' = s).
Proof.
  intros Hws. rewrite (set_focus_type_result t s ws Hws).
  eexists. split; [reflexivity|]. split.
  - intros Hne Hin. rewrite decide_True by done.
    by rewrite workspaces_emit, (workspaces_modify _ _ _ _ Hws).
  - intros Hcase. rewrite decide_False; [done|]. intros [? ?]. by destruct Hcase.
Qed.

(** X5 at a workspace in [FLOAT] mode with tiled windows [1; 2]: the focus
    type becomes [TILE] and the cursor's window gets the focus. *)
Lemma set_focus_type_switches_mixed :
  ∃ s',
    set_focus_type TILE mixed = Done s' ∧
    workspaces s' =
      [make_workspace TILE [1; 2] (node 1) [3; 4]; make_workspace TILE [5] (node 5) []] ∧
    trace s' = [Focus (link_entry (node 1))].
Proof.
  destruct (set_focus_type_switches TILE mixed (make_workspace FLOAT [1; 2] (node 1) [3; 4])
    eq_refl) as (s' & Hrun & Hswitch & _).
  destruct Hswitch as (Hw & Htr & _); [done..|].
  exists s'. split_and!; done.
Defined.

Lemma toggle_focus_type_result (s : velox) (ws : velox_workspace) :
  workspaces s !! workspace s = Some ws →
  toggle_focus_type s = set_focus_type (other_type (focus_type ws)) s.
Proof.
  intros Hws. unfold toggle_focus_type. rewrite (workspace_at_Done _ _ _ Hws). simpl.
  by destruct (focus_type ws).
Qed.

Lemma toggle_focus_type_twice (s : velox) (ws : velox_workspace) :
  workspaces s !! workspace s = Some ws →
  tiled_windows ws ≠ [] → floated_windows ws ≠ [] →
  ∃ s1 s2 ws1,
    toggle_focus_type s = Done s1 ∧
    workspaces s1 !! workspace s = Some ws1 ∧
    focus_type ws1 = other_type (focus_type ws) ∧
    toggle_focus_type s1 = Done s2 ∧
    workspaces s2 = workspaces s ∧ workspace s2 = workspace s ∧
    floating s2 = floating s ∧
    trace s2 = trace s ++ [Focus (focused ws1); Focus (focused ws)].
Proof.
  intros Hws Ht Hf.
  assert (∀ t, windows_in t ws ≠ []) as Hin by (by intros []).
  rewrite (toggle_focus_type_result s ws Hws), (set_focus_type_result _ s ws Hws).
  rewrite decide_True by (split; [by destruct (focus_type ws)|done]).
  set (t1 := other_type (focus_type ws)).
  set (s1 := emit _ _).
  assert (workspaces s1 !! workspace s1 = Some (with_focus_type t1 ws)) as Hws1.
  { unfold s1. rewrite workspaces_emit, workspace_emit, workspace_modify.
    by rewrite lookup_modify, decide_True, Hws. }
  exists s1. eexists. exists (with_focus_type t1 ws).
  split; [done|]. split; [exact Hws1|]. split; [done|].
  rewrite (toggle_focus_type_result s1 _ Hws1), (set_focus_type_result _ s1 _ Hws1).
  rewrite decide_True
    by (simpl; unfold t1; destruct (focus_type ws); simpl; by split).
  split; [done|].
  change (focus_type (with_focus_type t1 ws)) with t1.
  assert (other_type t1 = focus_type ws) as -> by (unfold t1; by destruct (focus_type ws)).
  split_and!; try done.
  - rewrite workspaces_emit, (workspaces_modify _ _ _ _ Hws1).
    unfold s1. rewrite workspaces_emit, workspace_emit, workspace_modify.
    rewrite (workspaces_modify _ _ _ _ Hws), list_insert_insert_eq.
    simpl. apply list_insert_id. rewrite Hws. f_equal. by destruct ws.
  - rewrite trace_emit, trace_modify. unfold s1. rewrite trace_emit, trace_modify.
    rewrite <-app_assoc. simpl. by do 3 f_equal.
Qed.

Lemma toggle_focus_type_stays (s : velox) (ws : velox_workspace) :
  workspaces s !! workspace s = Some ws →
  windows_in (other_type (focus_type ws)) ws = [] →
  toggle_focus_type s = Done s.
Proof.
  intros Hws Hnil.
  rewrite (toggle_focus_type_result s ws Hws), (set_focus_type_result _ s ws Hws).
  rewrite decide_False; [done|]. by intros [_ ?].
Qed.

(** X6: [toggle_focus_type] returns the state as it is when the list of the
    other focus type is empty.  When the workspace in use has tiled and
    floated windows, the first call switches to the other focus type, and a
    second call restores the registry; the two calls make two [focus] calls,
    on the focused window of the other mode, then on the one of the original
    mode. *)
Theorem toggle_focus_type_toggles (s : velox) (ws : velox_workspace) :
  workspaces s !! workspace s = Some ws →
  (windows_in (other_type (focus_type ws)) ws = [] → toggle_focus_type s = Done s) ∧
  (tiled_windows ws ≠ [] → floated_windows ws ≠ [] →
   ∃ s1 s2 ws1,
     toggle_focus_type s = Done s1 ∧
     workspaces s1 !! workspace s = Some ws1 ∧
     focus_type ws1 = other_type (focus_type ws) ∧
     toggle_focus_type s1 = Done s2 ∧
     workspaces s2 = workspaces s ∧ workspace s2 = workspace s ∧
     floating s2 = floating s ∧
     trace s2 = trace s ++ [Focus (focused ws1); Focus (focused ws)]).
Proof.
  intros Hws. split.
  - by apply toggle_focus_type_stays.
  - by apply toggle_focus_type_twice.
Qed.

(** X6 at a workspace in [FLOAT] mode with tiled windows [1; 2] and floated
    windows [3; 4]. *)
Lemma toggle_focus_type_toggles_mixed :
  ∃ s1 s2 ws1,
    toggle_focus_type mixed = Done s1 ∧
    workspaces s1 !! 0 = Some ws1 ∧ focus_type ws1 = TILE ∧
    toggle_focus_type s1 = Done s2 ∧
    workspaces s2 = workspaces mixed ∧
    trace s2 = [Focus (link_entry (node 1)); Focus (link_entry (node 3))].
Proof.
  destruct (toggle_focus_type_toggles mixed (make_workspace FLOAT [1; 2] (node 1) [3; 4])
    eq_refl) as [_ Htwice].
  destruct Htwice as (s1 & s2 & ws1 & Hrun1 & Hws1 & Hft & Hrun2 & Hw & _ & _ & Htr);
    [done..|].
  exists s1, s2, ws1. split_and!; try done.
  rewrite Htr. vm_compute in Hrun1. injection Hrun1 as <-.
  vm_compute in Hws1. injection Hws1 as <-. reflexivity.
Defined.

(** ** Neighbours in a list *)

Section list_h_neighbours.
Context {A : Type} `{EqDecision A}.
Implicit Types (a b x : A) (l : list A).

Lemma list_prev_link_of_next l a b :
  NoDup l → list_next_link l (node a) = Some (node b) →
  list_prev_link l (node b) = Some (node a).
Proof.
  intros Hnd Hnext.
  pose proof (list_next_link_Some_elem _ _ _ Hnext) as Ha.
  apply list_elem_of_split_l in Ha as (l1 & l2 & -> & Hin1).
  rewrite list_next_link_split in Hnext by done.
  destruct l2 as [|c l2].
  - destruct l1 as [|c l1]; simpl in Hnext; simplify_eq.
    + by rewrite (list_prev_link_split [] [] b).
    + rewrite (list_prev_link_split [] (l1 ++ [a]) b) by set_solver. simpl.
      f_equal. rewrite app_comm_cons. apply list_last_link_snoc.
  - simplify_eq.
    replace (l1 ++ a :: b :: l2) with ((l1 ++ [a]) ++ b :: l2) in *
      by (by rewrite <-app_assoc).
    apply NoDup_app in Hnd as (_ & Hd & [Hin2 _]%NoDup_cons).
    rewrite list_prev_link_split.
    + by rewrite last_snoc.
    + intros Hb. eapply Hd; [done|]. by left.
Qed.

Lemma list_next_link_of_prev l a b :
  NoDup l → a ∈ l → list_prev_link l (node a) = Some (node b) →
  list_next_link l (node b) = Some (node a).
Proof.
  intros Hnd Ha Hprev.
  apply list_elem_of_split_l in Ha as (l1 & l2 & -> & Hin1).
  rewrite list_prev_link_split in Hprev by done.
  destruct (last l1) as [c|] eqn:Hlast.
  - simplify_eq. apply last_Some in Hlast as [l' ->].
    rewrite <-app_assoc in *. simpl in *.
    apply NoDup_app in Hnd as (_ & Hd & _).
    rewrite list_next_link_split; [done|].
    intros Hb. eapply Hd; [done|]. by left.
  - apply last_None in Hlast as ->. simpl in *.
    destruct l2 as [|c l2 _] using rev_ind.
    + cbn in Hprev. simplify_eq. by rewrite (list_next_link_split [] [] b).
    + rewrite app_comm_cons, list_last_link_snoc in Hprev. simplify_eq.
      apply NoDup_cons in Hnd as [Ha Hnd].
      apply NoDup_app in Hnd as (_ & Hd & _).
      rewrite app_comm_cons. rewrite list_next_link_split; [done|].
      apply not_elem_of_cons. split; [set_solver|].
      intros Hb. eapply Hd; [done|]. by left.
Qed.

(** The successor of the node at position [i] is the node at position
    [i + 1], or the first one after the last. *)
Lemma list_next_link_lookup l i a :
  NoDup l → l !! i = Some a →
  ∃ b, list_next_link l (node a) = Some (node b) ∧ l !! (S i mod length l) = Some b.
Proof.
  intros Hnd Hi.
  pose proof (lookup_lt_Some _ _ _ Hi) as Hlt.
  pose proof (take_drop_middle _ _ _ Hi) as Hl.
  assert (a ∉ take i l) as Hin.
  { rewrite <-Hl in Hnd. apply NoDup_app in Hnd as (_ & Hd & _).
    intros Ha. eapply Hd; [done|]. by left. }
  assert (list_next_link l (node a) =
    list_next_link (take i l ++ a :: drop (S i) l) (node a)) as -> by (by rewrite Hl).
  rewrite list_next_link_split by done.
  destruct (drop (S i) l) as [|b l2] eqn:Hdrop.
  - assert (S i = length l) as Hlen.
    { apply (f_equal length) in Hdrop. rewrite length_drop in Hdrop. simpl in Hdrop. lia. }
    rewrite Hlen, Nat.Div0.mod_same.
    destruct l as [|c l]; [done|]. exists c. split; [|done].
    destruct i; [by simplify_eq/=|done].
  - exists b. split; [done|].
    assert (S i < length l) as Hlt'.
    { apply (f_equal length) in Hdrop. rewrite length_drop in Hdrop. simpl in Hdrop. lia. }
    rewrite Nat.mod_small by done.
    rewrite <-(Nat.add_0_r (S i)), <-lookup_drop, Hdrop. done.
Qed.

Lemma swapped_comm a b x : swapped a b x = swapped b a x.
Proof. unfold swapped. repeat case_decide; congruence. Qed.

Lemma NoDup_fmap_swapped a b l : NoDup l → NoDup (swapped a b <$> l).
Proof. apply (NoDup_fmap_2 _ (Inj0 := swapped_inj a b)). Qed.

(** After [link_swap] of a node with its predecessor, the successor of the
    node is its former predecessor. *)
Lemma list_next_link_swapped l a b :
  NoDup l → a ∈ l → list_prev_link l (node a) = Some (node b) →
  list_next_link (swapped a b <$> l) (node a) = Some (node b).
Proof.
  intros Hnd Ha Hprev.
  pose proof (list_next_link_of_prev _ _ _ Hnd Ha Hprev) as Hnext.
  pose proof (list_prev_link_swapped _ _ _ Hnd Hnext) as Hswap.
  rewrite (list_fmap_ext (swapped a b) (swapped b a) l)
    by (intros; apply swapped_comm).
  apply list_next_link_of_prev; [by apply NoDup_fmap_swapped| |done].
  apply elem_of_fmap_swapped. by rewrite swapped_l.
Qed.

End list_h_neighbours.

Lemma length_two_snoc {A} (l : list A) :
  2 ≤ length l → ∃ l' a, l = l' ++ [a] ∧ l' ≠ [].
Proof.
  destruct l as [|a l _] using rev_ind; simpl; [lia|].
  rewrite length_app. simpl. intros Hlen. exists l, a. split; [done|].
  destruct l; simpl in *; [lia|done].
Qed.

Lemma length_two_cons {A} (l : list A) :
  2 ≤ length l → ∃ a l', l = a :: l' ∧ l' ≠ [].
Proof. destruct l as [|a [|b l]]; simpl; try lia. intros _. by exists a, (b :: l). Qed.

Lemma list_is_empty_snoc {A} (l : list A) a : list_is_empty (l ++ [a]) = false.
Proof. by destruct l. Qed.

(** ** [focus_next] and [focus_previous] *)

(** [focus_next] in tiled mode. *)
Lemma focus_next_tiled s ws w x :
  workspaces s !! workspace s = Some ws → focus_type ws = TILE →
  list_is_trivial (tiled_windows ws) = false →
  tiled_focus ws = node w →
  list_next_link (tiled_windows ws) (node w) = Some (node x) →
  focus_next s =
    Done (emit (Focus (link_entry (node x)))
            (modify (workspace s) (with_tiled_focus (node x)) s)).
Proof.
  intros Hws Hft Htriv Hfocus Hnext. unfold focus_next.
  rewrite (workspace_at_Done _ _ _ Hws). simpl.
  by rewrite Hft, Htriv, Hfocus, Hnext.
Qed.

Lemma focus_previous_tiled s ws w x :
  workspaces s !! workspace s = Some ws → focus_type ws = TILE →
  list_is_trivial (tiled_windows ws) = false →
  tiled_focus ws = node w →
  list_prev_link (tiled_windows ws) (node w) = Some (node x) →
  focus_previous s =
    Done (emit (Focus (link_entry (node x)))
            (modify (workspace s) (with_tiled_focus (node x)) s)).
Proof.
  intros Hws Hft Htriv Hfocus Hnext. unfold focus_previous.
  rewrite (workspace_at_Done _ _ _ Hws). simpl.
  by rewrite Hft, Htriv, Hfocus, Hnext.
Qed.

Lemma focus_next_previous_tiled (s : velox) (ws : velox_workspace) :
  registry_ok s → workspaces s !! workspace s = Some ws →
  focus_type ws = TILE → 2 ≤ length (tiled_windows ws) →
  ∃ w x s1 ws1 s2,
    tiled_focus ws = node w ∧
    list_next_link (tiled_windows ws) (node w) = Some (node x) ∧
    focus_next s = Done s1 ∧
    workspaces s1 !! workspace s = Some ws1 ∧ tiled_focus ws1 = node x ∧
    focus_previous s1 = Done s2 ∧
    workspaces s2 = workspaces s ∧ workspace s2 = workspace s ∧
    trace s2 = trace s ++ [Focus (link_entry (node x)); Focus (link_entry (node w))].
Proof.
  intros Hok Hws Hft Hlen.
  pose proof (ok_linked _ Hok) as (_ & Hd & _).
  pose proof (tiled_NoDup _ _ _ Hd Hws) as Hnd.
  apply list_is_trivial_length in Hlen as Htriv.
  destruct (ok_cursor _ Hok _ _ Hws) as (w & Hfocus & Hw);
    [by apply list_is_trivial_false|].
  destruct (list_next_link_elem _ _ Hw) as (x & Hnext & Hx).
  set (s1 := emit (Focus (link_entry (node x)))
               (modify (workspace s) (with_tiled_focus (node x)) s)).
  assert (workspaces s1 !! workspace s1 = Some (with_tiled_focus (node x) ws)) as Hws1.
  { unfold s1. rewrite workspaces_emit, workspace_emit, workspace_modify.
    by rewrite lookup_modify, decide_True, Hws. }
  exists w, x, s1, (with_tiled_focus (node x) ws). eexists.
  split; [done|]. split; [done|].
  split; [by apply (focus_next_tiled s ws w x)|].
  split; [done|]. split; [done|].
  split.
  { apply (focus_previous_tiled s1 _ x w Hws1); try done.
    simpl. by apply list_prev_link_of_next. }
  split_and!; try done.
  - rewrite workspaces_emit, (workspaces_modify _ _ _ _ Hws1).
    unfold s1. rewrite workspaces_emit, workspace_emit, workspace_modify.
    rewrite (workspaces_modify _ _ _ _ Hws). apply insert_insert_back.
    rewrite Hws. f_equal. simpl. rewrite <-Hfocus. by destruct ws.
  - rewrite trace_emit, trace_modify. unfold s1. rewrite trace_emit, trace_modify.
    by rewrite <-app_assoc.
Qed.

Lemma focus_previous_next_tiled (s : velox) (ws : velox_workspace) :
  registry_ok s → workspaces s !! workspace s = Some ws →
  focus_type ws = TILE → 2 ≤ length (tiled_windows ws) →
  ∃ w x s1 ws1 s2,
    tiled_focus ws = node w ∧
    list_prev_link (tiled_windows ws) (node w) = Some (node x) ∧
    focus_previous s = Done s1 ∧
    workspaces s1 !! workspace s = Some ws1 ∧ tiled_focus ws1 = node x ∧
    focus_next s1 = Done s2 ∧
    workspaces s2 = workspaces s ∧ workspace s2 = workspace s ∧
    trace s2 = trace s ++ [Focus (link_entry (node x)); Focus (link_entry (node w))].
Proof.
  intros Hok Hws Hft Hlen.
  pose proof (ok_linked _ Hok) as (_ & Hd & _).
  pose proof (tiled_NoDup _ _ _ Hd Hws) as Hnd.
  apply list_is_trivial_length in Hlen as Htriv.
  destruct (ok_cursor _ Hok _ _ Hws) as (w & Hfocus & Hw);
    [by apply list_is_trivial_false|].
  destruct (list_prev_link_elem _ _ Hw) as (x & Hprev & Hx).
  set (s1 := emit (Focus (link_entry (node x)))
               (modify (workspace s) (with_tiled_focus (node x)) s)).
  assert (workspaces s1 !! workspace s1 = Some (with_tiled_focus (node x) ws)) as Hws1.
  { unfold s1. rewrite workspaces_emit, workspace_emit, workspace_modify.
    by rewrite lookup_modify, decide_True, Hws. }
  exists w, x, s1, (with_tiled_focus (node x) ws). eexists.
  split; [done|]. split; [done|].
  split; [by apply (focus_previous_tiled s ws w x)|].
  split; [done|]. split; [done|].
  split.
  { apply (focus_next_tiled s1 _ x w Hws1); try done.
    simpl. by apply list_next_link_of_prev. }
  split_and!; try done.
  - rewrite workspaces_emit, (workspaces_modify _ _ _ _ Hws1).
    unfold s1. rewrite workspaces_emit, workspace_emit, workspace_modify.
    rewrite (workspaces_modify _ _ _ _ Hws). apply insert_insert_back.
    rewrite Hws. f_equal. simpl. rewrite <-Hfocus. by destruct ws.
  - rewrite trace_emit, trace_modify. unfold s1. rewrite trace_emit, trace_modify.
    by rewrite <-app_assoc.
Qed.

Lemma focus_next_floated s ws w l :
  registry_ok s → workspaces s !! workspace s = Some ws → focus_type ws = FLOAT →
  floated_windows ws = l ++ [w] → l ≠ [] →
  ∃ s', focus_next s = Done s' ∧
    workspaces s' = <[workspace s := with_floated_windows (w :: l) ws]> (workspaces s) ∧
    workspace s' = workspace s ∧ floating s' = floating s ∧
    trace s' = trace s ++ [Focus (link_entry (node w))].
Proof.
  intros Hok Hws Hft Hfl Hl.
  pose proof (ok_linked _ Hok) as (_ & Hd & _).
  pose proof (proj1 Hd _ _ Hws) as Hnd.
  assert (w ∈ windows_of ws) as Hw by (apply elem_of_app; right; rewrite Hfl; set_solver).
  unfold focus_next. rewrite (workspace_at_Done _ _ _ Hws). simpl.
  rewrite Hft, Hfl, list_last_link_snoc.
  assert (list_is_trivial (l ++ [w]) = false) as -> by (by destruct l as [|? [|? ?]]).
  simpl. eexists. split; [done|]. unfold focus, restack. autorewrite with registry.
  split_and!; try done.
  rewrite (workspaces_moved_within s _ (workspace s) ws w
    (λ wk, with_floated_windows (w :: floated_windows wk) wk) Hd Hws Hw).
  - rewrite (unlink_floated ws w l []) by done. rewrite app_nil_r. done.
  - intros k. by rewrite lookup_link_move_after.
Qed.

Lemma focus_previous_floated s ws w l :
  registry_ok s → workspaces s !! workspace s = Some ws → focus_type ws = FLOAT →
  floated_windows ws = w :: l → l ≠ [] →
  ∃ s', focus_previous s = Done s' ∧
    workspaces s' = <[workspace s := with_floated_windows (l ++ [w]) ws]> (workspaces s) ∧
    workspace s' = workspace s ∧ floating s' = floating s ∧
    trace s' = trace s ++ [Focus (link_entry (node w))].
Proof.
  intros Hok Hws Hft Hfl Hl.
  pose proof (ok_linked _ Hok) as (_ & Hd & _).
  pose proof (proj1 Hd _ _ Hws) as Hnd.
  assert (w ∈ windows_of ws) as Hw by (apply elem_of_app; right; rewrite Hfl; set_solver).
  unfold focus_previous. rewrite (workspace_at_Done _ _ _ Hws). simpl.
  rewrite Hft, Hfl.
  assert (list_is_trivial (w :: l) = false) as -> by (by destruct l).
  simpl. eexists. split; [done|]. unfold focus, restack. autorewrite with registry.
  split_and!; try done.
  rewrite (workspaces_moved_within s _ (workspace s) ws w
    (λ wk, with_floated_windows (floated_windows wk ++ [w]) wk) Hd Hws Hw).
  - rewrite (unlink_floated ws w [] l) by done. done.
  - intros k. by rewrite lookup_link_move_before.
Qed.

Lemma focus_next_previous_floated s ws :
  registry_ok s → workspaces s !! workspace s = Some ws →
  focus_type ws = FLOAT → 2 ≤ length (floated_windows ws) →
  ∃ w l s1 ws1 s2,
    floated_windows ws = l ++ [w] ∧
    focus_next s = Done s1 ∧
    workspaces s1 !! workspace s = Some ws1 ∧ floated_windows ws1 = w :: l ∧
    focus_previous s1 = Done s2 ∧
    workspaces s2 = workspaces s ∧ workspace s2 = workspace s ∧
    trace s2 = trace s ++ [Focus (link_entry (node w)); Focus (link_entry (node w))].
Proof.
  intros Hok Hws Hft (l & w & Hfl & Hl)%length_two_snoc.
  destruct (focus_next_floated s ws w l) as (s1 & Hrun1 & Hw1 & Hc1 & _ & Htr1); try done.
  destruct (focus_next_ok s Hok) as (s1' & Hrun1' & Hok1 & _).
  assert (s1' = s1) as -> by congruence.
  assert (workspaces s1 !! workspace s1 = Some (with_floated_windows (w :: l) ws)) as Hws1.
  { rewrite Hw1, Hc1. by rewrite (lookup_insert_decide _ _ _ _ _ Hws), decide_True. }
  destruct (focus_previous_floated s1 _ w l Hok1 Hws1) as (s2 & Hrun2 & Hw2 & Hc2 & _ & Htr2);
    try done.
  exists w, l, s1, (with_floated_windows (w :: l) ws), s2.
  rewrite <-Hc1. split_and!; try done.
  - rewrite Hw2, Hw1, Hc1. apply insert_insert_back. rewrite Hws. f_equal.
    simpl. rewrite <-Hfl. by destruct ws.
  - by rewrite Htr2, Htr1, <-app_assoc.
Qed.

Lemma focus_previous_next_floated s ws :
  registry_ok s → workspaces s !! workspace s = Some ws →
  focus_type ws = FLOAT → 2 ≤ length (floated_windows ws) →
  ∃ w l s1 ws1 s2,
    floated_windows ws = w :: l ∧
    focus_previous s = Done s1 ∧
    workspaces s1 !! workspace s = Some ws1 ∧ floated_windows ws1 = l ++ [w] ∧
    focus_next s1 = Done s2 ∧
    workspaces s2 = workspaces s ∧ workspace s2 = workspace s ∧
    trace s2 = trace s ++ [Focus (link_entry (node w)); Focus (link_entry (node w))].
Proof.
  intros Hok Hws Hft (w & l & Hfl & Hl)%length_two_cons.
  destruct (focus_previous_floated s ws w l) as (s1 & Hrun1 & Hw1 & Hc1 & _ & Htr1); try done.
  destruct (focus_previous_ok s Hok) as (s1' & Hrun1' & Hok1 & _).
  assert (s1' = s1) as -> by congruence.
  assert (workspaces s1 !! workspace s1 = Some (with_floated_windows (l ++ [w]) ws)) as Hws1.
  { rewrite Hw1, Hc1. by rewrite (lookup_insert_decide _ _ _ _ _ Hws), decide_True. }
  destruct (focus_next_floated s1 _ w l Hok1 Hws1) as (s2 & Hrun2 & Hw2 & Hc2 & _ & Htr2);
    try done.
  exists w, l, s1, (with_floated_windows (l ++ [w]) ws), s2.
  rewrite <-Hc1. split_and!; try done.
  - rewrite Hw2, Hw1, Hc1. apply insert_insert_back. rewrite Hws. f_equal.
    simpl. rewrite <-Hfl. by destruct ws.
  - by rewrite Htr2, Htr1, <-app_assoc.
Qed.

Lemma focus_next_trivial s ws :
  workspaces s !! workspace s = Some ws →
  list_is_trivial (windows_in (focus_type ws) ws) = true →
  focus_next s = Done s ∧ focus_previous s = Done s.
Proof.
  intros Hws Htriv. unfold focus_next, focus_previous.
  rewrite (workspace_at_Done _ _ _ Hws). simpl.
  destruct (focus_type ws); simpl in Htriv; by rewrite Htriv.
Qed.

Lemma focus_next_floating s s' : focus_next s = Done s' → floating s' = floating s.
Proof.
  unfold focus_next. destruct (workspace_at _ s) as [ws|]; simpl; [|done].
  destruct (focus_type ws); destruct (list_is_trivial _); try (by intros [= <-]).
  - destruct (linked _) as [next|]; simpl; [|done]. by intros [= <-].
  - destruct (node_of _) as [w|]; simpl; [|done]. intros [= <-].
    unfold focus, restack. by autorewrite with registry.
Qed.

Lemma focus_previous_floating s s' : focus_previous s = Done s' → floating s' = floating s.
Proof.
  unfold focus_previous. destruct (workspace_at _ s) as [ws|]; simpl; [|done].
  destruct (focus_type ws); destruct (list_is_trivial _); try (by intros [= <-]).
  - destruct (linked _) as [next|]; simpl; [|done]. by intros [= <-].
  - destruct (node_of _) as [w|]; simpl; [|done]. intros [= <-].
    unfold focus, restack. autorewrite with registry. apply floating_link_move_before.
Qed.

(** X7: from a registry in order, [focus_next] followed by [focus_previous]
    restores the registry, in either focus type and whatever the length of
    the list: the tiled cursor is back on its window, the floated list back
    in its order; [workspace] and the floating flags are unchanged. *)
Theorem focus_next_then_focus_previous (s : velox) :
  registry_ok s →
  ∃ s1 s2,
    focus_next s = Done s1 ∧ focus_previous s1 = Done s2 ∧
    workspaces s2 = workspaces s ∧ workspace s2 = workspace s ∧
    floating s2 = floating s.
Proof.
  intros Hok.
  destruct (workspace_at_lt s (workspace s)) as (ws & Hws & _); [apply Hok|].
  destruct (list_is_trivial (windows_in (focus_type ws) ws)) eqn:Htriv.
  { destruct (focus_next_trivial s ws Hws Htriv) as [Hn Hp]. by exists s, s. }
  apply list_is_trivial_length in Htriv.
  destruct (focus_next_ok s Hok) as (s1 & Hrun1 & Hok1 & _).
  destruct (focus_previous_ok s1 Hok1) as (s2 & Hrun2 & Hok2 & _).
  exists s1, s2. split; [done|]. split; [done|].
  assert (floating s2 = floating s) as Hfloating.
  { rewrite (focus_previous_floating _ _ Hrun2). by apply focus_next_floating. }
  destruct (focus_type ws) eqn:Hft; simpl in Htriv.
  - destruct (focus_next_previous_tiled s ws Hok Hws Hft Htriv)
      as (w & x & s1' & ws1 & s2' & _ & _ & Hrun1' & _ & _ & Hrun2' & Hw & Hc & _).
    assert (s1' = s1) as -> by congruence.
    by assert (s2' = s2) as -> by congruence.
  - destruct (focus_next_previous_floated s ws Hok Hws Hft Htriv)
      as (w & l & s1' & ws1 & s2' & _ & Hrun1' & _ & _ & Hrun2' & Hw & Hc & _).
    assert (s1' = s1) as -> by congruence.
    by assert (s2' = s2) as -> by congruence.
Qed.

(** X7 at the registry of section 8. *)
Lemma focus_next_then_focus_previous_three_tiled :
  registry_ok three_tiled ∧
  ∃ s1 s2,
    focus_next three_tiled = Done s1 ∧ focus_previous s1 = Done s2 ∧
    workspaces s2 = workspaces three_tiled ∧ workspace s2 = workspace three_tiled ∧
    floating s2 = floating three_tiled.
Proof.
  assert (registry_ok three_tiled) as Hok by (apply registry_okb_sound; vm_compute; reflexivity).
  split; [exact Hok|]. exact (focus_next_then_focus_previous three_tiled Hok).
Defined.

(** X8: from a registry in order, [focus_previous] followed by [focus_next]
    restores the registry, in either focus type and whatever the length of
    the list; [workspace] and the floating flags are unchanged. *)
Theorem focus_previous_then_focus_next (s : velox) :
  registry_ok s →
  ∃ s1 s2,
    focus_previous s = Done s1 ∧ focus_next s1 = Done s2 ∧
    workspaces s2 = workspaces s ∧ workspace s2 = workspace s ∧
    floating s2 = floating s.
Proof.
  intros Hok.
  destruct (workspace_at_lt s (workspace s)) as (ws & Hws & _); [apply Hok|].
  destruct (list_is_trivial (windows_in (focus_type ws) ws)) eqn:Htriv.
  { destruct (focus_next_trivial s ws Hws Htriv) as [Hn Hp]. by exists s, s. }
  apply list_is_trivial_length in Htriv.
  destruct (focus_previous_ok s Hok) as (s1 & Hrun1 & Hok1 & _).
  destruct (focus_next_ok s1 Hok1) as (s2 & Hrun2 & Hok2 & _).
  exists s1, s2. split; [done|]. split; [done|].
  assert (floating s2 = floating s) as Hfloating.
  { rewrite (focus_next_floating _ _ Hrun2). by apply focus_previous_floating. }
  destruct (focus_type ws) eqn:Hft; simpl in Htriv.
  - destruct (focus_previous_next_tiled s ws Hok Hws Hft Htriv)
      as (w & x & s1' & ws1 & s2' & _ & _ & Hrun1' & _ & _ & Hrun2' & Hw & Hc & _).
    assert (s1' = s1) as -> by congruence.
    by assert (s2' = s2) as -> by congruence.
  - destruct (focus_previous_next_floated s ws Hok Hws Hft Htriv)
      as (w & l & s1' & ws1 & s2' & _ & Hrun1' & _ & _ & Hrun2' & Hw & Hc & _).
    assert (s1' = s1) as -> by congruence.
    by assert (s2' = s2) as -> by congruence.
Qed.

(** X8 at a workspace in [FLOAT] mode with floated windows [3; 4]. *)
Lemma focus_previous_then_focus_next_mixed :
  registry_ok mixed ∧
  ∃ s1 s2,
    focus_previous mixed = Done s1 ∧ focus_next s1 = Done s2 ∧
    workspaces s2 = workspaces mixed ∧ workspace s2 = workspace mixed ∧
    floating s2 = floating mixed.
Proof.
  assert (registry_ok mixed) as Hok by (apply registry_okb_sound; vm_compute; reflexivity).
  split; [exact Hok|]. exact (focus_previous_then_focus_next mixed Hok).
Defined.

Lemma focus_next_repeated n : ∀ s ws i a,
  workspaces s !! workspace s = Some ws → focus_type ws = TILE →
  NoDup (tiled_windows ws) → 2 ≤ length (tiled_windows ws) →
  tiled_windows ws !! i = Some a → tiled_focus ws = node a →
  ∃ s' b,
    repeat_command n focus_next s = Done s' ∧
    tiled_windows ws !! ((i + n) mod length (tiled_windows ws)) = Some b ∧
    workspaces s' = <[workspace s := with_tiled_focus (node b) ws]> (workspaces s) ∧
    workspace s' = workspace s ∧ floating s' = floating s.
Proof.
  induction n as [|n IH]; intros s ws i a Hws Hft Hnd Hlen Hi Hfocus.
  - exists s, a. split; [done|].
    rewrite Nat.add_0_r, Nat.mod_small by by eapply lookup_lt_Some.
    split; [done|]. split; [|done].
    symmetry. apply list_insert_id. rewrite Hws. f_equal. symmetry.
    by apply with_tiled_focus_id.
  - destruct (list_next_link_lookup _ _ _ Hnd Hi) as (b & Hnext & Hb).
    simpl. rewrite (focus_next_tiled s ws a b) by (try done; by apply list_is_trivial_length).
    simpl.
    set (s1 := emit _ _).
    destruct (IH s1 (with_tiled_focus (node b) ws) (S i mod length (tiled_windows ws)) b)
      as (s' & c & Hrun & Hc & Hw & Hcur & Hfl); try done.
    { unfold s1. rewrite workspaces_emit, workspace_emit, workspace_modify.
      by rewrite lookup_modify, decide_True, Hws. }
    exists s', c. split; [done|]. split.
    { simpl in Hc. rewrite <-Hc. f_equal.
      rewrite Nat.Div0.add_mod_idemp_l. f_equal. lia. }
    split; [|done].
    rewrite Hw. unfold s1. rewrite workspaces_emit, workspace_emit, workspace_modify.
    rewrite (workspaces_modify _ _ _ _ Hws). by rewrite list_insert_insert_eq.
Qed.

Lemma focus_next_cycles_tiled (s : velox) (ws : velox_workspace) :
  registry_ok s → workspaces s !! workspace s = Some ws → focus_type ws = TILE →
  ∃ s',
    repeat_command (length (tiled_windows ws)) focus_next s = Done s' ∧
    workspaces s' = workspaces s ∧ workspace s' = workspace s ∧
    floating s' = floating s.
Proof.
  intros Hok Hws Hft.
  destruct (list_is_trivial (tiled_windows ws)) eqn:Htriv.
  { exists s. split; [|done].
    assert (focus_next s = Done s) as Hnoop.
    { apply (focus_next_trivial s ws Hws). by rewrite Hft. }
    destruct (tiled_windows ws) as [|? [|? ?]]; simpl in *; try done.
    by rewrite Hnoop. }
  apply list_is_trivial_length in Htriv.
  pose proof (tiled_NoDup _ _ _ (proj1 (proj2 (ok_linked _ Hok))) Hws) as Hnd.
  destruct (ok_cursor _ Hok _ _ Hws) as (a & Hfocus & Ha).
  { intros Hnil. rewrite Hnil in Htriv. simpl in Htriv. lia. }
  apply list_elem_of_lookup_1 in Ha as [i Hi].
  destruct (focus_next_repeated (length (tiled_windows ws)) s ws i a)
    as (s' & b & Hrun & Hb & Hw & Hcur & Hfl); try done.
  exists s'. split; [done|]. split; [|done].
  rewrite Hw. apply list_insert_id. rewrite Hws. f_equal. symmetry.
  apply with_tiled_focus_id. rewrite Hfocus. f_equal.
  replace ((i + length (tiled_windows ws)) mod length (tiled_windows ws)) with i in Hb.
  - congruence.
  - apply (Nat.mod_unique _ _ 1); [by eapply lookup_lt_Some|lia].
Qed.

Lemma repeat_command_snoc n (c : velox → outcome velox) s :
  repeat_command (S n) c s = (s ← repeat_command n c s; c s).
Proof.
  revert s. induction n as [|n IH]; intros s.
  - simpl. destruct (c s); reflexivity.
  - simpl. destruct (c s) as [s1|]; simpl; [|done]. apply IH.
Qed.

(** [k] calls of [focus_next] in floating mode bring the last [k] floated
    windows to the front. *)
Lemma focus_next_rotates k s ws :
  registry_ok s → workspaces s !! workspace s = Some ws → focus_type ws = FLOAT →
  2 ≤ length (floated_windows ws) → k ≤ length (floated_windows ws) →
  ∃ s',
    repeat_command k focus_next s = Done s' ∧ registry_ok s' ∧
    workspaces s' =
      <[workspace s :=
          with_floated_windows
            (drop (length (floated_windows ws) - k) (floated_windows ws) ++
             take (length (floated_windows ws) - k) (floated_windows ws)) ws]>
        (workspaces s) ∧
    workspace s' = workspace s ∧ floating s' = floating s.
Proof.
  intros Hok Hws Hft Hlen. set (L := floated_windows ws) in *.
  induction k as [|k IH]; intros Hk.
  - exists s. split; [done|]. split; [done|]. split; [|done].
    rewrite Nat.sub_0_r, drop_all, take_ge by done. simpl.
    symmetry. apply list_insert_id. rewrite Hws. f_equal. by destruct ws.
  - destruct IH as (s1 & Hrun1 & Hok1 & Hw1 & Hc1 & Hf1); [lia|].
    rewrite repeat_command_snoc, Hrun1. simpl.
    destruct (lookup_lt_is_Some_2 L (length L - S k)) as [x Hx]; [lia|].
    set (l := drop (length L - k) L ++ take (length L - S k) L).
    assert (drop (length L - k) L ++ take (length L - k) L = l ++ [x]) as Hsplit.
    { unfold l. rewrite <-app_assoc. f_equal.
      replace (length L - k) with (S (length L - S k)) by lia.
      by apply take_S_r. }
    assert (l ≠ []) as Hl.
    { intros Hnil. apply (f_equal length) in Hnil. unfold l in Hnil.
      rewrite length_app, length_drop, length_take in Hnil. simpl in Hnil. lia. }
    set (ws1 := with_floated_windows (l ++ [x]) ws).
    assert (workspaces s1 !! workspace s1 = Some ws1) as Hws1.
    { rewrite Hw1, Hc1, Hsplit. by apply (lookup_insert_eq_Some _ _ _ ws). }
    destruct (focus_next_floated s1 ws1 x l Hok1 Hws1)
      as (s' & Hrun & Hw' & Hc' & Hf' & _); try done.
    destruct (focus_next_ok s1 Hok1) as (s'' & Hrun' & Hok' & _).
    assert (s'' = s') as -> by congruence.
    exists s'. split; [done|]. split; [done|]. split; [|split; congruence].
    rewrite Hw', Hc1, Hw1, list_insert_insert_eq. f_equal.
    unfold ws1, with_floated_windows. simpl. f_equal. unfold l.
    rewrite (drop_S L x (length L - S k)) by done.
    replace (S (length L - S k)) with (length L - k) by lia. done.
Qed.

Lemma focus_next_cycles_floated s ws :
  registry_ok s → workspaces s !! workspace s = Some ws → focus_type ws = FLOAT →
  ∃ s',
    repeat_command (length (floated_windows ws)) focus_next s = Done s' ∧
    workspaces s' = workspaces s ∧ workspace s' = workspace s ∧
    floating s' = floating s.
Proof.
  intros Hok Hws Hft.
  destruct (list_is_trivial (floated_windows ws)) eqn:Htriv.
  { exists s. split; [|done].
    assert (focus_next s = Done s) as Hnoop.
    { apply (focus_next_trivial s ws Hws). by rewrite Hft. }
    destruct (floated_windows ws) as [|? [|? ?]]; simpl in *; try done.
    by rewrite Hnoop. }
  apply list_is_trivial_length in Htriv.
  destruct (focus_next_rotates (length (floated_windows ws)) s ws)
    as (s' & Hrun & _ & Hw & Hc & Hf); try done.
  exists s'. split; [done|]. split; [|done].
  rewrite Hw, Nat.sub_diag. simpl. rewrite app_nil_r.
  apply list_insert_id. rewrite Hws. f_equal. by destruct ws.
Qed.

(** X9: [focus_next] cycles: from a registry in order, as many calls as the
    list of the focus type of the workspace in use has windows return and
    leave every workspace of the registry, with its lists, cursor and focus
    type, [workspace] and the floating flags as they were. *)
Theorem focus_next_cycles (s : velox) (ws : velox_workspace) :
  registry_ok s → workspaces s !! workspace s = Some ws →
  ∃ s',
    repeat_command (length (windows_in (focus_type ws) ws)) focus_next s = Done s' ∧
    workspaces s' = workspaces s ∧ workspace s' = workspace s ∧
    floating s' = floating s.
Proof.
  intros Hok Hws. destruct (focus_type ws) eqn:Hft; simpl.
  - by apply focus_next_cycles_tiled.
  - by apply focus_next_cycles_floated.
Qed.

(** X9 at the registry of section 8: three calls for three tiled
    windows. *)
Lemma focus_next_cycles_three_tiled :
  registry_ok three_tiled ∧
  ∃ s',
    repeat_command 3 focus_next three_tiled = Done s' ∧
    workspaces s' = workspaces three_tiled ∧ workspace s' = workspace three_tiled ∧
    floating s' = floating three_tiled.
Proof.
  assert (registry_ok three_tiled) as Hok by (apply registry_okb_sound; vm_compute; reflexivity).
  split; [exact Hok|].
  exact (focus_next_cycles three_tiled (make_workspace TILE [1; 2; 3] (node 2) [])
    Hok eq_refl).
Defined.

Lemma repeat_command_add a b (c : velox → outcome velox) s :
  repeat_command (a + b) c s = (s1 ← repeat_command a c s; repeat_command b c s1).
Proof.
  revert s. induction a as [|a IH]; intros s; [done|].
  simpl. destruct (c s) as [s1|]; simpl; [apply IH|done].
Qed.

Lemma focus_next_repeated_trivial k s ws :
  workspaces s !! workspace s = Some ws →
  list_is_trivial (windows_in (focus_type ws) ws) = true →
  repeat_command k focus_next s = Done s.
Proof.
  intros Hws Htriv. induction k as [|k IH]; [done|].
  simpl. by rewrite (proj1 (focus_next_trivial s ws Hws Htriv)).
Qed.

(** Whole rounds of [focus_next] in floating mode. *)
Lemma focus_next_rounds q : ∀ s ws,
  registry_ok s → workspaces s !! workspace s = Some ws → focus_type ws = FLOAT →
  2 ≤ length (floated_windows ws) →
  ∃ s',
    repeat_command (q * length (floated_windows ws)) focus_next s = Done s' ∧
    registry_ok s' ∧ workspaces s' = workspaces s ∧ workspace s' = workspace s ∧
    floating s' = floating s.
Proof.
  induction q as [|q IH]; intros s ws Hok Hws Hft Hlen; [by exists s|].
  change (S q * length (floated_windows ws))
    with (length (floated_windows ws) + q * length (floated_windows ws)).
  rewrite repeat_command_add.
  destruct (focus_next_rotates (length (floated_windows ws)) s ws)
    as (s1 & -> & Hok1 & Hw1 & Hc1 & Hf1); try done.
  assert (workspaces s1 = workspaces s) as Hsame.
  { rewrite Hw1, Nat.sub_diag. simpl. rewrite app_nil_r.
    apply list_insert_id. rewrite Hws. f_equal. by destruct ws. }
  simpl. destruct (IH s1 ws) as (s' & Hrun & Hok' & Hw' & Hc' & Hf'); try done.
  { by rewrite Hsame, Hc1. }
  exists s'. split_and!; congruence.
Qed.

(** Any number of calls of [focus_next] in floating mode: the list is
    rotated by the remainder. *)
Lemma focus_next_rotates_any k s ws :
  registry_ok s → workspaces s !! workspace s = Some ws → focus_type ws = FLOAT →
  2 ≤ length (floated_windows ws) →
  ∃ s',
    repeat_command k focus_next s = Done s' ∧
    workspaces s' =
      <[workspace s :=
          with_floated_windows
            (drop (length (floated_windows ws) - k mod length (floated_windows ws))
               (floated_windows ws) ++
             take (length (floated_windows ws) - k mod length (floated_windows ws))
               (floated_windows ws)) ws]>
        (workspaces s) ∧
    workspace s' = workspace s ∧ floating s' = floating s.
Proof.
  intros Hok Hws Hft Hlen. set (n := length (floated_windows ws)) in *.
  assert (k = k / n * n + k mod n) as Hk.
  { rewrite (Nat.mul_comm (k / n) n). apply Nat.div_mod_eq. }
  assert (k mod n < n) as Hr by (apply Nat.mod_upper_bound; lia).
  assert (repeat_command k focus_next s =
          repeat_command (k / n * n + k mod n) focus_next s) as -> by (by rewrite <-Hk).
  rewrite repeat_command_add.
  destruct (focus_next_rounds (k / n) s ws) as (s1 & Hrun1 & Hok1 & Hw1 & Hc1 & Hf1);
    try done.
  fold n in Hrun1. rewrite Hrun1. simpl.
  destruct (focus_next_rotates (k mod n) s1 ws) as (s' & Hrun & _ & Hw & Hc & Hf);
    try done.
  { by rewrite Hw1, Hc1. }
  { fold n. lia. }
  exists s'. split; [done|]. fold n in Hw. rewrite Hw, Hw1, Hc1.
  split; [done|]. split; congruence.
Qed.

(** X23: [k] calls of [focus_next], from a registry in order, for every
    [k]: the calls return, and [workspace] and the floating flags are as
    they were.  With fewer than two windows in the list of the focus type
    the registry is as it was.  In tiled mode with at least two tiled windows
    and the cursor on the window at position [i], the cursor is on the
    window at position [(i + k) mod n] of the [n] tiled windows, and nothing
    else of the registry has changed.  In floating mode with at least two
    floated windows the last [k mod n] of the [n] floated windows have been
    brought to the front, in their order, before the others in theirs. *)
Theorem focus_next_advances (k : nat) (s : velox) (ws : velox_workspace) :
  registry_ok s → workspaces s !! workspace s = Some ws →
  ∃ s',
    repeat_command k focus_next s = Done s' ∧
    workspace s' = workspace s ∧ floating s' = floating s ∧
    (list_is_trivial (windows_in (focus_type ws) ws) = true →
     workspaces s' = workspaces s) ∧
    (focus_type ws = TILE → 2 ≤ length (tiled_windows ws) →
     ∀ i a, tiled_windows ws !! i = Some a → tiled_focus ws = node a →
       ∃ b,
         tiled_windows ws !! ((i + k) mod length (tiled_windows ws)) = Some b ∧
         workspaces s' = <[workspace s := with_tiled_focus (node b) ws]> (workspaces s)) ∧
    (focus_type ws = FLOAT → 2 ≤ length (floated_windows ws) →
     workspaces s' =
       <[workspace s :=
           with_floated_windows
             (drop (length (floated_windows ws) - k mod length (floated_windows ws))
                (floated_windows ws) ++
              take (length (floated_windows ws) - k mod length (floated_windows ws))
                (floated_windows ws)) ws]>
         (workspaces s)).
Proof.
  intros Hok Hws.
  destruct (list_is_trivial (windows_in (focus_type ws) ws)) eqn:Htriv.
  { exists s. rewrite (focus_next_repeated_trivial k s ws Hws Htriv).
    split_and!; try done.
    - intros Hft Hlen. rewrite Hft in Htriv. simpl in Htriv.
      apply list_is_trivial_length in Hlen. congruence.
    - intros Hft Hlen. rewrite Hft in Htriv. simpl in Htriv.
      apply list_is_trivial_length in Hlen. congruence. }
  destruct (focus_type ws) eqn:Hft; simpl in Htriv.
  - apply list_is_trivial_length in Htriv as Hlen.
    pose proof (tiled_NoDup _ _ _ (proj1 (proj2 (ok_linked _ Hok))) Hws) as Hnd.
    destruct (ok_cursor _ Hok _ _ Hws) as (a & Hfocus & Ha);
      [by apply list_is_trivial_false|].
    apply list_elem_of_lookup_1 in Ha as [i Hi].
    destruct (focus_next_repeated k s ws i a) as (s' & b & Hrun & Hb & Hw & Hc & Hf);
      try done.
    exists s'. split_and!; try done.
    intros _ _ i' a' Hi' Hfocus'.
    assert (a' = a) as -> by congruence.
    assert (i' = i) as -> by (by eapply NoDup_lookup).
    by exists b.
  - apply list_is_trivial_length in Htriv as Hlen.
    destruct (focus_next_rotates_any k s ws) as (s' & Hrun & Hw & Hc & Hf); try done.
    exists s'. split_and!; done.
Qed.

(** X23 at the registry of section 8: two calls take the cursor from [W2]
    over [W3] round to [W1]. *)
Lemma focus_next_advances_three_tiled :
  registry_ok three_tiled ∧
  ∃ s',
    repeat_command 2 focus_next three_tiled = Done s' ∧
    workspaces s' =
      [make_workspace TILE [1; 2; 3] (node 1) []; make_workspace TILE [] head []].
Proof.
  assert (registry_ok three_tiled) as Hok by (apply registry_okb_sound; vm_compute; reflexivity).
  split; [exact Hok|].
  destruct (focus_next_advances 2 three_tiled
    (make_workspace TILE [1; 2; 3] (node 2) []) Hok eq_refl)
    as (s' & Hrun & _ & _ & _ & Htile & _).
  destruct (Htile eq_refl ltac:(simpl; lia) 1 2 eq_refl eq_refl) as (b & Hb & Hw).
  vm_compute in Hb. injection Hb as <-.
  exists s'. split; [exact Hrun|]. rewrite Hw. reflexivity.
Defined.


(** ** [move_previous] and [move_next] *)

(** X24: in tiled mode with at least two tiled windows, from a registry in
    order, [move_previous] exchanges the focused window with its cyclic
    predecessor in the workspace in use, leaves every other workspace as it
    is, and calls the layout once, on the exchanged list; [move_next] after
    it restores every list of the registry and calls the layout once more,
    on the original list.  Neither of them makes another call, and
    [workspace] and the floating flags stay as they are. *)
Theorem move_previous_then_move_next (s : velox) (ws : velox_workspace) :
  registry_ok s → workspaces s !! workspace s = Some ws →
  focus_type ws = TILE → 2 ≤ length (tiled_windows ws) →
  ∃ w x s1 s2,
    tiled_focus ws = node w ∧
    list_prev_link (tiled_windows ws) (node w) = Some (node x) ∧
    move_previous s = Done s1 ∧
    workspaces s1 = <[workspace s := swap_links w x ws]> (workspaces s) ∧
    trace s1 = trace s ++ arranged (swap_links w x ws) ∧
    move_next s1 = Done s2 ∧
    workspaces s2 = workspaces s ∧ workspace s2 = workspace s ∧
    floating s2 = floating s ∧
    trace s2 = trace s1 ++ arranged ws.
Proof.
  intros Hok Hws Hft Hlen.
  pose proof (ok_linked _ Hok) as (Hlt & Hd & Hlay).
  pose proof (tiled_NoDup _ _ _ Hd Hws) as Hnd.
  apply list_is_trivial_length in Hlen as Htriv.
  destruct (ok_cursor _ Hok _ _ Hws) as (w & Hfocus & Hw);
    [by apply list_is_trivial_false|].
  destruct (list_prev_link_elem _ _ Hw) as (x & Hprev & Hx).
  assert (workspaces (link_swap w x s) = <[workspace s := swap_links w x ws]> (workspaces s))
    as Hswap.
  { apply workspaces_link_swap; try done; apply elem_of_app; by left. }
  assert (registry_ok (link_swap w x s)) as Hok1 by (by eapply registry_ok_link_swap).
  set (ws1 := swap_links w x ws) in *.
  assert (workspaces (link_swap w x s) !! workspace (link_swap w x s) = Some ws1) as Hws1.
  { rewrite workspace_link_swap, lookup_link_swap, Hws. done. }
  assert (move_previous s = Done (emit_all (arranged ws1) (link_swap w x s))) as Hrun1.
  { unfold move_previous. rewrite (workspace_at_Done _ _ _ Hws). simpl.
    rewrite Hft, Htriv, Hfocus, Hprev. simpl.
    apply arrange_arranged; [done|]. intros _. exact (Hlay _ _ Hws). }
  set (s1 := emit_all (arranged ws1) (link_swap w x s)) in *.
  assert (workspaces s1 !! workspace s1 = Some ws1) as Hws1' by done.
  assert (list_next_link (tiled_windows ws1) (node w) = Some (node x)) as Hnext.
  { simpl. by apply list_next_link_swapped. }
  assert (link_swap w x s1 = emit_all (arranged ws1) (with_workspaces (workspaces s) s))
    as Hback.
  { assert (swap_links w x <$> (swap_links w x <$> workspaces s) = workspaces s) as Hinv.
    { rewrite <-list_fmap_compose. rewrite <-(list_fmap_id (workspaces s)) at 2.
      apply list_fmap_ext. intros _ ws0 _. apply swap_links_involutive. }
    unfold s1, link_swap, emit_all, with_workspaces. simpl. by rewrite Hinv. }
  assert (move_next s1 = Done (emit_all (arranged ws) (link_swap w x s1))) as Hrun2.
  { unfold move_next. rewrite (workspace_at_Done _ _ _ Hws1'). simpl.
    rewrite Hft. replace (list_is_trivial (swapped w x <$> tiled_windows ws)) with false.
    2:{ symmetry. apply list_is_trivial_length. by rewrite length_fmap. }
    rewrite Hfocus. simpl in Hnext. rewrite Hnext. simpl.
    apply arrange_arranged; [|intros _; exact (Hlay _ _ Hws)].
    rewrite Hback. exact Hws. }
  exists w, x, s1, (emit_all (arranged ws) (link_swap w x s1)).
  split_and!; try done.
  all: by rewrite Hback.
Qed.

(** X24 at the registry of section 8: from [W1, W2, W3] with the focus on
    [W2], [move_previous] yields [W2, W1, W3] with the cursor still on [W2],
    and [move_next] restores the registry. *)
Lemma move_previous_then_move_next_three_tiled :
  registry_ok three_tiled ∧
  ∃ s1 s2 ws1,
    move_previous three_tiled = Done s1 ∧
    workspaces s1 !! 0 = Some ws1 ∧
    tiled_windows ws1 = [2; 1; 3] ∧ tiled_focus ws1 = node 2 ∧
    move_next s1 = Done s2 ∧
    workspaces s2 = workspaces three_tiled.
Proof.
  assert (registry_ok three_tiled) as Hok by (apply registry_okb_sound; vm_compute; reflexivity).
  split; [exact Hok|].
  destruct (move_previous_then_move_next three_tiled
    (make_workspace TILE [1; 2; 3] (node 2) []) Hok eq_refl eq_refl)
    as (w & x & s1 & s2 & Hw & Hx & Hrun1 & Hw1 & _ & Hrun2 & Hw2 & _).
  { simpl. lia. }
  injection Hw as <-. vm_compute in Hx. injection Hx as <-.
  exists s1, s2, (swap_links 2 1 (make_workspace TILE [1; 2; 3] (node 2) [])).
  split_and!; try done. by rewrite Hw1.
Defined.

(** ** [move_focus_to_workspace], case by case *)

(** [move_focus_to_workspace] in floating mode, to another workspace. *)
Lemma move_focus_to_workspace_floated_across s t ws wt w l :
  registry_ok s →
  workspaces s !! workspace s = Some ws → workspaces s !! t = Some wt →
  workspace s ≠ t →
  focus_type ws = FLOAT → floated_windows ws = w :: l →
  let ws' := with_focus_type (if list_is_empty l then TILE else FLOAT)
               (with_floated_windows l ws) in
  let wt' := with_focus_type (if list_is_empty (tiled_windows wt) then FLOAT else focus_type wt)
               (with_floated_windows (floated_windows wt ++ [w]) wt) in
  move_focus_to_workspace t s =
    Done (emit_all (Focus (focused ws') :: HideWindow w :: arranged ws)
            (with_workspaces (<[t := wt']> (<[workspace s := ws']> (workspaces s))) s)).
Proof.
  intros Hok Hws Hwt Hne Hft Hfl ws' wt'.
  pose proof (ok_linked _ Hok) as (_ & Hd & Hlay).
  pose proof (proj1 Hd _ _ Hws) as Hnd.
  assert (w ∈ windows_of ws) as Hw by (apply elem_of_app; right; rewrite Hfl; set_solver).
  assert (workspaces (link_move_before w (floated_list t) s) =
    <[t := with_floated_windows (floated_windows wt ++ [w]) wt]>
      (<[workspace s := with_floated_windows l ws]> (workspaces s))) as Hw1.
  { pose proof (unlink_floated ws w [] l Hnd Hfl) as Hu. simpl in Hu. rewrite <-Hu.
    apply (workspaces_moved_across s _ (workspace s) t ws wt w
      (λ wk, with_floated_windows (floated_windows wk ++ [w]) wk)); try done.
    intros k. by rewrite lookup_link_move_before. }
  unfold move_focus_to_workspace. rewrite (workspace_at_Done _ _ _ Hws). simpl.
  rewrite Hft, Hfl. simpl. rewrite (workspace_at_Done _ _ _ Hwt). simpl.
  rewrite (link_move_before_as w _ s), Hw1. clear Hw1.
  set (W1 := <[workspace s := with_floated_windows l ws]> (workspaces s)).
  assert (W1 !! workspace s = Some (with_floated_windows l ws)) as HW1
    by (by apply (lookup_insert_eq_Some _ _ _ ws)).
  assert (W1 !! t = Some wt) as HW1t by (unfold W1; by rewrite list_lookup_insert_ne).
  set (wt1 := with_floated_windows (floated_windows wt ++ [w]) wt).
  rewrite (workspace_at_Done _ (workspace s) (with_floated_windows l ws))
    by (simpl; by rewrite list_lookup_insert_ne). simpl.
  rewrite (modify_if _ _ _ _ _ (with_floated_windows l ws))
    by (by rewrite list_lookup_insert_ne).
  set (W2 := <[workspace s := _]> _).
  assert (W2 !! workspace s = Some ws') as HW2.
  { unfold W2. erewrite lookup_insert_eq_Some by (by rewrite list_lookup_insert_ne).
    f_equal. unfold ws'. destruct (list_is_empty l); [done|].
    symmetry. apply with_focus_type_id. exact Hft. }
  assert (W2 !! t = Some wt1) as HW2t.
  { unfold W2. rewrite list_lookup_insert_ne by done. by apply (lookup_insert_eq_Some _ _ _ wt). }
  simpl. rewrite (update_focus_focused _ _ ws') by done. simpl.
  rewrite hide_window_emit_all.
  rewrite (arrange_arranged _ ws') by (try done; intros _; exact (Hlay _ _ Hws)).
  simpl. rewrite emit_all_emit_all.
  rewrite (workspace_at_as _ _ _ wt1) by done. simpl.
  set (cs := Focus _ :: _).
  transitivity (Done (emit_all cs
    (if list_is_empty (tiled_windows wt)
     then modify t (with_focus_type FLOAT) (with_workspaces W2 s)
     else with_workspaces W2 s))); [by destruct (list_is_empty (tiled_windows wt))|].
  rewrite (modify_if _ _ _ _ _ wt1) by done. do 3 f_equal.
  unfold W2, W1.
  rewrite (list_insert_insert_ne _ (workspace s) t) by done.
  rewrite !list_insert_insert_eq. f_equal.
  - unfold wt'. destruct (list_is_empty (tiled_windows wt)); [done|].
    symmetry. by apply with_focus_type_id.
  - f_equal. unfold ws'. destruct (list_is_empty l); [done|].
    symmetry. apply with_focus_type_id. exact Hft.
Qed.

(** [move_focus_to_workspace] in floating mode, to the workspace in use. *)
Lemma move_focus_to_workspace_floated_own s ws w l :
  registry_ok s →
  workspaces s !! workspace s = Some ws →
  focus_type ws = FLOAT → floated_windows ws = w :: l →
  let ws' := with_floated_windows (l ++ [w]) ws in
  move_focus_to_workspace (workspace s) s =
    Done (emit_all (Focus (focused ws') :: HideWindow w :: arranged ws)
            (with_workspaces (<[workspace s := ws']> (workspaces s)) s)).
Proof.
  intros Hok Hws Hft Hfl ws'.
  pose proof (ok_linked _ Hok) as (_ & Hd & Hlay).
  pose proof (proj1 Hd _ _ Hws) as Hnd.
  assert (w ∈ windows_of ws) as Hw by (apply elem_of_app; right; rewrite Hfl; set_solver).
  assert (workspaces (link_move_before w (floated_list (workspace s)) s) =
    <[workspace s := ws']> (workspaces s)) as Hw1.
  { pose proof (unlink_floated ws w [] l Hnd Hfl) as Hu. simpl in Hu.
    rewrite (workspaces_moved_within s _ (workspace s) ws w
      (λ wk, with_floated_windows (floated_windows wk ++ [w]) wk) Hd Hws Hw).
    - by rewrite Hu.
    - intros k. by rewrite lookup_link_move_before. }
  unfold move_focus_to_workspace. rewrite (workspace_at_Done _ _ _ Hws). simpl.
  rewrite Hft, Hfl. simpl.
  rewrite (link_move_before_as w _ s), Hw1. clear Hw1.
  set (W1 := <[workspace s := ws']> (workspaces s)).
  assert (W1 !! workspace s = Some ws') as HW1 by (by apply (lookup_insert_eq_Some _ _ _ ws)).
  rewrite (workspace_at_Done _ (workspace s) ws') by done. simpl.
  rewrite list_is_empty_snoc. simpl.
  rewrite (update_focus_focused _ _ ws') by done. simpl.
  rewrite hide_window_emit_all.
  rewrite (arrange_arranged _ ws') by (try done; intros _; exact (Hlay _ _ Hws)).
  simpl. rewrite emit_all_emit_all.
  rewrite (workspace_at_as _ _ _ ws') by done. simpl.
  set (cs := Focus _ :: _).
  transitivity (Done (emit_all cs
    (if list_is_empty (tiled_windows ws)
     then modify (workspace s) (with_focus_type FLOAT) (with_workspaces W1 s)
     else with_workspaces W1 s))); [by destruct (list_is_empty (tiled_windows ws))|].
  rewrite (modify_if _ _ _ _ _ ws') by done. do 3 f_equal.
  unfold W1. rewrite list_insert_insert_eq. f_equal.
  destruct (list_is_empty (tiled_windows ws)); [|done].
  apply with_focus_type_id. exact Hft.
Qed.

(** [move_focus_to_workspace] in tiled mode, to another workspace. *)
Lemma move_focus_to_workspace_tiled_across s t ws wt w x :
  registry_ok s →
  workspaces s !! workspace s = Some ws → workspaces s !! t = Some wt →
  workspace s ≠ t →
  focus_type ws = TILE → tiled_focus ws = node w →
  list_next_link (tiled_windows ws) (node w) = Some (node x) →
  let rest := filter (λ y, y ≠ w) (tiled_windows ws) in
  let ws' :=
    with_tiled_focus (if list_is_empty rest then head else node x)
      (with_focus_type
         (if list_is_empty rest && negb (list_is_empty (floated_windows ws))
          then FLOAT else TILE)
         (with_tiled_windows rest ws)) in
  let wt' :=
    with_focus_type (if list_is_empty (floated_windows wt) then TILE else focus_type wt)
      (with_tiled_focus (if list_is_empty (tiled_windows wt) then node w else tiled_focus wt)
         (with_tiled_windows (w :: tiled_windows wt) wt)) in
  move_focus_to_workspace t s =
    Done (emit_all (Focus (focused ws') :: HideWindow w :: arranged ws')
            (with_workspaces (<[t := wt']> (<[workspace s := ws']> (workspaces s))) s)).
Proof.
  intros Hok Hws Hwt Hne Hft Hfocus Hnext rest ws' wt'.
  pose proof (list_next_link_Some_elem _ _ _ Hnext) as Hwin.
  pose proof (ok_linked _ Hok) as (_ & Hd & Hlay).
  pose proof (proj1 Hd _ _ Hws) as Hnd.
  assert (w ∈ windows_of ws) as Hw by (apply elem_of_app; by left).
  set (ws1 := with_tiled_windows rest ws).
  set (wt1 := with_tiled_windows (w :: tiled_windows wt) wt).
  assert (workspaces (link_move_after w (tiled_list t) s) =
    <[t := wt1]> (<[workspace s := ws1]> (workspaces s))) as Hw1.
  { unfold ws1, rest. rewrite <-(unlink_tiled ws w) by done.
    apply (workspaces_moved_across s _ (workspace s) t ws wt w
      (λ wk, with_tiled_windows (w :: tiled_windows wk) wk)); try done.
    intros k. by rewrite lookup_link_move_after. }
  unfold move_focus_to_workspace. rewrite (workspace_at_Done _ _ _ Hws). simpl.
  rewrite Hft.
  assert (list_is_empty (tiled_windows ws) = false) as ->
    by (by apply list_is_empty_false, elem_of_not_nil with w).
  rewrite Hfocus. simpl. rewrite Hnext. simpl.
  rewrite (workspace_at_Done _ _ _ Hwt). simpl.
  rewrite (link_move_after_as w _ s), Hw1. clear Hw1.
  set (W1 := <[workspace s := ws1]> (workspaces s)).
  assert (W1 !! workspace s = Some ws1) as HW1 by (by apply (lookup_insert_eq_Some _ _ _ ws)).
  assert (W1 !! t = Some wt) as HW1t by (unfold W1; by rewrite list_lookup_insert_ne).
  rewrite (workspace_at_Done _ t wt1) by (by apply (lookup_insert_eq_Some _ _ _ wt)).
  simpl.
  assert ((match tiled_windows wt with [] => true | _ :: _ => false end)
    = list_is_empty (tiled_windows wt)) as -> by done.
  rewrite (modify_if _ _ _ _ _ wt1) by (by apply (lookup_insert_eq_Some _ _ _ wt)).
  rewrite list_insert_insert_eq.
  set (wt2 := if list_is_empty (tiled_windows wt) then _ else wt1).
  rewrite (workspace_at_Done _ (workspace s) ws1)
    by (simpl; by rewrite list_lookup_insert_ne).
  simpl. fold rest.
  set (flip := list_is_empty rest && negb (list_is_empty (floated_windows ws))).
  rewrite (modify_if _ _ _ _ _ ws1) by (by rewrite list_lookup_insert_ne).
  set (ws3 := if flip then _ else ws1).
  erewrite modify_as by (by apply (lookup_insert_eq_Some _ _ _ ws1); rewrite list_lookup_insert_ne).
  rewrite list_insert_insert_eq.
  set (ws4 := with_tiled_focus _ ws3).
  assert (ws4 = ws') as ->.
  { unfold ws4, ws3, ws', ws1. rewrite with_focus_type_if. simpl. rewrite Hft. done. }
  set (W4 := <[workspace s := ws']> _).
  assert (W4 !! workspace s = Some ws') as HW4
    by (by apply (lookup_insert_eq_Some _ _ _ ws1); rewrite list_lookup_insert_ne).
  assert (W4 !! t = Some wt2) as HW4t.
  { unfold W4. rewrite list_lookup_insert_ne by done. by apply (lookup_insert_eq_Some _ _ _ wt). }
  rewrite (update_focus_focused _ _ ws') by done. simpl.
  rewrite hide_window_emit_all.
  rewrite (arrange_arranged _ ws') by (try done; intros _; exact (Hlay _ _ Hws)).
  simpl. rewrite emit_all_emit_all.
  rewrite (workspace_at_as _ _ _ wt2) by done. simpl.
  set (cs := Focus _ :: _).
  assert (floated_windows wt2 = floated_windows wt) as ->
    by (unfold wt2; by destruct (list_is_empty (tiled_windows wt))).
  transitivity (Done (emit_all cs
    (if list_is_empty (floated_windows wt)
     then modify t (with_focus_type TILE) (with_workspaces W4 s)
     else with_workspaces W4 s))); [by destruct (list_is_empty (floated_windows wt))|].
  rewrite (modify_if _ _ _ _ _ wt2) by done. do 3 f_equal.
  unfold W4, W1.
  rewrite (list_insert_insert_ne _ (workspace s) t) by done.
  rewrite !list_insert_insert_eq. f_equal.
  unfold wt', wt2. rewrite with_focus_type_if, with_tiled_focus_if.
  by destruct (list_is_empty (tiled_windows wt)).
Qed.

(** [move_focus_to_workspace] in tiled mode, to the workspace in use. *)
Lemma move_focus_to_workspace_tiled_own s ws w x :
  registry_ok s →
  workspaces s !! workspace s = Some ws →
  focus_type ws = TILE → tiled_focus ws = node w →
  list_next_link (tiled_windows ws) (node w) = Some (node x) →
  let ws' :=
    with_tiled_focus (node x)
      (with_tiled_windows (w :: filter (λ y, y ≠ w) (tiled_windows ws)) ws) in
  move_focus_to_workspace (workspace s) s =
    Done (emit_all (Focus (focused ws') :: HideWindow w :: arranged ws')
            (with_workspaces (<[workspace s := ws']> (workspaces s)) s)).
Proof.
  intros Hok Hws Hft Hfocus Hnext ws'.
  pose proof (list_next_link_Some_elem _ _ _ Hnext) as Hwin.
  pose proof (ok_linked _ Hok) as (_ & Hd & Hlay).
  pose proof (proj1 Hd _ _ Hws) as Hnd.
  assert (w ∈ windows_of ws) as Hw by (apply elem_of_app; by left).
  set (rest := filter (λ y, y ≠ w) (tiled_windows ws)) in *.
  set (ws1 := with_tiled_windows (w :: rest) ws).
  assert (workspaces (link_move_after w (tiled_list (workspace s)) s) =
    <[workspace s := ws1]> (workspaces s)) as Hw1.
  { rewrite (workspaces_moved_within s _ (workspace s) ws w
      (λ wk, with_tiled_windows (w :: tiled_windows wk) wk) Hd Hws Hw).
    - by rewrite (unlink_tiled ws w).
    - intros k. by rewrite lookup_link_move_after. }
  unfold move_focus_to_workspace. rewrite (workspace_at_Done _ _ _ Hws). simpl.
  rewrite Hft.
  assert (list_is_empty (tiled_windows ws) = false) as ->
    by (by apply list_is_empty_false, elem_of_not_nil with w).
  rewrite Hfocus. simpl. rewrite Hnext. simpl.
  rewrite (link_move_after_as w _ s), Hw1. clear Hw1.
  set (W1 := <[workspace s := ws1]> (workspaces s)).
  assert (W1 !! workspace s = Some ws1) as HW1 by (by apply (lookup_insert_eq_Some _ _ _ ws)).
  rewrite (workspace_at_Done _ (workspace s) ws1) by done.
  simpl.
  assert ((match rest with [] => true | _ :: _ => false end) = list_is_empty rest) as -> by done.
  rewrite (modify_if _ _ _ _ _ ws1) by done.
  unfold W1. rewrite list_insert_insert_eq.
  set (ws2 := if list_is_empty rest then _ else ws1).
  rewrite (workspace_at_Done _ (workspace s) ws2)
    by (by apply (lookup_insert_eq_Some _ _ _ ws)).
  assert (tiled_windows ws2 = w :: rest) as Ht2 by (unfold ws2; by destruct (list_is_empty rest)).
  assert (floated_windows ws2 = floated_windows ws) as Hf2
    by (unfold ws2; by destruct (list_is_empty rest)).
  simpl. rewrite Ht2. simpl.
  erewrite modify_as by (by apply (lookup_insert_eq_Some _ _ _ ws)).
  rewrite list_insert_insert_eq.
  set (ws4 := with_tiled_focus _ ws2).
  assert (ws4 = ws') as ->.
  { unfold ws4, ws2, ws', ws1. by destruct (list_is_empty rest). }
  set (W4 := <[workspace s := ws']> _).
  assert (W4 !! workspace s = Some ws') as HW4 by (by apply (lookup_insert_eq_Some _ _ _ ws)).
  rewrite (update_focus_focused _ _ ws') by done. simpl.
  rewrite hide_window_emit_all.
  rewrite (arrange_arranged _ ws') by (try done; intros _; exact (Hlay _ _ Hws)).
  simpl. rewrite emit_all_emit_all.
  rewrite (workspace_at_as _ _ _ ws') by done. simpl.
  set (cs := Focus _ :: _).
  transitivity (Done (emit_all cs
    (if list_is_empty (floated_windows ws)
     then modify (workspace s) (with_focus_type TILE) (with_workspaces W4 s)
     else with_workspaces W4 s))); [by destruct (list_is_empty (floated_windows ws))|].
  rewrite (modify_if _ _ _ _ _ ws') by done. do 3 f_equal.
  unfold W4. rewrite list_insert_insert_eq. f_equal.
  destruct (list_is_empty (floated_windows ws)); [|done].
  apply with_focus_type_id. exact Hft.
Qed.

(** C2, amended: [move_focus_to_workspace] in tiled mode with a non-empty
    source list links the focused window in at the front of the target's
    tiled list; a target list that was empty gets it as cursor; for a target
    other than the workspace in use the window has left the source list,
    whose other windows keep their order, and the floated lists are as they
    were; when the source list becomes empty its cursor is set to the list
    head, and its focus type flips to [FLOAT] if it has floated windows and
    stays [TILE] otherwise; when the source list stays non-empty its cursor
    is set to the successor computed before the move; a target without
    floated windows is forced to [TILE]. *)
Theorem move_focus_to_workspace_tiled_mode (s : velox) (t : nat) (ws wt : velox_workspace) :
  registry_ok s →
  workspaces s !! workspace s = Some ws → workspaces s !! t = Some wt →
  focus_type ws = TILE → tiled_windows ws ≠ [] →
  ∃ w x s' ws' wt',
    tiled_focus ws = node w ∧ w ∈ tiled_windows ws ∧
    list_next_link (tiled_windows ws) (node w) = Some (node x) ∧
    move_focus_to_workspace t s = Done s' ∧
    workspaces s' !! workspace s = Some ws' ∧ workspaces s' !! t = Some wt' ∧
    tiled_windows wt' = w :: filter (λ y, y ≠ w) (tiled_windows wt) ∧
    (workspace s ≠ t →
       tiled_windows wt' = w :: tiled_windows wt ∧
       tiled_windows ws' = filter (λ y, y ≠ w) (tiled_windows ws) ∧
       w ∉ tiled_windows ws' ∧
       floated_windows ws' = floated_windows ws ∧
       floated_windows wt' = floated_windows wt ∧
       focus_type ws' =
         (if list_is_empty (tiled_windows ws') && negb (list_is_empty (floated_windows ws))
          then FLOAT else TILE)) ∧
    (tiled_windows wt = [] → tiled_focus wt' = node w) ∧
    (tiled_windows ws' = [] → floated_windows ws ≠ [] → focus_type ws' = FLOAT) ∧
    tiled_focus ws' = (if list_is_empty (tiled_windows ws') then head else node x) ∧
    (tiled_windows ws' = [] → tiled_focus ws' = head) ∧
    (tiled_windows ws' ≠ [] → tiled_focus ws' = node x) ∧
    (floated_windows wt = [] → focus_type wt' = TILE).
Proof.
  intros Hok Hws Hwt Hft Hne.
  destruct (ok_cursor _ Hok _ _ Hws Hne) as (w & Hfocus & Hw).
  destruct (list_next_link_elem _ _ Hw) as (x & Hnext & _).
  exists w, x.
  destruct (decide (workspace s = t)) as [<-|Hst].
  - assert (wt = ws) as -> by congruence.
    rewrite (move_focus_to_workspace_tiled_own s ws w x) by done.
    set (ws' := with_tiled_focus (node x)
      (with_tiled_windows (w :: filter (λ y, y ≠ w) (tiled_windows ws)) ws)).
    assert (<[workspace s := ws']> (workspaces s) !! workspace s = Some ws') as Hws'
      by (by apply (lookup_insert_eq_Some _ _ _ ws)).
    eexists _, ws', ws'. split_and!; try done.
  - rewrite (move_focus_to_workspace_tiled_across s t ws wt w x) by done.
    set (rest := filter (λ y, y ≠ w) (tiled_windows ws)).
    set (ws' :=
      with_tiled_focus (if list_is_empty rest then head else node x)
        (with_focus_type
           (if list_is_empty rest && negb (list_is_empty (floated_windows ws))
            then FLOAT else TILE)
           (with_tiled_windows rest ws))).
    set (wt' :=
      with_focus_type (if list_is_empty (floated_windows wt) then TILE else focus_type wt)
        (with_tiled_focus (if list_is_empty (tiled_windows wt) then node w else tiled_focus wt)
           (with_tiled_windows (w :: tiled_windows wt) wt))).
    assert (<[t := wt']> (<[workspace s := ws']> (workspaces s)) !! workspace s = Some ws')
      as Hws'.
    { rewrite list_lookup_insert_ne by done. by apply (lookup_insert_eq_Some _ _ _ ws). }
    assert (<[t := wt']> (<[workspace s := ws']> (workspaces s)) !! t = Some wt') as Hwt'.
    { apply (lookup_insert_eq_Some _ _ _ wt). by rewrite list_lookup_insert_ne. }
    assert (w ∉ tiled_windows wt) as Hnot.
    { intros Hin.
      eapply (tiled_not_elsewhere s (workspace s) t ws wt); [apply Hok|done..|].
      apply elem_of_app. by left. }
    eexists _, ws', wt'. split_and!; try done.
    + simpl. by rewrite filter_ne_id.
    + intros _. split_and!; try done.
      simpl. unfold rest. rewrite list_elem_of_filter. by intros [? _].
    + intros Hnil. simpl. by rewrite Hnil.
    + simpl. intros Hnil Hfl. rewrite Hnil. simpl.
      by apply list_is_empty_false in Hfl as ->.
    + simpl. intros Hnil. by rewrite Hnil.
    + simpl. intros Hnil. by apply list_is_empty_false in Hnil as ->.
    + simpl. intros Hnil. by rewrite Hnil.
Qed.

(** C2, amended, at a sole tiled window moved to an empty workspace: the
    source list is empty, with its cursor on the list head. *)
Lemma move_focus_to_workspace_sole_tiled :
  registry_ok sole_tiled ∧
  ∃ s' ws' wt',
    move_focus_to_workspace 1 sole_tiled = Done s' ∧
    workspaces s' !! 0 = Some ws' ∧ workspaces s' !! 1 = Some wt' ∧
    tiled_windows wt' = [1] ∧ tiled_focus wt' = node 1 ∧ focus_type wt' = TILE ∧
    tiled_windows ws' = [] ∧ tiled_focus ws' = head ∧ focus_type ws' = TILE.
Proof.
  assert (registry_ok sole_tiled) as Hok by (apply registry_okb_sound; vm_compute; reflexivity).
  split; [exact Hok|].
  destruct (move_focus_to_workspace_tiled_mode sole_tiled 1
    (make_workspace TILE [1] (node 1) []) (make_workspace TILE [] head [])
    Hok eq_refl eq_refl eq_refl)
    as (w & x & s' & ws' & wt' & Hw & _ & Hx & Hrun & Hws' & Hwt' & Ht & Hacross &
        Htf & _ & _ & Hsf & _ & Hty).
  { done. }
  injection Hw as <-.
  destruct Hacross as (_ & Hsrc & _ & _ & _ & Hsty); [simpl; lia|].
  rewrite Hsrc in Hsty, Hsf.
  exists s', ws', wt'. split_and!; try done; auto.
Defined.

(** C2 as worded fails: moving the sole tiled window of a workspace without
    floated windows leaves the source cursor on the list head, not on the
    successor computed before the move (the moved window itself). *)
Lemma move_focus_to_workspace_not_as_worded : ¬ moves_as_worded sole_tiled 1.
Proof.
  intros Hclaim.
  destruct (Hclaim (make_workspace TILE [1] (node 1) []) (make_workspace TILE [] head [])
    1 (node 1) eq_refl eq_refl eq_refl eq_refl eq_refl)
    as (s' & ws' & wt' & Hrun & Hws' & _ & _ & _ & Hcursor & _).
  vm_compute in Hrun. injection Hrun as <-.
  vm_compute in Hws'. injection Hws' as <-.
  simpl in Hcursor. discriminate Hcursor.
Qed.

(** X10: [move_focus_to_workspace] in floating mode, to another workspace
    of a registry in order: the first floated window of the source is linked
    in at the end of the target's floated list; the source becomes [TILE] if
    it has no floated window left and stays [FLOAT] otherwise; the target
    becomes [FLOAT] if it has no tiled window and keeps its focus type
    otherwise; nothing else of the registry changes.  The calls are the
    [focus] call derived from the source afterwards, [hide_window] on the
    moved window, and the arrangement of the source. *)
Theorem move_focus_to_workspace_floating_mode (s : velox) (t : nat)
    (ws wt : velox_workspace) (w : window) (l : list window) :
  registry_ok s →
  workspaces s !! workspace s = Some ws → workspaces s !! t = Some wt →
  workspace s ≠ t →
  focus_type ws = FLOAT → floated_windows ws = w :: l →
  let ws' := with_focus_type (if list_is_empty l then TILE else FLOAT)
               (with_floated_windows l ws) in
  let wt' := with_focus_type (if list_is_empty (tiled_windows wt) then FLOAT else focus_type wt)
               (with_floated_windows (floated_windows wt ++ [w]) wt) in
  ∃ s',
    move_focus_to_workspace t s = Done s' ∧
    workspaces s' = <[t := wt']> (<[workspace s := ws']> (workspaces s)) ∧
    workspace s' = workspace s ∧ floating s' = floating s ∧
    trace s' = trace s ++ Focus (focused ws') :: HideWindow w :: arranged ws.
Proof.
  intros Hok Hws Hwt Hne Hft Hfl ws' wt'.
  rewrite (move_focus_to_workspace_floated_across s t ws wt w l) by done.
  eexists. split; [reflexivity|]. by split_and!.
Qed.

(** X10 at floated windows [3; 4]: window 3 goes to the second workspace,
    window 4 gets the focus. *)
Lemma move_focus_to_workspace_floating_mode_mixed :
  registry_ok mixed ∧
  ∃ s',
    move_focus_to_workspace 1 mixed = Done s' ∧
    workspaces s' =
      [make_workspace FLOAT [1; 2] (node 1) [4]; make_workspace TILE [5] (node 5) [3]] ∧
    trace s' =
      [Focus (link_entry (node 4)); HideWindow 3;
       LayoutArrange (node grid_entry) [1; 2] [Byte.x09; Byte.x09; Byte.x09; Byte.x09]].
Proof.
  assert (registry_ok mixed) as Hok by (apply registry_okb_sound; vm_compute; reflexivity).
  split; [exact Hok|].
  destruct (move_focus_to_workspace_floating_mode mixed 1
    (make_workspace FLOAT [1; 2] (node 1) [3; 4]) (make_workspace TILE [5] (node 5) [])
    3 [4] Hok eq_refl eq_refl) as (s' & Hrun & Hw & _ & _ & Htr); [simpl; lia|done..|].
  exists s'. split_and!; done.
Defined.

(** X11: [move_focus_to_workspace] in floating mode with the index of the
    workspace in use moves the first floated window to the end of the same
    floated list and hides it, although it stays on the workspace in use;
    the input focus goes to the new first floated window; the focus type
    and the rest of the registry are unchanged. *)
Theorem move_focus_to_own_workspace_floating (s : velox) (ws : velox_workspace)
    (w : window) (l : list window) :
  registry_ok s →
  workspaces s !! workspace s = Some ws →
  focus_type ws = FLOAT → floated_windows ws = w :: l →
  let ws' := with_floated_windows (l ++ [w]) ws in
  ∃ s',
    move_focus_to_workspace (workspace s) s = Done s' ∧
    workspaces s' = <[workspace s := ws']> (workspaces s) ∧
    workspace s' = workspace s ∧ floating s' = floating s ∧
    trace s' = trace s ++ Focus (list_first (l ++ [w])) :: HideWindow w :: arranged ws.
Proof.
  intros Hok Hws Hft Hfl ws'.
  rewrite (move_focus_to_workspace_floated_own s ws w l) by done.
  eexists. split; [reflexivity|]. split_and!; try done.
  simpl. do 3 f_equal. unfold focused. simpl. rewrite Hft. by rewrite list_is_empty_snoc.
Qed.

(** X11 at floated windows [3; 4]: the list becomes [4; 3], window 3 is
    hidden and window 4 gets the focus. *)
Lemma move_focus_to_own_workspace_floating_mixed :
  registry_ok mixed ∧
  ∃ s',
    move_focus_to_workspace 0 mixed = Done s' ∧
    workspaces s' =
      [make_workspace FLOAT [1; 2] (node 1) [4; 3]; make_workspace TILE [5] (node 5) []] ∧
    trace s' =
      [Focus (link_entry (node 4)); HideWindow 3;
       LayoutArrange (node grid_entry) [1; 2] [Byte.x09; Byte.x09; Byte.x09; Byte.x09]].
Proof.
  assert (registry_ok mixed) as Hok by (apply registry_okb_sound; vm_compute; reflexivity).
  split; [exact Hok|].
  destruct (move_focus_to_own_workspace_floating mixed
    (make_workspace FLOAT [1; 2] (node 1) [3; 4]) 3 [4] Hok eq_refl eq_refl eq_refl)
    as (s' & Hrun & Hw & _ & _ & Htr).
  exists s'. split_and!; done.
Defined.

(** X12: the whole effect of [move_focus_to_workspace] in tiled mode, to
    another workspace of a registry in order.  The source loses the focused
    window; its cursor is the list head if the list is now empty and the
    successor computed before the move otherwise; it becomes [FLOAT] exactly
    when its tiled list is now empty and it has floated windows.  The target
    gets the window first in its tiled list, as cursor too if the list was
    empty, and becomes [TILE] if it has no floated window.  The floated
    lists, the layouts and states of both, every other workspace,
    [workspace] and the floating flags are unchanged, and the calls are the
    [focus] call derived from the source afterwards, [hide_window] on the
    moved window, and the arrangement of what is left in the source. *)
Theorem move_focus_to_workspace_tiled_effect (s : velox) (t : nat)
    (ws wt : velox_workspace) (w x : window) :
  registry_ok s →
  workspaces s !! workspace s = Some ws → workspaces s !! t = Some wt →
  workspace s ≠ t →
  focus_type ws = TILE → tiled_focus ws = node w →
  list_next_link (tiled_windows ws) (node w) = Some (node x) →
  let rest := filter (λ y, y ≠ w) (tiled_windows ws) in
  let ws' :=
    with_tiled_focus (if list_is_empty rest then head else node x)
      (with_focus_type
         (if list_is_empty rest && negb (list_is_empty (floated_windows ws))
          then FLOAT else TILE)
         (with_tiled_windows rest ws)) in
  let wt' :=
    with_focus_type (if list_is_empty (floated_windows wt) then TILE else focus_type wt)
      (with_tiled_focus (if list_is_empty (tiled_windows wt) then node w else tiled_focus wt)
         (with_tiled_windows (w :: tiled_windows wt) wt)) in
  ∃ s',
    move_focus_to_workspace t s = Done s' ∧
    workspaces s' = <[t := wt']> (<[workspace s := ws']> (workspaces s)) ∧
    workspace s' = workspace s ∧ floating s' = floating s ∧
    trace s' = trace s ++ Focus (focused ws') :: HideWindow w :: arranged ws'.
Proof.
  intros Hok Hws Hwt Hne Hft Hfocus Hnext rest ws' wt'.
  rewrite (move_focus_to_workspace_tiled_across s t ws wt w x) by done.
  eexists. split; [reflexivity|]. by split_and!.
Qed.

(** X12 at the registry of section 8: [W2] goes to the second workspace,
    the cursor of the first moves on to [W3]. *)
Lemma move_focus_to_workspace_tiled_effect_three_tiled :
  registry_ok three_tiled ∧
  ∃ s',
    move_focus_to_workspace 1 three_tiled = Done s' ∧
    workspaces s' =
      [make_workspace TILE [1; 3] (node 3) []; make_workspace TILE [2] (node 2) []] ∧
    trace s' =
      [Focus (link_entry (node 3)); HideWindow 2;
       LayoutArrange (node grid_entry) [1; 3] [Byte.x09; Byte.x09; Byte.x09; Byte.x09]].
Proof.
  assert (registry_ok three_tiled) as Hok by (apply registry_okb_sound; vm_compute; reflexivity).
  split; [exact Hok|].
  destruct (move_focus_to_workspace_tiled_effect three_tiled 1
    (make_workspace TILE [1; 2; 3] (node 2) []) (make_workspace TILE [] head [])
    2 3 Hok eq_refl eq_refl) as (s' & Hrun & Hw & _ & _ & Htr); [simpl; lia|done..|].
  exists s'. split_and!; done.
Defined.

(** ** [toggle_floating], both ways *)

(** [toggle_floating] in tiled mode. *)
Lemma toggle_floating_tiled_result s ws w x :
  registry_ok s → workspaces s !! workspace s = Some ws →
  focus_type ws = TILE → tiled_focus ws = node w →
  list_next_link (tiled_windows ws) (node w) = Some (node x) →
  let ws' :=
    with_focus_type FLOAT
      (with_floated_windows (w :: floated_windows ws)
         (with_tiled_focus (node x)
            (with_tiled_windows (filter (λ y, y ≠ w) (tiled_windows ws)) ws))) in
  toggle_floating s =
    Done (emit_all (Focus (focused ws') :: arranged ws')
            (with_floating w true
               (with_workspaces (<[workspace s := ws']> (workspaces s)) s))).
Proof.
  intros Hok Hws Hft Hfocus Hnext ws'.
  pose proof (list_next_link_Some_elem _ _ _ Hnext) as Hwin.
  pose proof (ok_linked _ Hok) as (_ & Hd & Hlay).
  pose proof (proj1 Hd _ _ Hws) as Hnd.
  set (ws0 := with_tiled_focus (node x) ws).
  set (W0 := <[workspace s := ws0]> (workspaces s)).
  assert (W0 !! workspace s = Some ws0) as HW0 by (by apply (lookup_insert_eq_Some _ _ _ ws)).
  assert (links_distinct (with_workspaces W0 s)) as Hd0
    by (by apply (links_distinct_with_workspaces _ _ (workspace s) ws (with_tiled_focus (node x)))).
  set (ws1 := with_floated_windows (w :: floated_windows ws)
                (with_tiled_focus (node x)
                   (with_tiled_windows (filter (λ y, y ≠ w) (tiled_windows ws)) ws))).
  assert (workspaces (link_move_after w (floated_list (workspace s)) (with_workspaces W0 s)) =
    <[workspace s := ws1]> (workspaces s)) as Hw1.
  { rewrite (workspaces_moved_within (with_workspaces W0 s) _ (workspace s) ws0 w
      (λ wk, with_floated_windows (w :: floated_windows wk) wk) Hd0 HW0).
    - rewrite (unlink_tiled ws0 w) by done. simpl. unfold W0.
      by rewrite list_insert_insert_eq.
    - apply elem_of_app. by left.
    - intros k. by rewrite lookup_link_move_after. }
  unfold toggle_floating. rewrite (workspace_at_Done _ _ _ Hws). simpl.
  rewrite Hft.
  assert (list_is_empty (tiled_windows ws) = false) as ->
    by (by apply list_is_empty_false, elem_of_not_nil with w).
  simpl. rewrite Hfocus, Hnext. simpl.
  rewrite (modify_insert s _ _ ws Hws). fold ws0 W0.
  rewrite (link_move_after_as w _ (with_workspaces W0 s)), Hw1. clear Hw1.
  simpl.
  set (W1 := <[workspace s := ws1]> (workspaces s)).
  assert (W1 !! workspace s = Some ws1) as HW1 by (by apply (lookup_insert_eq_Some _ _ _ ws)).
  set (s2 := modify _ _ _).
  assert (s2 = with_floating w true (with_workspaces (<[workspace s := ws']> (workspaces s)) s))
    as ->.
  { unfold s2, modify, with_floating, with_workspaces. simpl. f_equal.
    rewrite (alter_insert _ _ _ _ HW1). unfold W1. by rewrite list_insert_insert_eq. }
  set (W2 := <[workspace s := ws']> (workspaces s)).
  assert (W2 !! workspace s = Some ws') as HW2 by (by apply (lookup_insert_eq_Some _ _ _ ws)).
  rewrite (update_focus_focused _ _ ws') by done. simpl.
  unfold restack.
  rewrite (arrange_arranged _ ws') by (try done; intros _; exact (Hlay _ _ Hws)).
  by rewrite emit_all_emit_all.
Qed.

(** [toggle_floating] in floating mode. *)
Lemma toggle_floating_floated_result s ws w l :
  registry_ok s → workspaces s !! workspace s = Some ws →
  focus_type ws = FLOAT → floated_windows ws = w :: l →
  let ws' :=
    with_focus_type TILE
      (with_tiled_focus (node w)
         (with_tiled_windows (w :: tiled_windows ws) (with_floated_windows l ws))) in
  toggle_floating s =
    Done (emit_all (Focus (focused ws') :: arranged ws')
            (with_floating w false
               (with_workspaces (<[workspace s := ws']> (workspaces s)) s))).
Proof.
  intros Hok Hws Hft Hfl ws'.
  pose proof (ok_linked _ Hok) as (_ & Hd & Hlay).
  pose proof (proj1 Hd _ _ Hws) as Hnd.
  assert (w ∈ windows_of ws) as Hw by (apply elem_of_app; right; rewrite Hfl; set_solver).
  set (ws1 := with_tiled_windows (w :: tiled_windows ws) (with_floated_windows l ws)).
  assert (workspaces (link_move_after w (tiled_list (workspace s)) s) =
    <[workspace s := ws1]> (workspaces s)) as Hw1.
  { pose proof (unlink_floated ws w [] l Hnd Hfl) as Hu. simpl in Hu.
    rewrite (workspaces_moved_within s _ (workspace s) ws w
      (λ wk, with_tiled_windows (w :: tiled_windows wk) wk) Hd Hws Hw).
    - by rewrite Hu.
    - intros k. by rewrite lookup_link_move_after. }
  unfold toggle_floating. rewrite (workspace_at_Done _ _ _ Hws). simpl.
  rewrite Hft, Hfl. simpl.
  rewrite (link_move_after_as w _ s), Hw1. clear Hw1.
  set (W1 := <[workspace s := ws1]> (workspaces s)).
  assert (W1 !! workspace s = Some ws1) as HW1 by (by apply (lookup_insert_eq_Some _ _ _ ws)).
  rewrite (modify_as _ _ _ _ ws1) by done.
  set (s2 := modify _ _ _).
  assert (s2 = with_floating w false (with_workspaces (<[workspace s := ws']> (workspaces s)) s))
    as ->.
  { unfold s2, modify, with_floating, with_workspaces. simpl. f_equal.
    erewrite alter_insert by (by apply (lookup_insert_eq_Some _ _ _ ws1)).
    unfold W1. by rewrite !list_insert_insert_eq. }
  set (W2 := <[workspace s := ws']> (workspaces s)).
  assert (W2 !! workspace s = Some ws') as HW2 by (by apply (lookup_insert_eq_Some _ _ _ ws)).
  rewrite (update_focus_focused _ _ ws') by done. simpl.
  unfold restack.
  rewrite (arrange_arranged _ ws') by (try done; intros _; exact (Hlay _ _ Hws)).
  by rewrite emit_all_emit_all.
Qed.

(** X22: the whole effect of [toggle_floating] in tiled mode with the cursor
    on a window of the tiled list, from a registry in order: the cursor moves
    on to the successor of the window, the window leaves the tiled list and
    is linked in first in the floated list, its floating flag is set and no
    other flag changes, the focus type becomes [FLOAT]; every other
    workspace and [workspace] stay as they are.  The calls are one [focus]
    call, on the window itself, now the first floated one, and the
    arrangement of the tiled windows that are left. *)
Theorem toggle_floating_floats_focused (s : velox) (ws : velox_workspace) (w x : window) :
  registry_ok s → workspaces s !! workspace s = Some ws →
  focus_type ws = TILE → tiled_focus ws = node w →
  list_next_link (tiled_windows ws) (node w) = Some (node x) →
  let ws' :=
    with_focus_type FLOAT
      (with_floated_windows (w :: floated_windows ws)
         (with_tiled_focus (node x)
            (with_tiled_windows (filter (λ y, y ≠ w) (tiled_windows ws)) ws))) in
  ∃ s',
    toggle_floating s = Done s' ∧
    workspaces s' = <[workspace s := ws']> (workspaces s) ∧
    workspace s' = workspace s ∧
    floating s' w = true ∧ (∀ y, y ≠ w → floating s' y = floating s y) ∧
    trace s' = trace s ++ Focus (link_entry (node w)) :: arranged ws'.
Proof.
  intros Hok Hws Hft Hfocus Hnext ws'.
  rewrite (toggle_floating_tiled_result s ws w x) by done.
  eexists. split; [reflexivity|]. split_and!; try done.
  - unfold with_floating. simpl. by rewrite decide_True.
  - intros y Hy. unfold with_floating. simpl. by rewrite decide_False.
Qed.

(** X22 at the registry of section 8: [W2] floats, keeps the input focus,
    and the cursor moves on to [W3]. *)
Lemma toggle_floating_floats_focused_three_tiled :
  registry_ok three_tiled ∧
  ∃ s',
    toggle_floating three_tiled = Done s' ∧
    workspaces s' =
      [make_workspace FLOAT [1; 3] (node 3) [2]; make_workspace TILE [] head []] ∧
    floating s' 2 = true ∧
    trace s' =
      [Focus (link_entry (node 2));
       LayoutArrange (node grid_entry) [1; 3] [Byte.x09; Byte.x09; Byte.x09; Byte.x09]].
Proof.
  assert (registry_ok three_tiled) as Hok by (apply registry_okb_sound; vm_compute; reflexivity).
  split; [exact Hok|].
  destruct (toggle_floating_floats_focused three_tiled
    (make_workspace TILE [1; 2; 3] (node 2) []) 2 3 Hok eq_refl eq_refl eq_refl eq_refl)
    as (s' & Hrun & Hw & _ & Hflag & _ & Htr).
  exists s'. split_and!; done.
Defined.

(** X13: in floating mode with a floated window, [toggle_floating] tiles the
    first floated window [w]: it is linked in first in the tiled list, the
    cursor is set to it, its flag is cleared and the focus type becomes
    [TILE].  A second call floats it again and restores both lists, the
    focus type and every other workspace; what differs from the start is
    the cursor, now on the first tiled window (or left on [w], outside the
    empty tiled list, when there is none), and the flag of [w], which is set
    whatever it was. *)
Theorem toggle_floating_twice_floated (s : velox) (ws : velox_workspace)
    (w : window) (l : list window) :
  registry_ok s → workspaces s !! workspace s = Some ws →
  focus_type ws = FLOAT → floated_windows ws = w :: l →
  ∃ s1 s2 ws1,
    toggle_floating s = Done s1 ∧
    workspaces s1 !! workspace s = Some ws1 ∧
    focus_type ws1 = TILE ∧ tiled_windows ws1 = w :: tiled_windows ws ∧
    tiled_focus ws1 = node w ∧ floated_windows ws1 = l ∧ floating s1 w = false ∧
    toggle_floating s1 = Done s2 ∧
    workspaces s2 =
      <[workspace s :=
          with_tiled_focus (match tiled_windows ws with [] => node w | y :: _ => node y end) ws]>
        (workspaces s) ∧
    floating s2 w = true ∧ (∀ y, y ≠ w → floating s2 y = floating s y).
Proof.
  intros Hok Hws Hft Hfl.
  pose proof (ok_linked _ Hok) as (_ & Hd & _).
  assert (w ∉ tiled_windows ws) as Hnt.
  { eapply (floated_not_tiled s _ _ ws ws); [done..|]. rewrite Hfl. by left. }
  pose proof (toggle_floating_floated_result s ws w l Hok Hws Hft Hfl) as Hrun1.
  simpl in Hrun1.
  set (ws1 := with_focus_type TILE _) in Hrun1.
  set (s1 := emit_all _ _) in Hrun1.
  destruct (toggle_floating_ok s Hok) as (s1' & Hrun1' & Hok1 & _).
  assert (s1' = s1) as -> by congruence.
  assert (workspaces s1 !! workspace s1 = Some ws1) as Hws1
    by (by apply (lookup_insert_eq_Some _ _ _ ws)).
  set (x := match tiled_windows ws with [] => w | y :: _ => y end).
  assert (list_next_link (tiled_windows ws1) (node w) = Some (node x)) as Hnext.
  { simpl. rewrite (list_next_link_split [] (tiled_windows ws) w) by set_solver.
    unfold x. by destruct (tiled_windows ws). }
  pose proof (toggle_floating_tiled_result s1 ws1 w x Hok1 Hws1 eq_refl eq_refl Hnext) as Hrun2.
  simpl in Hrun2.
  exists s1. eexists. exists ws1.
  split; [done|]. split; [done|]. split; [done|]. split; [done|]. split; [done|].
  split; [done|].
  split; [unfold s1, with_floating; simpl; by rewrite decide_True|].
  split; [exact Hrun2|].
  split_and!.
  - simpl. rewrite list_insert_insert_eq. f_equal.
    rewrite filter_cons_False by naive_solver. rewrite filter_ne_id by done.
    unfold x. rewrite <-Hfl, <-Hft. clear.
    destruct ws as [? tiled ? ? ? ? ?]. simpl. by destruct tiled.
  - unfold with_floating; simpl; by rewrite decide_True.
  - intros y Hy. unfold s1, with_floating. simpl. by rewrite !decide_False.
Qed.

(** X13 at tiled windows [1; 2] and floated windows [3; 4]: window 3 is
    tiled first and floats again. *)
Lemma toggle_floating_twice_floated_mixed :
  registry_ok mixed ∧
  ∃ s1 s2 ws1,
    toggle_floating mixed = Done s1 ∧
    workspaces s1 !! 0 = Some ws1 ∧
    tiled_windows ws1 = [3; 1; 2] ∧ tiled_focus ws1 = node 3 ∧ floated_windows ws1 = [4] ∧
    toggle_floating s1 = Done s2 ∧
    workspaces s2 =
      [make_workspace FLOAT [1; 2] (node 1) [3; 4]; make_workspace TILE [5] (node 5) []] ∧
    floating s2 3 = true.
Proof.
  assert (registry_ok mixed) as Hok by (apply registry_okb_sound; vm_compute; reflexivity).
  split; [exact Hok|].
  destruct (toggle_floating_twice_floated mixed
    (make_workspace FLOAT [1; 2] (node 1) [3; 4]) 3 [4] Hok eq_refl eq_refl eq_refl)
    as (s1 & s2 & ws1 & Hrun1 & Hws1 & _ & Ht & Hf & Hfl & _ & Hrun2 & Hw & Hflag & _).
  exists s1, s2, ws1. split_and!; done.
Defined.

(** ** Commands on short lists *)

(** X14: the commands return the state as it is, without a call, on short
    lists.  With the list of the focus type empty, [toggle_floating] and
    [move_focus_to_workspace] do, the latter for every index, also one
    outside the registry, which it never looks at; with fewer than two
    windows in that list, [focus_next] and [focus_previous] do; in floating
    mode, or with fewer than two tiled windows, [move_next] and
    [move_previous] do. *)
Theorem commands_on_short_lists (s : velox) (ws : velox_workspace) :
  workspaces s !! workspace s = Some ws →
  (windows_in (focus_type ws) ws = [] →
     toggle_floating s = Done s ∧ ∀ index, move_focus_to_workspace index s = Done s) ∧
  (list_is_trivial (windows_in (focus_type ws) ws) = true →
     focus_next s = Done s ∧ focus_previous s = Done s) ∧
  (focus_type ws = FLOAT ∨ list_is_trivial (tiled_windows ws) = true →
     move_next s = Done s ∧ move_previous s = Done s).
Proof.
  intros Hws. split_and!.
  - intros Hnil. unfold toggle_floating, move_focus_to_workspace.
    rewrite (workspace_at_Done _ _ _ Hws). simpl.
    destruct (focus_type ws); simpl in Hnil; by rewrite Hnil.
  - by apply focus_next_trivial.
  - intros Hcase. unfold move_next, move_previous.
    rewrite (workspace_at_Done _ _ _ Hws). simpl.
    destruct (focus_type ws); [|done]. destruct Hcase as [?| ->]; done.
Qed.

(** X14 at a workspace in [FLOAT] mode with nothing floated. *)
Lemma commands_on_short_lists_float_nothing :
  (windows_in FLOAT (make_workspace FLOAT [4] (node 4) []) = [] →
     toggle_floating float_nothing = Done float_nothing ∧
     ∀ index, move_focus_to_workspace index float_nothing = Done float_nothing) ∧
  (list_is_trivial (windows_in FLOAT (make_workspace FLOAT [4] (node 4) [])) = true →
     focus_next float_nothing = Done float_nothing ∧
     focus_previous float_nothing = Done float_nothing) ∧
  (FLOAT = FLOAT ∨ list_is_trivial [4] = true →
     move_next float_nothing = Done float_nothing ∧
     move_previous float_nothing = Done float_nothing).
Proof.
  exact (commands_on_short_lists float_nothing (make_workspace FLOAT [4] (node 4) []) eq_refl).
Defined.

(** ** What a command changes *)

Lemma elem_of_all_windows s x :
  x ∈ all_windows s ↔ ∃ k ws, workspaces s !! k = Some ws ∧ x ∈ windows_of ws.
Proof.
  unfold all_windows. rewrite list_elem_of_bind. split.
  - intros (ws & Hx & (k & Hk)%list_elem_of_lookup_1). eauto.
  - intros (k & ws & Hk & Hx). exists ws. split; [done|]. by eapply list_elem_of_lookup_2.
Qed.

Lemma NoDup_all_windows s : links_distinct s → NoDup (all_windows s).
Proof.
  unfold links_distinct, all_windows. generalize (workspaces s). clear s.
  intros l. induction l as [|ws l IH]; intros [Hnd Hone]; [constructor|].
  rewrite bind_cons. apply NoDup_app. split_and!.
  - by apply (Hnd 0).
  - intros x Hx (wk & Hxk & (k & Hk)%list_elem_of_lookup_1)%list_elem_of_bind.
    by pose proof (Hone 0 (S k) ws wk x eq_refl Hk Hx Hxk).
  - apply IH. split.
    + intros i wi Hi. by apply (Hnd (S i)).
    + intros i j wi wj x Hi Hj Hxi Hxj.
      by pose proof (Hone (S i) (S j) wi wj x Hi Hj Hxi Hxj) as [= ->].
Qed.

Lemma changes_modes s s' : changes s s' → modes_ok s → modes_ok s'.
Proof.
  intros [Heq|[[_ [Heq|(ws & ws' & Hws & Heq & _ & Hmode)]]|
    (t & ws & wt & ws' & wt' & Hne & Hws & Hwt & Heq & _ & Hm1 & Hm2)]] Hok k wk;
    rewrite Heq.
  - apply Hok.
  - apply Hok.
  - rewrite (lookup_insert_decide _ _ _ _ _ Hws). case_decide; [|by apply Hok].
    intros [= <-]. apply Hmode. by eapply Hok.
  - assert (<[workspace s:=ws']> (workspaces s) !! t = Some wt) as Hwt'
      by (by rewrite list_lookup_insert_ne).
    rewrite (lookup_insert_decide _ _ _ _ _ Hwt'), (lookup_insert_decide _ _ _ _ _ Hws).
    case_decide; [by intros [= <-]|]. case_decide; [by intros [= <-]|]. apply Hok.
Qed.

Lemma changes_windows s s' x : changes s s' → x ∈ all_windows s' ↔ x ∈ all_windows s.
Proof.
  rewrite !elem_of_all_windows.
  intros [Heq|[[_ [Heq|(ws & ws' & Hws & Heq & Hsame & _)]]|
    (t & ws & wt & ws' & wt' & Hne & Hws & Hwt & Heq & Hsame & _)]]; rewrite Heq.
  - done.
  - done.
  - set (i := workspace s) in *. split.
    + intros (k & wk & Hk & Hx). rewrite (lookup_insert_decide _ _ _ _ _ Hws) in Hk.
      destruct (decide (i = k)) as [<-|Hik]; [|by eauto].
      injection Hk as <-. exists i, ws. split; [done|]. by apply Hsame.
    + intros (k & wk & Hk & Hx). destruct (decide (i = k)) as [<-|Hik].
      * assert (wk = ws) as -> by congruence.
        exists i, ws'. rewrite (lookup_insert_eq_Some _ _ _ ws) by done.
        split; [done|]. by apply Hsame.
      * exists k, wk. by rewrite list_lookup_insert_ne.
  - set (i := workspace s) in *.
    assert (<[i:=ws']> (workspaces s) !! t = Some wt) as Hwt'
      by (by rewrite list_lookup_insert_ne).
    assert (<[t:=wt']> (<[i:=ws']> (workspaces s)) !! i = Some ws') as Hi.
    { rewrite list_lookup_insert_ne by done. by apply (lookup_insert_eq_Some _ _ _ ws). }
    assert (<[t:=wt']> (<[i:=ws']> (workspaces s)) !! t = Some wt') as Ht
      by (by apply (lookup_insert_eq_Some _ _ _ wt)).
    split.
    + intros (k & wk & Hk & Hx).
      rewrite (lookup_insert_decide _ _ _ _ _ Hwt'), (lookup_insert_decide _ _ _ _ _ Hws) in Hk.
      destruct (decide (t = k)) as [<-|Htk]; [|destruct (decide (i = k)) as [<-|Hik]].
      * injection Hk as <-. destruct (proj1 (Hsame x)) as [?|?]; eauto.
      * injection Hk as <-. destruct (proj1 (Hsame x)) as [?|?]; eauto.
      * eauto.
    + intros (k & wk & Hk & Hx).
      destruct (decide (i = k)) as [<-|Hik]; [|destruct (decide (t = k)) as [<-|Htk]].
      * assert (wk = ws) as -> by congruence.
        destruct (proj2 (Hsame x)) as [?|?]; eauto.
      * assert (wk = wt) as -> by congruence.
        destruct (proj2 (Hsame x)) as [?|?]; eauto.
      * exists k, wk. by rewrite !list_lookup_insert_ne.
Qed.

Lemma changes_permutation s s' :
  links_distinct s → links_distinct s' → changes s s' → all_windows s' ≡ₚ all_windows s.
Proof.
  intros Hd Hd' Hch. apply NoDup_Permutation; [by apply NoDup_all_windows..|].
  intros x. by apply changes_windows.
Qed.

Lemma elem_of_filter_ne (l : list window) w x :
  x ∈ filter (λ y, y ≠ w) l ↔ x ≠ w ∧ x ∈ l.
Proof. by rewrite list_elem_of_filter. Qed.

Lemma updates_same s s' :
  workspace s' = workspace s → workspaces s' = workspaces s → updates s s'.
Proof. intros. split; [done|]. by left. Qed.

Lemma updates_refl s : updates s s.
Proof. by apply updates_same. Qed.

Lemma updates_at s s' ws ws' :
  workspace s' = workspace s →
  workspaces s !! workspace s = Some ws →
  workspaces s' = <[workspace s := ws']> (workspaces s) →
  (∀ x, x ∈ windows_of ws' ↔ x ∈ windows_of ws) →
  (mode_ok ws → mode_ok ws') →
  updates s s'.
Proof. intros. split; [done|]. right. by exists ws, ws'. Qed.

Lemma changes_updates s s' : updates s s' → changes s s'.
Proof. intros. right. by left. Qed.

Lemma changes_transfer s s' t ws wt ws' wt' :
  workspace s ≠ t →
  workspaces s !! workspace s = Some ws → workspaces s !! t = Some wt →
  workspaces s' = <[t := wt']> (<[workspace s := ws']> (workspaces s)) →
  (∀ x, x ∈ windows_of ws' ∨ x ∈ windows_of wt' ↔ x ∈ windows_of ws ∨ x ∈ windows_of wt) →
  mode_ok ws' → mode_ok wt' →
  changes s s'.
Proof. intros. right. right. by exists t, ws, wt, ws', wt'. Qed.

Lemma set_workspace_changes index s :
  registry_ok s → index < length (workspaces s) →
  ∃ s', set_workspace index s = Done s' ∧ changes s s'.
Proof.
  intros Hok Hlt. destruct (set_workspace_result index s Hok Hlt) as (cs & ->).
  eexists. split; [done|]. by left.
Qed.

Lemma set_focus_type_updates t s :
  registry_ok s → ∃ s', set_focus_type t s = Done s' ∧ updates s s'.
Proof.
  intros Hok.
  destruct (workspace_at_lt s (workspace s)) as (ws & Hws & _); [apply Hok|].
  rewrite (set_focus_type_result t s ws Hws). eexists. split; [done|].
  case_decide as Hcase; [|by apply updates_refl].
  apply (updates_at _ _ ws (with_focus_type t ws)); try done.
  - by rewrite workspaces_emit, (workspaces_modify _ _ _ _ Hws).
  - intros _ Hnil. simpl in Hnil. destruct Hcase as [_ Hne]. by destruct t.
Qed.

Lemma focus_next_updates s :
  registry_ok s → ∃ s', focus_next s = Done s' ∧ updates s s'.
Proof.
  intros Hok.
  destruct (workspace_at_lt s (workspace s)) as (ws & Hws & _); [apply Hok|].
  destruct (list_is_trivial (windows_in (focus_type ws) ws)) eqn:Htriv.
  { destruct (focus_next_trivial s ws Hws Htriv) as [-> _]. exists s.
    split; [done|]. apply updates_refl. }
  apply list_is_trivial_length in Htriv as Hlen.
  destruct (focus_type ws) eqn:Hft; simpl in Htriv, Hlen.
  - destruct (ok_cursor _ Hok _ _ Hws) as (w & Hfocus & Hw);
      [by apply list_is_trivial_false|].
    destruct (list_next_link_elem _ _ Hw) as (x & Hnext & Hx).
    rewrite (focus_next_tiled s ws w x) by done. eexists. split; [done|].
    apply (updates_at _ _ ws (with_tiled_focus (node x) ws)); try done.
    by rewrite workspaces_emit, (workspaces_modify _ _ _ _ Hws).
  - apply length_two_snoc in Hlen as (l & w & Hfl & Hl).
    destruct (focus_next_floated s ws w l) as (s' & -> & Hw' & Hc' & _); try done.
    exists s'. split; [done|].
    apply (updates_at _ _ ws (with_floated_windows (w :: l) ws)); try done.
    + intros x. unfold windows_of. simpl. rewrite Hfl. set_solver.
    + intros _. unfold mode_ok. simpl. by rewrite Hft.
Qed.

Lemma focus_previous_updates s :
  registry_ok s → ∃ s', focus_previous s = Done s' ∧ updates s s'.
Proof.
  intros Hok.
  destruct (workspace_at_lt s (workspace s)) as (ws & Hws & _); [apply Hok|].
  destruct (list_is_trivial (windows_in (focus_type ws) ws)) eqn:Htriv.
  { destruct (focus_next_trivial s ws Hws Htriv) as [_ ->]. exists s.
    split; [done|]. apply updates_refl. }
  apply list_is_trivial_length in Htriv as Hlen.
  destruct (focus_type ws) eqn:Hft; simpl in Htriv, Hlen.
  - destruct (ok_cursor _ Hok _ _ Hws) as (w & Hfocus & Hw);
      [by apply list_is_trivial_false|].
    destruct (list_prev_link_elem _ _ Hw) as (x & Hprev & Hx).
    rewrite (focus_previous_tiled s ws w x) by done. eexists. split; [done|].
    apply (updates_at _ _ ws (with_tiled_focus (node x) ws)); try done.
    by rewrite workspaces_emit, (workspaces_modify _ _ _ _ Hws).
  - apply length_two_cons in Hlen as (w & l & Hfl & Hl).
    destruct (focus_previous_floated s ws w l) as (s' & -> & Hw' & Hc' & _); try done.
    exists s'. split; [done|].
    apply (updates_at _ _ ws (with_floated_windows (l ++ [w]) ws)); try done.
    + intros x. unfold windows_of. simpl. rewrite Hfl. set_solver.
    + intros _. unfold mode_ok. simpl. rewrite Hft. simpl. by destruct l.
Qed.

Lemma swapped_elem (l : list window) a b x :
  a ∈ l → b ∈ l → swapped a b x ∈ l ↔ x ∈ l.
Proof.
  intros Ha Hb. unfold swapped.
  destruct (decide (x = a)) as [->|?]; [done|].
  destruct (decide (x = b)) as [->|?]; done.
Qed.

Lemma swap_links_updates s s' ws a b :
  registry_ok s → workspaces s !! workspace s = Some ws → focus_type ws = TILE →
  a ∈ tiled_windows ws → b ∈ tiled_windows ws →
  workspaces s' = workspaces (link_swap a b s) → workspace s' = workspace s →
  updates s s'.
Proof.
  intros Hok Hws Hft Ha Hb Heq Hc.
  pose proof (ok_linked _ Hok) as (_ & Hd & _).
  assert (a ∈ windows_of ws) by (apply elem_of_app; by left).
  assert (b ∈ windows_of ws) by (apply elem_of_app; by left).
  apply (updates_at _ _ ws (swap_links a b ws)); try done.
  - by rewrite Heq, (workspaces_link_swap s (workspace s) ws).
  - intros x. rewrite windows_of_swap_links, elem_of_fmap_swapped. by apply swapped_elem.
  - intros _. unfold mode_ok. simpl. rewrite Hft. simpl.
    intros Hnil%fmap_nil_inv. rewrite Hnil in Ha. by apply elem_of_nil in Ha.
Qed.

Lemma move_next_updates s :
  registry_ok s → ∃ s', move_next s = Done s' ∧ updates s s'.
Proof.
  intros Hok.
  destruct (workspace_at_lt s (workspace s)) as (ws & Hws & Hat); [apply Hok|].
  destruct (focus_type ws) eqn:Hft.
  - destruct (list_is_trivial (tiled_windows ws)) eqn:Htriv.
    { unfold move_next. rewrite Hat. simpl. rewrite Hft, Htriv. exists s.
      split; [done|]. apply updates_refl. }
    destruct (ok_cursor _ Hok _ _ Hws) as (w & Hfocus & Hw);
      [by apply list_is_trivial_false|].
    destruct (list_next_link_elem _ _ Hw) as (x & Hnext & Hx).
    destruct (move_next_swaps s ws w x) as (s' & -> & _ & Heq & Hc & _); try done.
    exists s'. split; [done|]. by apply (swap_links_updates s s' ws w x).
  - unfold move_next. rewrite Hat. simpl. rewrite Hft. exists s.
    split; [done|]. apply updates_refl.
Qed.

Lemma move_previous_updates s :
  registry_ok s → ∃ s', move_previous s = Done s' ∧ updates s s'.
Proof.
  intros Hok.
  destruct (workspace_at_lt s (workspace s)) as (ws & Hws & Hat); [apply Hok|].
  destruct (focus_type ws) eqn:Hft.
  - destruct (list_is_trivial (tiled_windows ws)) eqn:Htriv.
    { unfold move_previous. rewrite Hat. simpl. rewrite Hft, Htriv. exists s.
      split; [done|]. apply updates_refl. }
    destruct (ok_cursor _ Hok _ _ Hws) as (w & Hfocus & Hw);
      [by apply list_is_trivial_false|].
    destruct (list_prev_link_elem _ _ Hw) as (x & Hprev & Hx).
    destruct (move_previous_swaps s ws w x) as (s' & -> & _ & Heq & Hc & _); try done.
    exists s'. split; [done|]. by apply (swap_links_updates s s' ws w x).
  - unfold move_previous. rewrite Hat. simpl. rewrite Hft. exists s.
    split; [done|]. apply updates_refl.
Qed.

Ltac windows_elem :=
  unfold windows_of; simpl;
  repeat (rewrite elem_of_cons || rewrite elem_of_app || rewrite elem_of_filter_ne).

Lemma toggle_floating_updates s :
  registry_ok s → ∃ s', toggle_floating s = Done s' ∧ updates s s'.
Proof.
  intros Hok.
  destruct (workspace_at_lt s (workspace s)) as (ws & Hws & Hat); [apply Hok|].
  destruct (focus_type ws) eqn:Hft.
  - destruct (list_is_empty (tiled_windows ws)) eqn:Hempty.
    { unfold toggle_floating. rewrite Hat. simpl. rewrite Hft, Hempty.
      exists s. split; [done|]. apply updates_refl. }
    apply list_is_empty_false in Hempty.
    destruct (ok_cursor _ Hok _ _ Hws Hempty) as (w & Hfocus & Hw).
    destruct (list_next_link_elem _ _ Hw) as (x & Hnext & _).
    rewrite (toggle_floating_tiled_result s ws w x) by done.
    eexists. split; [done|].
    eapply (updates_at _ _ ws); [done|done|reflexivity| |].
    + intros z. windows_elem. destruct (decide (z = w)) as [->|?]; naive_solver.
    + intros _. unfold mode_ok. by simpl.
  - destruct (floated_windows ws) as [|w l] eqn:Hfl.
    { unfold toggle_floating. rewrite Hat. simpl. rewrite Hft, Hfl.
      exists s. split; [done|]. apply updates_refl. }
    rewrite (toggle_floating_floated_result s ws w l) by done.
    eexists. split; [done|].
    eapply (updates_at _ _ ws); [done|done|reflexivity| |].
    + intros z. unfold windows_of. simpl. rewrite Hfl. set_solver.
    + intros _. unfold mode_ok. by simpl.
Qed.

Lemma move_focus_to_workspace_changes t s :
  registry_ok s → t < length (workspaces s) →
  ∃ s', move_focus_to_workspace t s = Done s' ∧ changes s s'.
Proof.
  intros Hok [wt Hwt]%lookup_lt_is_Some.
  destruct (workspace_at_lt s (workspace s)) as (ws & Hws & Hat); [apply Hok|].
  destruct (focus_type ws) eqn:Hft.
  - destruct (list_is_empty (tiled_windows ws)) eqn:Hempty.
    { unfold move_focus_to_workspace. rewrite Hat. simpl. rewrite Hft, Hempty.
      exists s. by split; [|left]. }
    apply list_is_empty_false in Hempty.
    destruct (ok_cursor _ Hok _ _ Hws Hempty) as (w & Hfocus & Hw).
    destruct (list_next_link_elem _ _ Hw) as (x & Hnext & _).
    destruct (decide (workspace s = t)) as [<-|Hne].
    + rewrite (move_focus_to_workspace_tiled_own s ws w x) by done.
      eexists. split; [done|].
      eapply changes_updates, (updates_at _ _ ws); [done|done|reflexivity| |].
      * intros z. windows_elem. destruct (decide (z = w)) as [->|?]; naive_solver.
      * intros _. unfold mode_ok. simpl. by rewrite Hft.
    + rewrite (move_focus_to_workspace_tiled_across s t ws wt w x) by done.
      eexists. split; [done|].
      eapply (changes_transfer _ _ t ws wt); [done..|reflexivity| | |].
      * intros z. windows_elem. destruct (decide (z = w)) as [->|?]; naive_solver.
      * unfold mode_ok, windows_of. simpl.
        destruct (filter _ (tiled_windows ws)); simpl; [|done].
        destruct (floated_windows ws) eqn:Hf; simpl; rewrite ?Hf; done.
      * unfold mode_ok, windows_of. simpl.
        destruct (floated_windows wt) eqn:Hf; simpl; [done|].
        destruct (focus_type wt); simpl; rewrite ?Hf; done.
  - destruct (floated_windows ws) as [|w l] eqn:Hfl.
    { unfold move_focus_to_workspace. rewrite Hat. simpl. rewrite Hft, Hfl.
      exists s. by split; [|left]. }
    destruct (decide (workspace s = t)) as [<-|Hne].
    + rewrite (move_focus_to_workspace_floated_own s ws w l) by done.
      eexists. split; [done|].
      eapply changes_updates, (updates_at _ _ ws); [done|done|reflexivity| |].
      * intros z. unfold windows_of. simpl. rewrite Hfl. set_solver.
      * intros _. unfold mode_ok. simpl. rewrite Hft. simpl. by destruct l.
    + rewrite (move_focus_to_workspace_floated_across s t ws wt w l) by done.
      eexists. split; [done|].
      eapply (changes_transfer _ _ t ws wt); [done..|reflexivity| | |].
      * intros z. unfold windows_of. simpl. rewrite Hfl. set_solver.
      * unfold mode_ok, windows_of. simpl. destruct l; simpl; [|done].
        intros ->. done.
      * unfold mode_ok, windows_of. simpl.
        destruct (tiled_windows wt) eqn:Ht; simpl.
        -- by destruct (floated_windows wt).
        -- destruct (focus_type wt); simpl; rewrite ?Ht; [done|].
           by destruct (floated_windows wt).
Qed.

Lemma execute_updates c s :
  in_place c → registry_ok s → ∃ s', execute c s = Done s' ∧ updates s s'.
Proof.
  destruct c; simpl; intros Hc Hok; try done;
    auto using set_focus_type_updates, focus_next_updates, focus_previous_updates,
      move_next_updates, move_previous_updates, toggle_floating_updates.
Qed.

Lemma execute_changes c s :
  in_range (length (workspaces s)) c → registry_ok s →
  ∃ s', execute c s = Done s' ∧ changes s s'.
Proof.
  intros Hrange Hok.
  destruct c; try (by apply set_workspace_changes);
    try (by apply move_focus_to_workspace_changes);
    match goal with
    | |- ∃ s', execute ?c s = _ ∧ _ =>
        destruct (execute_updates c s I Hok) as (s' & Hrun & Hup);
        exists s'; split; [done|]; by apply changes_updates
    end.
Qed.

Lemma execute_changes_ok c s :
  in_range (length (workspaces s)) c → registry_ok s →
  ∃ s', execute c s = Done s' ∧ registry_ok s' ∧
    length (workspaces s') = length (workspaces s) ∧ changes s s'.
Proof.
  intros Hrange Hok.
  destruct (execute_ok c s Hrange Hok) as (s' & Hrun & Hok' & Hlen).
  destruct (execute_changes c s Hrange Hok) as (s'' & Hrun' & Hch).
  assert (s'' = s') as -> by congruence. by exists s'.
Qed.

Lemma run_changes cs s :
  Forall (in_range (length (workspaces s))) cs → registry_ok s →
  ∃ s', run cs s = Done s' ∧ registry_ok s' ∧
    length (workspaces s') = length (workspaces s) ∧
    (modes_ok s → modes_ok s') ∧
    all_windows s' ≡ₚ all_windows s.
Proof.
  revert s. induction cs as [|c cs IH]; intros s Hrange Hok; [by exists s|].
  apply Forall_cons in Hrange as [Hc Hcs]. simpl.
  destruct (execute_changes_ok c s Hc Hok) as (s1 & -> & Hok1 & Hlen1 & Hch). simpl.
  destruct (IH s1) as (s' & Hrun & Hok' & Hlen' & Hmodes & Hperm); [by rewrite Hlen1|done|].
  exists s'. split; [done|]. split; [done|]. split; [congruence|]. split.
  - intros Hm. by eapply Hmodes, changes_modes.
  - rewrite Hperm. apply changes_permutation; [apply Hok|apply Hok1|done].
Qed.

(** ** Invariants of command sequences *)

Lemma modes_ok_mixed : modes_ok mixed.
Proof. intros [|[|i]] ws; simpl; intros [= <-]; unfold mode_ok; simpl; done. Qed.

(** X15: no command creates, loses or duplicates a window: from a registry
    in order, after every sequence of commands of the controller whose
    indices address workspaces, the windows linked into the lists of the
    registry are the same as before, each of them once. *)
Theorem windows_are_conserved (cs : list command) (s : velox) :
  registry_ok s → Forall (in_range (length (workspaces s))) cs →
  ∃ s', run cs s = Done s' ∧ all_windows s' ≡ₚ all_windows s ∧ NoDup (all_windows s').
Proof.
  intros Hok Hrange.
  destruct (run_changes cs s Hrange Hok) as (s' & Hrun & Hok' & _ & _ & Hperm).
  exists s'. split; [done|]. split; [done|]. apply NoDup_all_windows, Hok'.
Qed.

(** X15 for a sequence that moves windows between two workspaces and
    between the lists of each. *)
Lemma windows_are_conserved_mixed :
  registry_ok mixed ∧
  ∃ s',
    run [MoveFocusToWorkspace 1; ToggleFloating; MoveNext; MoveFocusToWorkspace 1;
         SetWorkspace 1; FocusPrevious; MoveFocusToWorkspace 0] mixed = Done s' ∧
    all_windows s' ≡ₚ all_windows mixed ∧ NoDup (all_windows s').
Proof.
  assert (registry_ok mixed) as Hok by (apply registry_okb_sound; vm_compute; reflexivity).
  split; [exact Hok|].
  apply (windows_are_conserved _ mixed Hok).
  repeat constructor; simpl; lia.
Defined.

(** X16: from a registry in order, after every sequence of commands of the
    controller whose indices address workspaces, no window is linked into
    two lists or twice into one, the registry has as many workspaces as
    before, and [workspace] is one of them. *)
Theorem registry_stays_linked (cs : list command) (s : velox) :
  registry_ok s → Forall (in_range (length (workspaces s))) cs →
  ∃ s', run cs s = Done s' ∧ links_distinct s' ∧
    length (workspaces s') = length (workspaces s) ∧
    workspace s' < length (workspaces s').
Proof.
  intros Hok Hrange.
  destruct (run_changes cs s Hrange Hok) as (s' & Hrun & Hok' & Hlen & _).
  exists s'. split; [done|]. split; [apply Hok'|]. split; [done|]. apply Hok'.
Qed.

(** X16 at the registry of section 8. *)
Lemma registry_stays_linked_three_tiled :
  registry_ok three_tiled ∧
  ∃ s',
    run [MoveFocusToWorkspace 1; ToggleFloating; SetWorkspace 1; ToggleFloating;
         MoveFocusToWorkspace 0] three_tiled = Done s' ∧
    links_distinct s' ∧
    length (workspaces s') = length (workspaces three_tiled) ∧
    workspace s' < length (workspaces s').
Proof.
  assert (registry_ok three_tiled) as Hok by (apply registry_okb_sound; vm_compute; reflexivity).
  split; [exact Hok|].
  apply (registry_stays_linked _ three_tiled Hok).
  repeat constructor; simpl; lia.
Defined.

Lemma focused_window ws :
  mode_ok ws → (tiled_windows ws ≠ [] → cursor_in_list ws) → windows_of ws ≠ [] →
  ∃ w, w ∈ windows_of ws ∧ focused ws = link_entry (node w).
Proof.
  unfold mode_ok, focused, windows_of. intros Hmode Hcur Hne.
  destruct (focus_type ws); simpl in Hmode.
  - destruct (tiled_windows ws) as [|y l] eqn:Ht; [by destruct Hne; auto|].
    destruct Hcur as (w & -> & Hw); [done|]. exists w. split; [|done].
    rewrite Ht in Hw. apply elem_of_app. by left.
  - destruct (floated_windows ws) as [|y l] eqn:Hf; [by destruct Hne; auto|].
    exists y. split; [|done]. apply elem_of_app. right. by left.
Qed.

(** X17: the focus type follows the windows.  From a registry in order in
    which no workspace has the list of its focus type empty while holding
    windows, every sequence of commands of the controller whose indices
    address workspaces keeps it so; hence afterwards [update_focus] on a
    workspace that holds a window gives the input focus to one of its
    windows, never to none. *)
Theorem focus_type_follows_windows (cs : list command) (s : velox) :
  registry_ok s → modes_ok s → Forall (in_range (length (workspaces s))) cs →
  ∃ s', run cs s = Done s' ∧ modes_ok s' ∧
    ∀ i ws, workspaces s' !! i = Some ws → windows_of ws ≠ [] →
      ∃ w, w ∈ windows_of ws ∧
        update_focus i s' = Done (focus (link_entry (node w)) s').
Proof.
  intros Hok Hmodes Hrange.
  destruct (run_changes cs s Hrange Hok) as (s' & Hrun & Hok' & _ & Hm & _).
  exists s'. split; [done|]. split; [by apply Hm|].
  intros i ws Hws Hne.
  destruct (focused_window ws) as (w & Hw & Hp); try done.
  - by eapply Hm.
  - by eapply ok_cursor.
  - exists w. split; [done|]. rewrite (update_focus_Done _ _ _ Hws). by rewrite <-Hp.
Qed.

(** X17 for a sequence that empties and refills lists of both
    workspaces. *)
Lemma focus_type_follows_windows_mixed :
  registry_ok mixed ∧ modes_ok mixed ∧
  ∃ s',
    run [ToggleFloating; ToggleFloating; MoveFocusToWorkspace 1; MoveFocusToWorkspace 1;
         SetWorkspace 1; SetFocusType FLOAT; FocusNext; MoveFocusToWorkspace 0;
         MoveFocusToWorkspace 0; MoveFocusToWorkspace 0; ToggleFloating] mixed = Done s' ∧
    modes_ok s' ∧
    ∀ i ws, workspaces s' !! i = Some ws → windows_of ws ≠ [] →
      ∃ w, w ∈ windows_of ws ∧
        update_focus i s' = Done (focus (link_entry (node w)) s').
Proof.
  assert (registry_ok mixed) as Hok by (apply registry_okb_sound; vm_compute; reflexivity).
  split; [exact Hok|]. split; [exact modes_ok_mixed|].
  apply (focus_type_follows_windows _ mixed Hok modes_ok_mixed).
  repeat constructor; simpl; lia.
Defined.

(** X18: the commands other than [set_workspace] and
    [move_focus_to_workspace] work in place: from a registry in order each
    of them returns, leaves [workspace] and every other workspace as they
    are, and keeps the windows of the workspace in use on it. *)
Theorem in_place_commands_stay (c : command) (s : velox) :
  in_place c → registry_ok s →
  ∃ s' ws ws',
    execute c s = Done s' ∧ workspace s' = workspace s ∧
    (∀ k, k ≠ workspace s → workspaces s' !! k = workspaces s !! k) ∧
    workspaces s !! workspace s = Some ws ∧
    workspaces s' !! workspace s = Some ws' ∧
    windows_of ws' ≡ₚ windows_of ws.
Proof.
  intros Hc Hok.
  destruct (workspace_at_lt s (workspace s)) as (ws & Hws & _); [apply Hok|].
  destruct (execute_updates c s Hc Hok) as (s' & Hrun & Hcur & Hup).
  destruct (execute_ok c s) as (s'' & Hrun' & Hok' & _); [by destruct c|done|].
  assert (s'' = s') as -> by congruence.
  destruct Hup as [Heq|(ws0 & ws' & Hws0 & Heq & Hsame & _)].
  - exists s', ws, ws. rewrite Heq. split_and!; done.
  - assert (ws0 = ws) as -> by congruence.
    assert (workspaces s' !! workspace s = Some ws') as Hws'
      by (rewrite Heq; by apply (lookup_insert_eq_Some _ _ _ ws)).
    exists s', ws, ws'. split_and!; try done.
    + intros k Hk. rewrite Heq. by apply list_lookup_insert_ne.
    + apply NoDup_Permutation; [|by eapply Hok|done].
      by eapply (ok_linked _ Hok').
Qed.

(** X18 for [toggle_floating] on a workspace with tiled and floated
    windows. *)
Lemma in_place_commands_stay_mixed :
  in_place ToggleFloating ∧ registry_ok mixed ∧
  ∃ s' ws ws',
    execute ToggleFloating mixed = Done s' ∧ workspace s' = workspace mixed ∧
    (∀ k, k ≠ workspace mixed → workspaces s' !! k = workspaces mixed !! k) ∧
    workspaces mixed !! workspace mixed = Some ws ∧
    workspaces s' !! workspace mixed = Some ws' ∧
    windows_of ws' ≡ₚ windows_of ws.
Proof.
  assert (registry_ok mixed) as Hok by (apply registry_okb_sound; vm_compute; reflexivity).
  split; [exact I|]. split; [exact Hok|].
  exact (in_place_commands_stay ToggleFloating mixed I Hok).
Defined.

(** ** [set_layout], [next_layout] and [previous_layout] *)

Lemma length_reset_state ws entry :
  fits ws entry → length (reset_state entry (state ws)) = length (state ws).
Proof.
  intros [H1 H2]. unfold reset_state. rewrite length_app, length_take, length_drop. lia.
Qed.

Lemma set_layout_result s ws entry :
  workspaces s !! workspace s = Some ws → fits ws entry →
  (tiled_windows ws ≠ [] → layouts ws ≠ []) →
  let ws' := with_state (reset_state entry (state ws)) (with_layout (node entry) ws) in
  set_layout (node entry) s =
    Done (emit_all (arranged ws')
            (with_workspaces (<[workspace s := ws']> (workspaces s)) s)).
Proof.
  intros Hws [H1 H2] Hlay ws'. unfold set_layout.
  rewrite (workspace_at_Done _ _ _ Hws). simpl.
  rewrite (modify_insert s _ _ ws Hws).
  rewrite (workspace_at_Done _ (workspace s) (with_layout (node entry) ws))
    by (by apply (lookup_insert_eq_Some _ _ _ ws)).
  simpl. unfold memcpy. rewrite decide_True by done. simpl.
  erewrite modify_as by (by apply (lookup_insert_eq_Some _ _ _ ws)).
  rewrite list_insert_insert_eq.
  rewrite (arrange_arranged _ ws'); [done| |done].
  by apply (lookup_insert_eq_Some _ _ _ ws).
Qed.

Lemma next_layout_result s ws e e' :
  workspaces s !! workspace s = Some ws → layout ws = node e →
  list_next_link (layouts ws) (node e) = Some (node e') → fits ws e' →
  let ws' := with_state (reset_state e' (state ws)) (with_layout (node e') ws) in
  next_layout s =
    Done (emit_all (arranged ws')
            (with_workspaces (<[workspace s := ws']> (workspaces s)) s)).
Proof.
  intros Hws Hlayout Hnext Hfits ws'. unfold next_layout.
  rewrite (workspace_at_Done _ _ _ Hws). simpl. rewrite Hlayout, Hnext. simpl.
  apply set_layout_result; [done..|].
  intros _. apply list_next_link_Some_elem in Hnext. by apply elem_of_not_nil with e.
Qed.

Lemma previous_layout_result s ws e e' :
  workspaces s !! workspace s = Some ws → layout ws = node e → e ∈ layouts ws →
  list_prev_link (layouts ws) (node e) = Some (node e') → fits ws e' →
  let ws' := with_state (reset_state e' (state ws)) (with_layout (node e') ws) in
  previous_layout s =
    Done (emit_all (arranged ws')
            (with_workspaces (<[workspace s := ws']> (workspaces s)) s)).
Proof.
  intros Hws Hlayout He Hprev Hfits ws'. unfold previous_layout.
  rewrite (workspace_at_Done _ _ _ Hws). simpl. rewrite Hlayout, Hprev. simpl.
  apply set_layout_result; [done..|].
  intros _. by apply elem_of_not_nil with e.
Qed.

Lemma fits_three_tiled e :
  e ∈ [tile_entry; grid_entry] → fits (make_workspace TILE [1; 2; 3] (node 2) []) e.
Proof.
  intros He. apply list_elem_of_In in He. simpl in He.
  destruct He as [<-|[<-|[]]]; split; simpl; lia.
Qed.

(** X19: with the layout cursor on an entry of a list of distinct layouts
    whose default states fit the state buffer, [next_layout] sets the cursor
    to the cyclic successor and copies its default state into the buffer,
    and [previous_layout] after it sets the cursor back to the entry it
    started on; the state is not restored: it is the default state of that
    entry copied over what the first call left. *)
Theorem next_layout_then_previous_layout (s : velox) (ws : velox_workspace)
    (e : velox_layout_entry) :
  workspaces s !! workspace s = Some ws →
  NoDup (layouts ws) → layout ws = node e → e ∈ layouts ws →
  (∀ e', e' ∈ layouts ws → fits ws e') →
  ∃ e' s1 s2,
    list_next_link (layouts ws) (node e) = Some (node e') ∧
    next_layout s = Done s1 ∧
    workspaces s1 =
      <[workspace s := with_state (reset_state e' (state ws)) (with_layout (node e') ws)]>
        (workspaces s) ∧
    previous_layout s1 = Done s2 ∧
    workspaces s2 =
      <[workspace s := with_state (reset_state e (reset_state e' (state ws))) ws]>
        (workspaces s) ∧
    workspace s2 = workspace s ∧ floating s2 = floating s.
Proof.
  intros Hws Hnd Hlayout He Hfits.
  destruct (list_next_link_elem _ _ He) as (e' & Hnext & He').
  pose proof (next_layout_result s ws e e' Hws Hlayout Hnext (Hfits _ He')) as Hrun1.
  simpl in Hrun1.
  set (ws1 := with_state _ _) in Hrun1. set (s1 := emit_all _ _) in Hrun1.
  assert (workspaces s1 !! workspace s1 = Some ws1) as Hws1
    by (by apply (lookup_insert_eq_Some _ _ _ ws)).
  assert (fits ws1 e) as Hfits1.
  { destruct (Hfits _ He) as [H1 H2]. split; [done|].
    simpl. by rewrite (length_reset_state ws e') by auto. }
  pose proof (previous_layout_result s1 ws1 e' e Hws1 eq_refl He'
    (list_prev_link_of_next _ _ _ Hnd Hnext) Hfits1) as Hrun2.
  simpl in Hrun2.
  exists e', s1. eexists. split; [done|]. split; [done|]. split; [done|].
  split; [exact Hrun2|]. split; [|done]. simpl.
  rewrite list_insert_insert_eq. f_equal. rewrite <-Hlayout. by destruct ws.
Qed.

(** X19 at the registry of section 8: from the last layout to the first
    and back; the state ends as the default state of the last layout, not as
    the four bytes [x09] it started with. *)
Lemma next_layout_then_previous_layout_three_tiled :
  ∃ s1 s2 ws1 ws2,
    next_layout three_tiled = Done s1 ∧
    workspaces s1 !! 0 = Some ws1 ∧ layout ws1 = node tile_entry ∧
    state ws1 = [Byte.x01; Byte.x02; Byte.x09; Byte.x09] ∧
    previous_layout s1 = Done s2 ∧
    workspaces s2 !! 0 = Some ws2 ∧ layout ws2 = node grid_entry ∧
    state ws2 = [Byte.x07; Byte.x07; Byte.x07; Byte.x07].
Proof.
  destruct (next_layout_then_previous_layout three_tiled
    (make_workspace TILE [1; 2; 3] (node 2) []) grid_entry eq_refl)
    as (e' & s1 & s2 & Hnext & Hrun1 & Hw1 & Hrun2 & Hw2 & _).
  { simpl. apply (bool_decide_unpack _). vm_compute. exact I. }
  { reflexivity. }
  { simpl. set_solver. }
  { exact fits_three_tiled. }
  vm_compute in Hnext. injection Hnext as <-.
  exists s1, s2. eexists. eexists.
  rewrite Hw1, Hw2. split_and!; try done.
Defined.

(** X20: with the layout cursor on an entry of a list of distinct layouts
    whose default states fit the state buffer, [previous_layout] sets the
    cursor to the cyclic predecessor and copies its default state into the
    buffer, and [next_layout] after it sets the cursor back to the entry it
    started on, with the default state of that entry copied over what the
    first call left. *)
Theorem previous_layout_then_next_layout (s : velox) (ws : velox_workspace)
    (e : velox_layout_entry) :
  workspaces s !! workspace s = Some ws →
  NoDup (layouts ws) → layout ws = node e → e ∈ layouts ws →
  (∀ e', e' ∈ layouts ws → fits ws e') →
  ∃ e' s1 s2,
    list_prev_link (layouts ws) (node e) = Some (node e') ∧
    previous_layout s = Done s1 ∧
    workspaces s1 =
      <[workspace s := with_state (reset_state e' (state ws)) (with_layout (node e') ws)]>
        (workspaces s) ∧
    next_layout s1 = Done s2 ∧
    workspaces s2 =
      <[workspace s := with_state (reset_state e (reset_state e' (state ws))) ws]>
        (workspaces s) ∧
    workspace s2 = workspace s ∧ floating s2 = floating s.
Proof.
  intros Hws Hnd Hlayout He Hfits.
  destruct (list_prev_link_elem _ _ He) as (e' & Hprev & He').
  pose proof (previous_layout_result s ws e e' Hws Hlayout He Hprev (Hfits _ He')) as Hrun1.
  simpl in Hrun1.
  set (ws1 := with_state _ _) in Hrun1. set (s1 := emit_all _ _) in Hrun1.
  assert (workspaces s1 !! workspace s1 = Some ws1) as Hws1
    by (by apply (lookup_insert_eq_Some _ _ _ ws)).
  assert (fits ws1 e) as Hfits1.
  { destruct (Hfits _ He) as [H1 H2]. split; [done|].
    simpl. by rewrite (length_reset_state ws e') by auto. }
  pose proof (next_layout_result s1 ws1 e' e Hws1 eq_refl
    (list_next_link_of_prev _ _ _ Hnd He Hprev) Hfits1) as Hrun2.
  simpl in Hrun2.
  exists e', s1. eexists. split; [done|]. split; [done|]. split; [done|].
  split; [exact Hrun2|]. split; [|done]. simpl.
  rewrite list_insert_insert_eq. f_equal. rewrite <-Hlayout. by destruct ws.
Qed.

(** X20 at the registry of section 8. *)
Lemma previous_layout_then_next_layout_three_tiled :
  ∃ s1 s2 ws1 ws2,
    previous_layout three_tiled = Done s1 ∧
    workspaces s1 !! 0 = Some ws1 ∧ layout ws1 = node tile_entry ∧
    state ws1 = [Byte.x01; Byte.x02; Byte.x09; Byte.x09] ∧
    next_layout s1 = Done s2 ∧
    workspaces s2 !! 0 = Some ws2 ∧ layout ws2 = node grid_entry ∧
    state ws2 = [Byte.x07; Byte.x07; Byte.x07; Byte.x07].
Proof.
  destruct (previous_layout_then_next_layout three_tiled
    (make_workspace TILE [1; 2; 3] (node 2) []) grid_entry eq_refl)
    as (e' & s1 & s2 & Hprev & Hrun1 & Hw1 & Hrun2 & Hw2 & _).
  { simpl. apply (bool_decide_unpack _). vm_compute. exact I. }
  { reflexivity. }
  { simpl. set_solver. }
  { exact fits_three_tiled. }
  vm_compute in Hprev. injection Hprev as <-.
  exists s1, s2. eexists. eexists.
  rewrite Hw1, Hw2. split_and!; try done.
Defined.
